(** * Molecule detection of ReacNetGenerator ([reacnetgenerator/_detect.py])

    A shallow embedding of the detection stage: the two line-format
    scanners ([_DetectLAMMPSbond], [_DetectLAMMPSdump]), the remapping of
    periodic images in [_getbondfromcrd], the encoder [_connectmolecule]
    and the merge loop of [_readinputfile], followed by the properties of
    the specification that concern them.

    Python values are modelled as follows.  An [int] is a [Z]; a [str] is
    a [string] of 8-bit characters; a [float] is a binary64 number, given
    by the rational it holds, or an infinity or NaN ([float64]), the
    coordinates of the atoms being finite floats; a list is a [list]; a raised exception is the [Raise] outcome of the
    [result] monad. *)

From Stdlib Require Import ZArith QArith Qround Qabs Qpower Lia Lqa.
From Stdlib Require Import Strings.String Strings.Ascii.
From stdpp Require Import base list gmap sorting strings.

Local Open Scope Z_scope.

(** ** Exceptions and the result monad *)

Inductive exception : Type :=
  | ValueError (msg : string)
  | IndexError (msg : string)
  | UnboundLocalError (var : string)
  | NameError (var : string)
  | AttributeError (name : string)
  | TypeError (msg : string)
  | RuntimeError (msg : string)
  | OverflowError (msg : string).

(** The name of the Python class of an exception. *)
Definition exception_class (e : exception) : string :=
  match e with
  | ValueError _ => "ValueError"
  | IndexError _ => "IndexError"
  | UnboundLocalError _ => "UnboundLocalError"
  | NameError _ => "NameError"
  | AttributeError _ => "AttributeError"
  | TypeError _ => "TypeError"
  | RuntimeError _ => "RuntimeError"
  | OverflowError _ => "OverflowError"
  end.

Inductive result (A : Type) : Type :=
  | Ok (a : A)
  | Raise (e : exception).
Arguments Ok {A} a.
Arguments Raise {A} e.

#[global] Instance result_ret : MRet result := λ A a, Ok a.
#[global] Instance result_bind : MBind result := λ A B k r,
  match r with
  | Ok a => k a
  | Raise e => Raise e
  end.

(** [for x in l: body] over a state. *)
Fixpoint for_each {A S} (body : S → A → result S) (l : list A) (s : S)
  : result S :=
  match l with
  | [] => Ok s
  | x :: l' => s' ← body s x ; for_each body l' s'
  end.

(** [[f(x) for x in l]] where [f] may raise. *)
Fixpoint map_result {A B} (f : A → result B) (l : list A) : result (list B) :=
  match l with
  | [] => Ok []
  | x :: l' => y ← f x ; ys ← map_result f l' ; Ok (y :: ys)
  end.

(** ** Strings *)

Definition is_space (c : ascii) : bool :=
  let n := nat_of_ascii c in
  ((9 <=? n)%nat && (n <=? 13)%nat) || ((28 <=? n)%nat && (n <=? 32)%nat).

(** [str.split()] with no argument: the maximal runs of non-blank
    characters. *)
Fixpoint split (s : string) : list string :=
  match s with
  | EmptyString => []
  | String c s' =>
      if is_space c then split s'
      else
        match s' with
        | EmptyString => [String c EmptyString]
        | String c' _ =>
            if is_space c' then String c EmptyString :: split s'
            else
              match split s' with
              | t :: ts => String c t :: ts
              | [] => [String c EmptyString]
              end
        end
  end.

(** [str.split('\n')]. *)
Fixpoint split_lines_aux (cur : string) (s : string) : list string :=
  match s with
  | EmptyString => [String.rev cur]
  | String c s' =>
      if Ascii.eqb c "010"%char then String.rev cur :: split_lines_aux EmptyString s'
      else split_lines_aux (String c cur) s'
  end.
Definition split_newline (s : string) : list string := split_lines_aux EmptyString s.

Definition startswith (s p : string) : bool := String.prefix p s.

Definition digit_value (c : ascii) : option Z :=
  let n := nat_of_ascii c in
  if ((48 <=? n)%nat && (n <=? 57)%nat) then Some (Z.of_nat n - 48) else None.

Fixpoint all_digits (s : string) : bool :=
  match s with
  | EmptyString => true
  | String c s' => bool_decide (is_Some (digit_value c)) && all_digits s'
  end.

(** [str.isdigit()] on 8-bit characters. *)
Definition isdigit (s : string) : bool :=
  match s with
  | EmptyString => false
  | _ => all_digits s
  end.

(** Digits with single underscores between them, most significant first;
    [acc] is the value read so far and [after_digit] tells whether the
    previous character was a digit. *)
Fixpoint digits_value (s : string) (acc : Z) (after_digit : bool) : option Z :=
  match s with
  | EmptyString => if after_digit then Some acc else None
  | String c s' =>
      match digit_value c with
      | Some d => digits_value s' (10 * acc + d) true
      | None =>
          if Ascii.eqb c "_"%char && after_digit then digits_value s' acc false
          else None
      end
  end.

Definition strip_sign (s : string) : bool * string :=
  match s with
  | String "-"%char s' => (true, s')
  | String "+"%char s' => (false, s')
  | _ => (false, s)
  end.

(** [int(s)] for a token [s] (a string without blanks). *)
Definition py_int (s : string) : result Z :=
  let '(neg, body) := strip_sign s in
  match digits_value body 0 false with
  | Some n => Ok (if neg then - n else n)
  | None => Raise (ValueError ("invalid literal for int() with base 10: '" +:+ s +:+ "'"))
  end.

(** Splits at the first occurrence of one of the two characters. *)
Fixpoint cut_at (c1 c2 : ascii) (s : string) : string * option string :=
  match s with
  | EmptyString => (EmptyString, None)
  | String c s' =>
      if Ascii.eqb c c1 || Ascii.eqb c c2 then (EmptyString, Some s')
      else let '(a, b) := cut_at c1 c2 s' in (String c a, b)
  end.

Definition digits_or_zero (s : string) : option Z :=
  match s with
  | EmptyString => Some 0
  | _ => digits_value s 0 false
  end.

Definition pow10 (e : Z) : Q :=
  if (0 <=? e)%Z then inject_Z (10 ^ e) else / inject_Z (10 ^ (- e)).

(** A Python [float]: a binary64 number, given by the rational it holds,
    an infinity or NaN.  The sign of a zero is not kept. *)
Inductive float64 : Type :=
  | Finite (q : Q)
  | Infinite (negative : bool)
  | NaN.

(** The integer nearest to a rational, a tie going to the even one. *)
Definition round_half_even (x : Q) : Z :=
  let f := Qfloor x in
  match Qcompare (x - inject_Z f) (1 # 2) with
  | Lt => f
  | Gt => f + 1
  | Eq => if Z.even f then f else f + 1
  end.

(** [floor (log2 a)] for a rational [a > 0]. *)
Definition Qlog2 (a : Q) : Z :=
  let k := Z.log2 (Qnum a) - Z.log2 (Zpos (Qden a)) in
  if Qle_bool (2 ^ k) a then k else k - 1.

(** The binary64 number nearest to a rational, a tie going to the even
    mantissa: the numbers around [a = |q|] are the multiples of [2 ^ e],
    where [e] leaves 53 bits to the mantissa and is at least -1074 (the
    subnormal numbers); a result of [2 ^ 1024] or more is an infinity. *)
Definition binary64 (q : Q) : float64 :=
  if Qeq_bool q 0 then Finite 0
  else
    let a := Qabs q in
    let e := Z.max (-1074) (Qlog2 a - 52) in
    let m := round_half_even (a / 2 ^ e) in
    if (971 <? e) || ((e =? 971) && (2 ^ 53 <=? m)) then
      Infinite (negb (Qle_bool 0 q))
    else
      let x := (inject_Z m * 2 ^ e)%Q in
      Finite (if Qle_bool 0 q then x else - x).

Definition to_lower (c : ascii) : ascii :=
  let n := nat_of_ascii c in
  if ((65 <=? n)%nat && (n <=? 90)%nat) then ascii_of_nat (n + 32) else c.

Fixpoint lower (s : string) : string :=
  match s with
  | EmptyString => EmptyString
  | String c s' => String (to_lower c) (lower s')
  end.

(** The number of digits of a string of digits and underscores. *)
Fixpoint digit_count (s : string) : nat :=
  match s with
  | EmptyString => 0
  | String c s' =>
      if bool_decide (is_Some (digit_value c)) then S (digit_count s')
      else digit_count s'
  end.

(** The rational that a decimal literal denotes: digits with an optional
    fraction and an optional exponent, after the sign. *)
Definition decimal (body : string) : option Q :=
  let '(mant, expo) := cut_at "e"%char "E"%char body in
  let '(ip, fp) := cut_at "."%char "."%char mant in
  let fp := default EmptyString fp in
  if String.eqb ip EmptyString && String.eqb fp EmptyString then None
  else
    match digits_or_zero ip, digits_or_zero fp with
    | Some i, Some f =>
        let m := (inject_Z i + inject_Z f * pow10 (- Z.of_nat (digit_count fp)))%Q in
        match expo with
        | None => Some m
        | Some e =>
            match py_int e with
            | Ok k => Some (m * pow10 k)%Q
            | Raise _ => None
            end
        end
    | _, _ => None
    end.

(** [float(s)] for a token [s]: a spelling of an infinity or of NaN, or a
    decimal literal, which gives the binary64 number nearest to it. *)
Definition py_float64 (s : string) : result float64 :=
  let '(neg, body) := strip_sign s in
  let word := lower body in
  if String.eqb word "inf" || String.eqb word "infinity" then Ok (Infinite neg)
  else if String.eqb word "nan" then Ok NaN
  else
    match decimal body with
    | Some m => Ok (binary64 (if neg then - m else m))
    | None =>
        Raise (ValueError ("could not convert string to float: '" +:+ s +:+ "'"))
    end.

(** [float(s)] for a coordinate: the rational that the float holds.  The
    atoms of the embedding have finite coordinates; an infinity or NaN,
    which Python hands on to the external libraries, ends the scan here. *)
Definition py_float (s : string) : result Q :=
  x ← py_float64 s ;
  match x with
  | Finite q => Ok q
  | _ => Raise (ValueError ("could not convert string to float: '" +:+ s +:+ "'"))
  end.

(** [round(x)] of a float: the nearest integer, a tie going to the even
    one. *)
Definition py_round (x : float64) : result Z :=
  match x with
  | Finite q => Ok (round_half_even q)
  | Infinite _ => Raise (OverflowError "cannot convert float infinity to integer")
  | NaN => Raise (ValueError "cannot convert float NaN to integer")
  end.

(** ** Sequences *)

(** [l[i]] of a Python list: a negative index counts from the end. *)
Definition py_index (len : nat) (i : Z) : result nat :=
  if bool_decide (0 ≤ i < Z.of_nat len) then Ok (Z.to_nat i)
  else if bool_decide (- Z.of_nat len ≤ i < 0) then Ok (Z.to_nat (Z.of_nat len + i))
  else Raise (IndexError "list index out of range").

Definition getitem {A} (l : list A) (i : Z) : result A :=
  n ← py_index (length l) i ;
  match l !! n with
  | Some x => Ok x
  | None => Raise (IndexError "list index out of range")
  end.

(** [l[i] = x]. *)
Definition setitem {A} (l : list A) (i : Z) (x : A) : result (list A) :=
  n ← py_index (length l) i ; Ok (<[n := x]> l).

(** [l[lo:hi]] for non-negative bounds. *)
Definition slice {A} (l : list A) (lo hi : nat) : list A :=
  take (hi - lo) (drop lo l).

(** [l[lo:hi]] for any bounds: a negative bound counts from the end, and
    both are clipped to the list. *)
Definition clip (len : nat) (i : Z) : nat :=
  let j := if bool_decide (i < 0) then Z.of_nat len + i else i in
  Z.to_nat (Z.min (Z.max 0 j) (Z.of_nat len)).

Definition py_slice {A} (l : list A) (lo hi : Z) : list A :=
  slice l (clip (length l) lo) (clip (length l) hi).

(** [sorted(l, key=key)]: a stable sort, an element staying before the
    later elements of the same key. *)
Fixpoint insert_by {A} (key : A → Z) (x : A) (l : list A) : list A :=
  match l with
  | [] => [x]
  | y :: l' =>
      if bool_decide (key x ≤ key y) then x :: y :: l'
      else y :: insert_by key x l'
  end.

Definition sorted_by {A} (key : A → Z) (l : list A) : list A :=
  foldr (insert_by key) [] l.

(** [keys.index(x)]. *)
Fixpoint list_index (x : string) (l : list string) : option nat :=
  match l with
  | [] => None
  | y :: l' => if String.eqb x y then Some 0%nat else S <$> list_index x l'
  end.

Definition index_of (x : string) (l : list string) : result Z :=
  match list_index x l with
  | Some n => Ok (Z.of_nat n)
  | None => Raise (ValueError ("'" +:+ x +:+ "' is not in list"))
  end.

(** ** The collaborators of [_detect.py]

    [dps] (module [dps]) and [listtobytes] and [run_mp] (module [utils])
    are imported by [_detect.py]; their sources are not part of the
    development and they are modelled from the specification. *)

(** A BondGraph as [_readstepfunc] hands it over: per atom the neighbour
    indices and, aligned with them, the bond orders.  An entry is [None]
    for an atom without a record. *)
Definition BondGraph : Type := list (option (list Z)).
Definition BondLevels : Type := list (option (list Z)).

(** One discovered bond: the atom it was found from, the neighbour and the
    order. *)
Definition Bond : Type := (Z * Z * Z)%type.

Definition entry (g : list (option (list Z))) (s : Z) : list Z :=
  default [] (mjoin (g !! Z.to_nat s)).

(** [zip(bonds[s], levels[s])], a null entry standing for no neighbour. *)
Definition adj (bonds : BondGraph) (levels : BondLevels) (s : Z) : list (Z * Z) :=
  zip (entry bonds s) (entry levels s).

(** The neighbour loop of one popped atom [s]: every neighbour not yet
    visited yields a bond and is pushed.  The result is the pair of the new
    bonds, in discovery order, and of the pushed atoms, the last pushed
    first. *)
Fixpoint scan (N : nat) (visited : gset Z) (s : Z) (nbs : list (Z * Z))
    (bond : list Bond) (stack : list Z) : result (list Bond * list Z) :=
  match nbs with
  | [] => Ok (bond, stack)
  | (b, l) :: nbs' =>
      if bool_decide (0 ≤ b < Z.of_nat N) then
        if bool_decide (b ∈ visited) then scan N visited s nbs' bond stack
        else scan N visited s nbs' (bond ++ [(s, b, l)]) (b :: stack)
      else Raise (IndexError "index out of bounds")
  end.

(** The traversal of one component with an explicit stack.  [None] means
    that [fuel] iterations did not empty the stack. *)
Fixpoint explore (fuel : nat) (bonds : BondGraph) (levels : BondLevels)
    (stack : list Z) (visited : gset Z) (mol : list Z) (bond : list Bond)
  : option (result (gset Z * list Z * list Bond)) :=
  match stack with
  | [] => Some (Ok (visited, mol, bond))
  | s :: rest =>
      match fuel with
      | O => None
      | S fuel' =>
          if bool_decide (s ∈ visited) then
            explore fuel' bonds levels rest visited mol bond
          else
            let visited' := {[s]} ∪ visited in
            match scan (length bonds) visited' s (adj bonds levels s) bond rest with
            | Ok (bond', stack') =>
                explore fuel' bonds levels stack' visited' (mol ++ [s]) bond'
            | Raise e => Some (Raise e)
            end
      end
  end.

Definition degree_sum (bonds : BondGraph) (levels : BondLevels) : nat :=
  sum_list ((λ s, length (adj bonds levels s)) <$> seqZ 0 (Z.of_nat (length bonds))).

(** The outer loop [for i in range(N)]. *)
Fixpoint components (fuel : nat) (bonds : BondGraph) (levels : BondLevels)
    (roots : list Z) (visited : gset Z)
    (molecule : list (list Z)) (bondlist : list (list Bond))
  : option (result (list (list Z) * list (list Bond))) :=
  match roots with
  | [] => Some (Ok (molecule, bondlist))
  | i :: roots' =>
      if bool_decide (i ∈ visited) then
        components fuel bonds levels roots' visited molecule bondlist
      else
        match explore fuel bonds levels [i] visited [] [] with
        | None => None
        | Some (Raise e) => Some (Raise e)
        | Some (Ok (visited', mol, bond)) =>
            components fuel bonds levels roots' visited'
              (molecule ++ [mol]) (bondlist ++ [bond])
        end
  end.

Definition dps_fuel (fuel : nat) (bonds : BondGraph) (levels : BondLevels)
  : option (result (list (list Z) * list (list Bond))) :=
  components fuel bonds levels (seqZ 0 (Z.of_nat (length bonds))) ∅ [] [].

(** Modelled from the spec: [dps], the Molecule Extractor (section 4.3),
    whose source [dps.pyx] is missing.  An iterative depth-first traversal
    with an explicit stack over the atoms [0..N-1]; a null entry is an atom
    without neighbours; each component comes with the bonds found while it
    was traversed, in the order and orientation of their discovery.  The
    traversal of a component pops at most one atom per pushed atom, and
    pushes at most one atom per neighbour entry, so [1 + degree_sum]
    iterations empty the stack ([dps_fuel_enough] below). *)
Definition dps (bonds : BondGraph) (levels : BondLevels)
  : result (list (list Z) * list (list Bond)) :=
  match dps_fuel (S (degree_sum bonds levels)) bonds levels with
  | Some r => r
  | None => Raise (RuntimeError "traversal did not finish")
  end.

(** Modelled from the spec: [listtobytes] of [utils], whose source is
    missing: a fixed-width binary encoding of a sequence of integers
    (section 4.4), here eight bytes per integer, least significant first,
    in two's complement.  The sequence is encoded as it is given: whether
    the missing code puts it in a canonical order first, as section 4.4
    asks of the encoder, is not known, and no property below depends on
    it. *)
Definition int64_bytes (n : Z) : list Z :=
  (λ k, Z.land (Z.shiftr n (8 * k)) 255) <$> seqZ 0 8.

Definition listtobytes (l : list Z) : list Z := l ≫= int64_bytes.

Definition flatten_bonds (l : list Bond) : list Z :=
  l ≫= (λ '(a, b, o), [a; b; o]).

(** ** [_Detect._connectmolecule] *)

(** A MoleculeKey: the bytes of the atom list and of the bond list joined
    by a blank. *)
Definition MoleculeKey : Type := list Z.

Definition molecule_key (mol : list Z) (bondlist : list Bond) : MoleculeKey :=
  listtobytes mol ++ [32] ++ listtobytes (flatten_bonds bondlist).

Definition _connectmolecule (bond : BondGraph) (level : BondLevels)
  : result (list MoleculeKey) :=
  '(molecule, bondlist) ← dps bond level ;
  Ok (uncurry molecule_key <$> zip molecule bondlist).

(** ** Well-formed BondGraphs *)

Definition in_range (N : nat) (b : Z) : Prop := 0 ≤ b < Z.of_nat N.





(** ** [_DetectLAMMPSdump._getbondfromcrd] *)

(** An [ase.Atom]: a chemical symbol at a position. *)
Record Atom : Type := mkAtom { symbol : string; position : Q * Q * Q }.

(** [Atoms.repeat(2)] (ASE) in a cell with edges along the axes: the eight
    translates of the atom list by zero or one cell edge per axis, the
    untranslated copy first; the atom at position [i] of the result is a
    copy of atom [i mod n]. *)
Definition translate (v : Q * Q * Q) (a : Atom) : Atom :=
  let '(x, y, z) := position a in
  let '(dx, dy, dz) := v in
  mkAtom (symbol a) (x + dx, y + dy, z + dz)%Q.

Definition repeat2 (cell : Q * Q * Q) (atoms : list Atom) : list Atom :=
  let '(lx, ly, lz) := cell in
  m0 ← [0%Q; 1%Q]; m1 ← [0%Q; 1%Q]; m2 ← [0%Q; 1%Q];
  translate (m0 * lx, m1 * ly, m2 * lz)%Q <$> atoms.

(** [step_atoms.set_cell(cell)] takes three edge lengths. *)
Definition set_cell (cell : list Q) : result (Q * Q * Q) :=
  match cell with
  | [lx; ly; lz] => Ok (lx, ly, lz)
  | _ => Raise (ValueError "Cell must be length 3 sequence")
  end.

Definition dist2 (p q : Q * Q * Q) : Q :=
  let '(x, y, z) := p in
  let '(x', y', z') := q in
  ((x - x') * (x - x') + (y - y') * (y - y') + (z - z') * (z - z'))%Q.

(** [cKDTree(real).query(g, k=1)[0] < 5]: the distance from [g] to the
    nearest of the atoms [real] is below 5, that is, some atom of [real] is
    at a squared distance below 25. *)
Definition nearest_lt_5 (real : list Atom) (g : Atom) : bool :=
  existsb (λ r, negb (Qle_bool 25 (dist2 (position r) (position g)))) real.

(** [np.where(mask)[0]]. *)
Definition np_where (mask : list bool) : list Z :=
  (filter (λ p : Z * bool, p.2 = true) (zip (seqZ 0 (Z.of_nat (length mask))) mask)).*1.

(** [a[mask]]. *)
Definition np_select {A} (l : list A) (mask : list bool) : list A :=
  (filter (λ p : A * bool, p.2 = true) (zip l mask)).*1.

(** The periodic branch: the ghost atoms that are kept, and for each of
    them the index of the real atom it is an image of. *)
Definition ghosts (step_atoms : list Atom) (cell : Q * Q * Q)
  : list Atom * list Z :=
  let atomnumber := length step_atoms in
  let repeated_atoms := drop atomnumber (repeat2 cell step_atoms) in
  let nearest := nearest_lt_5 step_atoms <$> repeated_atoms in
  let ghost_atoms := np_select repeated_atoms nearest in
  let realnumber := (λ i, i `mod` Z.of_nat atomnumber) <$> np_where nearest in
  (ghost_atoms, realnumber).

(** The order recorded for a bond of mol2 type [t]. *)
Definition bond_level (t : string) : result Z :=
  if String.eqb t "ar" then Ok 12
  else if String.eqb t "am" then Ok 1
  else py_int t.

(** [l[i].append(x)]. *)
Definition append_at {A} (l : list (list A)) (i : Z) (x : A) : result (list (list A)) :=
  n ← py_index (length l) i ; Ok (alter (λ row, row ++ [x]) n l).

(** [realnumber[i]] for a non-negative [i]; the name is bound in the
    periodic branch only. *)
Definition realnumber_at (realnumber : option (list Z)) (i : Z) : result Z :=
  match realnumber with
  | None => Raise (UnboundLocalError "realnumber")
  | Some r =>
      match r !! Z.to_nat i with
      | Some x => Ok x
      | None => Raise (IndexError "index out of bounds")
      end
  end.

(** The endpoints of a bond line: [None] when both are images, else the
    two indices, an image being replaced by its real atom. *)
Definition endpoints (atomnumber : Z) (realnumber : option (list Z))
    (s1 s2 : Z) : result (option (Z * Z)) :=
  if bool_decide (atomnumber ≤ s1) && bool_decide (atomnumber ≤ s2) then Ok None
  else if bool_decide (atomnumber ≤ s1) then
    r ← realnumber_at realnumber (s1 - atomnumber) ; Ok (Some (r, s2))
  else if bool_decide (atomnumber ≤ s2) then
    r ← realnumber_at realnumber (s2 - atomnumber) ; Ok (Some (s1, r))
  else Ok (Some (s1, s2)).

(** The state of the loop over the lines of the mol2 text. *)
Record bond_state : Type := mkBondState {
  linecontent : Z;
  bond : list (list Z);
  bondlevel : list (list Z)
}.

(** The body of the loop over [mol2string.split('\n')]. *)
Definition bond_line (atomnumber : Z) (realnumber : option (list Z))
    (st : bond_state) (line : string) : result bond_state :=
  if startswith line "@<TRIPOS>BOND" then
    Ok (mkBondState 0 (bond st) (bondlevel st))
  else if bool_decide (linecontent st = 0) then
    let s := split line in
    if bool_decide (3 < length s)%nat then
      i1 ← getitem s 1 ; n1 ← py_int i1 ;
      i2 ← getitem s 2 ; n2 ← py_int i2 ;
      ends ← endpoints atomnumber realnumber (n1 - 1) (n2 - 1) ;
      match ends with
      | None => Ok st
      | Some (s1, s2) =>
          bond1 ← append_at (bond st) s1 s2 ;
          bond2 ← append_at bond1 s2 s1 ;
          t ← getitem s 3 ;
          level ← bond_level t ;
          level1 ← append_at (bondlevel st) s1 level ;
          level2 ← append_at level1 s2 level ;
          Ok (mkBondState (linecontent st) bond2 level2)
      end
    else Ok st
  else Ok st.

Definition read_mol2 (atomnumber : nat) (realnumber : option (list Z))
    (mol2string : string) : result (list (list Z) * list (list Z)) :=
  st ← for_each (bond_line (Z.of_nat atomnumber) realnumber)
         (split_newline mol2string)
         (mkBondState (-1) (replicate atomnumber []) (replicate atomnumber [])) ;
  Ok (bond st, bondlevel st).

(** The periodic boundary conditions: with [pbc] the kept ghost atoms are
    added to the atoms and [realnumber] is bound. *)
Definition add_ghosts (pbc : bool) (step_atoms : list Atom) (cell : list Q)
  : result (option (list Z) * list Atom) :=
  if pbc then
    c ← set_cell cell ;
    let '(ghost_atoms, realnumber) := ghosts step_atoms c in
    Ok (Some realnumber, step_atoms ++ ghost_atoms)
  else Ok (None, step_atoms).

(** [_getbondfromcrd]; [oracle] is the conversion from xyz to mol2 by Open
    Babel, applied to the atoms that the xyz text lists. *)
Definition _getbondfromcrd (oracle : list Atom → string) (pbc : bool)
    (step_atoms : list Atom) (cell : list Q)
  : result (list (list Z) * list (list Z)) :=
  let atomnumber := length step_atoms in
  '(realnumber, all_atoms) ← add_ghosts pbc step_atoms cell ;
  let mol2string := oracle all_atoms in
  read_mol2 atomnumber realnumber mol2string.

(** *** What the loop records, stated on the bond records of the text *)

(** The token lists of the lines that the loop reads as bonds: the lines
    after a [@<TRIPOS>BOND] line that have more than three fields. *)
Fixpoint bond_records (inside : bool) (lines : list string) : list (list string) :=
  match lines with
  | [] => []
  | line :: rest =>
      if startswith line "@<TRIPOS>BOND" then bond_records true rest
      else if inside && bool_decide (3 < length (split line))%nat
           then split line :: bond_records inside rest
           else bond_records inside rest
  end.

(** A bond as it is kept: the two real atoms and the order; [None] for a
    bond between two images. *)
Definition kept_bond (atomnumber : Z) (realnumber : option (list Z))
    (s : list string) : result (option Bond) :=
  i1 ← getitem s 1 ; n1 ← py_int i1 ;
  i2 ← getitem s 2 ; n2 ← py_int i2 ;
  ends ← endpoints atomnumber realnumber (n1 - 1) (n2 - 1) ;
  match ends with
  | None => Ok None
  | Some (s1, s2) =>
      t ← getitem s 3 ; level ← bond_level t ; Ok (Some (s1, s2, level))
  end.

Fixpoint kept_bonds (atomnumber : Z) (realnumber : option (list Z))
    (recs : list (list string)) : result (list Bond) :=
  match recs with
  | [] => Ok []
  | s :: recs' =>
      r ← kept_bond atomnumber realnumber s ;
      rest ← kept_bonds atomnumber realnumber recs' ;
      Ok (match r with Some b => b :: rest | None => rest end)
  end.

(** The atom numbers of a bond record start at 1, as mol2 numbers them. *)
Definition ids_from_one (s : list string) : bool :=
  match i1 ← getitem s 1 ; py_int i1, i2 ← getitem s 2 ; py_int i2 with
  | Ok n1, Ok n2 => bool_decide (1 ≤ n1) && bool_decide (1 ≤ n2)
  | _, _ => true
  end.

Definition mol2_ids_from_one (mol2string : string) : bool :=
  forallb ids_from_one (bond_records false (split_newline mol2string)).

(** The neighbours, each with the order, that the kept bonds give atom
    [n]: a bond [(a, b, o)] gives [b] to [a] and then [a] to [b]. *)
Definition half_bonds (n : Z) (kept : list Bond) : list (Z * Z) :=
  kept ≫= (λ '(a, b, o), (if decide (a = n) then [(b, o)] else [])
                         ++ (if decide (b = n) then [(a, o)] else [])).

(** The rows of [bond] ([p = fst]) or of [bondlevel] ([p = snd]) once the
    kept bonds are appended to them. *)
Definition extend (p : Z * Z → Z) (rows : list (list Z)) (kept : list Bond)
  : list (list Z) :=
  imap (λ n row, row ++ (p <$> half_bonds (Z.of_nat n) kept)) rows.

(** [bond[a][k] == b and bondlevel[a][k] == o] for some [k]. *)
Definition recorded (bond bondlevel : list (list Z)) (a b o : Z) : Prop :=
  0 ≤ a ∧
  ∃ row lrow, bond !! Z.to_nat a = Some row ∧ bondlevel !! Z.to_nat a = Some lrow ∧
              (b, o) ∈ zip row lrow.

(** The oracle numbers the atoms of its bond records from 1. *)
Definition oracle_ids_from_one (oracle : list Atom → string) : Prop :=
  ∀ atoms, mol2_ids_from_one (oracle atoms) = true.

(** ** A periodic example

    Two hydrogen atoms in a cell of edge 10 along x; the atom at x = 0 has
    an image at x = 10, at distance 1 of the atom at x = 9.  The mol2 text
    lists a bond between the two atoms, a bond between atom 2 and the image
    (atom 3), and a bond between the image and an atom 4. *)
Definition example_atoms : list Atom :=
  [mkAtom "H" (0, 0, 0)%Q; mkAtom "H" (9, 0, 0)%Q].

Definition example_cell : list Q := [10; 30; 30]%Q.

Definition example_mol2 : string :=
"@<TRIPOS>MOLECULE
*****
 3 3 0 0 0
SMALL
GASTEIGER

@<TRIPOS>ATOM
      1 H           0.0000    0.0000    0.0000 H       1  UNL1        0.0000
      2 H           9.0000    0.0000    0.0000 H       1  UNL1        0.0000
      3 H          10.0000    0.0000    0.0000 H       1  UNL1        0.0000
@<TRIPOS>BOND
     1     1     2   ar
     2     2     3    2
     3     3     4   am
".

Definition example_oracle : list Atom → string := λ _, example_mol2.

(** The two atom numbers of a bond record. *)
Definition record_ids (s : list string) : result (Z * Z) :=
  i1 ← getitem s 1 ; n1 ← py_int i1 ;
  i2 ← getitem s 2 ; n2 ← py_int i2 ;
  Ok (n1, n2).

(** The real atom that an atom number of the mol2 text stands for: the
    atom of that number, numbers starting at 1, or, for the number of an
    image, the real atom of the image. *)
Definition real_atom (atomnumber : Z) (realnumber : option (list Z)) (n : Z)
  : option Z :=
  if bool_decide (n ≤ atomnumber) then Some (n - 1)
  else r ← realnumber ; r !! Z.to_nat (n - 1 - atomnumber).

(** Three atoms without periodic boundaries; the mol2 text lists an
    aromatic bond, an amide bond and a double bond. *)
Definition example_three_atoms : list Atom :=
  [mkAtom "C" (0, 0, 0)%Q; mkAtom "N" (1, 0, 0)%Q; mkAtom "C" (0, 1, 0)%Q].

Definition example_mol2_types : string :=
"@<TRIPOS>MOLECULE
*****
 3 3 0 0 0
SMALL
GASTEIGER

@<TRIPOS>ATOM
      1 C           0.0000    0.0000    0.0000 C.ar    1  UNL1        0.0000
      2 N           1.0000    0.0000    0.0000 N.am    1  UNL1        0.0000
      3 C           0.0000    1.0000    0.0000 C.2     1  UNL1        0.0000
@<TRIPOS>BOND
     1     1     3   ar
     2     1     2   am
     3     2     3    2
".


(** ** The detector object

    The attributes of [self]: the configuration, and what the header scan
    [_readNfunc] stores; an attribute that is not set yet is [None]. *)
Record Detect : Type := mkDetect {
  atomname : list string;
  stepinterval : nat;
  pbc : bool;
  self_N : option Z;
  self_atomtype : option (list Z);
  id_idx : option Z;
  tidx : option Z;
  xidx : option Z;
  yidx : option Z;
  zidx : option Z
}.

Definition attr {A} (name : string) (v : option A) : result A :=
  match v with
  | Some x => Ok x
  | None => Raise (AttributeError name)
  end.

(** A local variable that may not be bound yet. *)
Definition local {A} (name : string) (v : option A) : result A :=
  match v with
  | Some x => Ok x
  | None => Raise (UnboundLocalError name)
  end.

(** [line[0]]. *)
Definition first_char (line : string) : result ascii :=
  match line with
  | String c _ => Ok c
  | EmptyString => Raise (IndexError "string index out of range")
  end.

(** [np.zeros(N, dtype=int)]. *)
Definition np_zeros (n : Z) : result (list Z) :=
  if bool_decide (0 ≤ n) then Ok (replicate (Z.to_nat n) 0)
  else Raise (ValueError "negative dimensions are not allowed").

(** The local variables of the two header scans. *)
Record header_state : Type := mkHeader {
  iscompleted : bool;
  stepaindex : option Z;
  h_N : option Z;
  h_atomtype : option (list Z)
}.

(** The outcome of one iteration of a [for] loop with a [break]. *)
Inductive loop (S R : Type) : Type :=
  | Continue (s : S)
  | Break (r : R).
Arguments Continue {S R} s.
Arguments Break {S R} r.

(** [for index, line in enumerate(f): ... else: steplinenum = index + 1]:
    the body may break with the value of [steplinenum]; when the lines are
    exhausted the [else] branch reads [index], which is unbound if there
    was no line. *)
Fixpoint enumerate_loop {S} (body : S → Z → string → result (loop S Z))
    (lines : list string) (index : Z) (s : S) : result (S * Z) :=
  match lines with
  | [] =>
      if bool_decide (index = 0) then Raise (UnboundLocalError "index")
      else Ok (s, index - 1 + 1)
  | line :: rest =>
      r ← body s index line ;
      match r with
      | Continue s' => enumerate_loop body rest (index + 1) s'
      | Break steplinenum => Ok (s, steplinenum)
      end
  end.

(** [atomtype[int(s[0])-1] = int(s[1])-1]: the right-hand side is
    evaluated first, then the array and its index. *)
Definition set_atomtype (h : header_state) (s : list string) : result header_state :=
  a1 ← getitem s 1 ; t ← py_int a1 ;
  atomtype ← local "atomtype" (h_atomtype h) ;
  a0 ← getitem s 0 ; i ← py_int a0 ;
  atomtype' ← setitem atomtype (i - 1) (t - 1) ;
  Ok (mkHeader (iscompleted h) (stepaindex h) (h_N h) (Some atomtype')).

(** The branch on [iscompleted] shared by the two header scans: the second
    delimiter ends the scan, the first one is remembered. *)
Definition delimiter (h : header_state) (index : Z)
  : result (loop header_state Z) :=
  if iscompleted h then
    a ← local "stepaindex" (stepaindex h) ; Ok (Break (index - a))
  else Ok (Continue (mkHeader true (Some index) (h_N h) (h_atomtype h))).

(** ** [_DetectLAMMPSbond] *)

Definition bond_readN_body (h : header_state) (index : Z) (line : string)
  : result (loop header_state Z) :=
  c ← first_char line ;
  if Ascii.eqb c "#"%char then
    if startswith line "# Number of particles" then
      r ← delimiter h index ;
      match r with
      | Break n => Ok (Break n)
      | Continue h' =>
          n ← getitem (filter (λ s, isdigit s = true) (split line)) 0 ;
          N ← py_int n ;
          atomtype ← np_zeros N ;
          Ok (Continue (mkHeader (iscompleted h') (stepaindex h') (Some N) (Some atomtype)))
      end
    else Ok (Continue h)
  else
    h' ← set_atomtype h (split line) ; Ok (Continue h').

(** What both header scans do after their loop. *)
Definition store_header (self : Detect) (r : header_state * Z)
  : result (Detect * Z) :=
  N ← local "N" (h_N r.1) ;
  atomtype ← local "atomtype" (h_atomtype r.1) ;
  Ok (mkDetect (atomname self) (stepinterval self) (pbc self) (Some N) (Some atomtype)
        (id_idx self) (tidx self) (xidx self) (yidx self) (zidx self), r.2).

Definition bond_readNfunc (self : Detect) (f : list string) : result (Detect * Z) :=
  r ← enumerate_loop bond_readN_body f 0 (mkHeader false None None None) ;
  store_header self r.

(** The bond order of a field of the bond file:
    [max(1, round(float(x)))]. *)
Definition bond_order (x : string) : result Z :=
  v ← py_float64 x ; n ← py_round v ; Ok (Z.max 1 n).

(** A bond-order field as a bond file holds it: the digits [ip] of the
    integer part, a point, and the decimals [fp]; and the number that it
    spells. *)
Definition digit_char (d : nat) : ascii := ascii_of_nat (48 + d).

Definition digits_string (ds : list nat) : string :=
  foldr (λ d s, String (digit_char d) s) EmptyString ds.

Definition digits_number (ds : list nat) : Z :=
  foldl (λ acc d, 10 * acc + Z.of_nat d) 0 ds.

Definition decimal_field (ip fp : list nat) : string :=
  digits_string ip +:+ String "."%char (digits_string fp).

Definition decimal_value (ip fp : list nat) : Q :=
  (inject_Z (digits_number ip)
   + inject_Z (digits_number fp) * pow10 (- Z.of_nat (length fp)))%Q.

(** A [map] object: the function and the items it will be applied to.
    Nothing is computed when the object is made; the items are converted
    when the object is read. *)
Record py_map : Type := mkMap {
  map_func : string → result Z;
  map_items : list string
}.

(** Reading a [map] object to its end. *)
Definition read_map (m : py_map) : result (list Z) :=
  map_result (map_func m) (map_items m).

(** [lambda x: int(x)-1]. *)
Definition neighbour_index (x : string) : result Z :=
  n ← py_int x ; Ok (n - 1).

(** The local variables of [_DetectLAMMPSbond._readstepfunc]: the rows of
    [bond] and [level] are [None] or [map] objects. *)
Record bond_step : Type := mkBondStep {
  b_bond : list (option py_map);
  b_level : list (option py_map);
  b_timestep : option Z
}.

(** The body of the loop over the lines of a block.  The two [map]
    objects are stored as they are: the neighbour and bond-order fields of
    the line are not converted here. *)
Definition bond_step_line (st : bond_step) (line : string) : result bond_step :=
  match line with
  | EmptyString => Ok st
  | String c _ =>
      if Ascii.eqb c "#"%char then
        if startswith line "# Timestep" then
          t ← getitem (split line) (-1) ; timestep ← py_int t ;
          Ok (mkBondStep (b_bond st) (b_level st) (Some timestep))
        else Ok st
      else
        let s := split line in
        a0 ← getitem s 0 ; i0 ← py_int a0 ;
        let s0 := i0 - 1 in
        a2 ← getitem s 2 ; s2 ← py_int a2 ;
        bond' ← setitem (b_bond st) s0
                  (Some (mkMap neighbour_index (py_slice s 3 (3 + s2)))) ;
        level' ← setitem (b_level st) s0
                   (Some (mkMap bond_order (py_slice s (4 + s2) (4 + 2 * s2)))) ;
        Ok (mkBondStep bond' level' (b_timestep st))
  end.

(** Modelled from the spec: the traversal ([dps], whose source is missing)
    reads the rows of every atom (section 4.3), so every [map] object is
    read to its end, the rows of [bond] before those of [level]; a field
    that does not convert raises then. *)
Definition read_rows (rows : list (option py_map)) : result (list (option (list Z))) :=
  map_result (λ row, match row with
                     | None => Ok None
                     | Some m => l ← read_map m ; Ok (Some l)
                     end) rows.

Definition bond_readstepfunc (self : Detect) (item : Z * list string)
  : result (list MoleculeKey * (Z * Z)) :=
  let '(step, lines) := item in
  N ← attr "N" (self_N self) ;
  st ← for_each bond_step_line lines
         (mkBondStep (replicate (Z.to_nat N) None) (replicate (Z.to_nat N) None) None) ;
  bond ← read_rows (b_bond st) ;
  level ← read_rows (b_level st) ;
  molecules ← _connectmolecule bond level ;
  timestep ← local "timestep" (b_timestep st) ;
  Ok (molecules, (step, timestep)).

(** ** [_DetectLAMMPSdump] *)

Inductive LineType : Type := TIMESTEP | ATOMS | NUMBER | BOX | OTHER.

#[global] Instance LineType_eq_dec : EqDecision LineType.
Proof. solve_decision. Defined.

Definition linecontent_of (line : string) : LineType :=
  if startswith line "ITEM: TIMESTEP" then TIMESTEP
  else if startswith line "ITEM: ATOMS" then ATOMS
  else if startswith line "ITEM: NUMBER OF ATOMS" then NUMBER
  else if startswith line "ITEM: BOX" then BOX
  else OTHER.

(** The local variables of [_DetectLAMMPSdump._readNfunc], with the
    attributes of [self] that its loop sets. *)
Record dump_header : Type := mkDumpHeader {
  d_linecontent : option LineType;
  d_header : header_state;
  d_self : Detect
}.

(** [self.id_idx = keys.index('id') - 2], and so on for the five
    columns. *)
Definition set_columns (self : Detect) (keys : list string) : result Detect :=
  i ← index_of "id" keys ;
  t ← index_of "type" keys ;
  x ← index_of "x" keys ;
  y ← index_of "y" keys ;
  z ← index_of "z" keys ;
  Ok (mkDetect (atomname self) (stepinterval self) (pbc self)
        (self_N self) (self_atomtype self)
        (Some (i - 2)) (Some (t - 2)) (Some (x - 2)) (Some (y - 2)) (Some (z - 2))).

Definition dump_readN_body (h : dump_header) (index : Z) (line : string)
  : result (loop dump_header Z) :=
  if startswith line "ITEM:" then
    let linecontent := linecontent_of line in
    if decide (linecontent = ATOMS) then
      self' ← set_columns (d_self h) (split line) ;
      Ok (Continue (mkDumpHeader (Some linecontent) (d_header h) self'))
    else Ok (Continue (mkDumpHeader (Some linecontent) (d_header h) (d_self h)))
  else
    linecontent ← local "linecontent" (d_linecontent h) ;
    if decide (linecontent = NUMBER) then
      r ← delimiter (d_header h) index ;
      match r with
      | Break n => Ok (Break n)
      | Continue h' =>
          n ← getitem (split line) 0 ;
          N ← py_int n ;
          atomtype ← np_zeros N ;
          Ok (Continue (mkDumpHeader (d_linecontent h)
                (mkHeader (iscompleted h') (stepaindex h') (Some N) (Some atomtype))
                (d_self h)))
      end
    else if decide (linecontent = ATOMS) then
      h' ← set_atomtype (d_header h) (split line) ;
      Ok (Continue (mkDumpHeader (d_linecontent h) h' (d_self h)))
    else Ok (Continue h).

Definition dump_header_init (self : Detect) : dump_header :=
  mkDumpHeader None (mkHeader false None None None) self.

Definition dump_readNfunc (self : Detect) (f : list string) : result (Detect * Z) :=
  r ← enumerate_loop dump_readN_body f 0 (dump_header_init self) ;
  store_header (d_self r.1) (d_header r.1, r.2).

(** The local variables of [_DetectLAMMPSdump._readstepfunc]. *)
Record dump_step : Type := mkDumpStep {
  s_linecontent : option LineType;
  s_step_atoms : list (Z * Atom);
  s_boxsize : list Q;
  s_timestep : option (Z * Z)
}.

(** [s[i]] for a column index stored in [self]. *)
Definition field (s : list string) (name : string) (idx : option Z) : result string :=
  i ← attr name idx ; getitem s i.

(** The pair appended to [step_atoms] for a line of the ATOMS section. *)
Definition atom_of_line (self : Detect) (line : string) : result (Z * Atom) :=
  let s := split line in
  fid ← field s "id_idx" (id_idx self) ; id ← py_int fid ;
  ft ← field s "tidx" (tidx self) ; t ← py_int ft ;
  name ← getitem (atomname self) (t - 1) ;
  fx ← field s "xidx" (xidx self) ; x ← py_float fx ;
  fy ← field s "yidx" (yidx self) ; y ← py_float fy ;
  fz ← field s "zidx" (zidx self) ; z ← py_float fz ;
  Ok (id, mkAtom name (x, y, z)).

Definition dump_step_line (self : Detect) (step : Z) (st : dump_step)
    (line : string) : result dump_step :=
  match line with
  | EmptyString => Ok st
  | _ =>
      if startswith line "ITEM:" then
        Ok (mkDumpStep (Some (linecontent_of line)) (s_step_atoms st)
              (s_boxsize st) (s_timestep st))
      else
        linecontent ← local "linecontent" (s_linecontent st) ;
        if decide (linecontent = ATOMS) then
          a ← atom_of_line self line ;
          Ok (mkDumpStep (s_linecontent st) (s_step_atoms st ++ [a])
                (s_boxsize st) (s_timestep st))
        else if decide (linecontent = TIMESTEP) then
          t ← getitem (split line) 0 ; n ← py_int t ;
          Ok (mkDumpStep (s_linecontent st) (s_step_atoms st)
                (s_boxsize st) (Some (step, n)))
        else if decide (linecontent = BOX) then
          let s := split line in
          f1 ← getitem s 1 ; hi ← py_float f1 ;
          f0 ← getitem s 0 ; lo ← py_float f0 ;
          Ok (mkDumpStep (s_linecontent st) (s_step_atoms st)
                (s_boxsize st ++ [(hi - lo)%Q]) (s_timestep st))
        else Ok st
  end.

(** The loop over the lines of a block. *)
Definition dump_scan (self : Detect) (step : Z) (lines : list string)
  : result dump_step :=
  for_each (dump_step_line self step) lines (mkDumpStep None [] [] None).

(** The atoms in the order of their ids: the second components of
    [sorted(step_atoms, key=operator.itemgetter(0))], unzipped; unpacking
    the unzipped pairs of an empty list raises. *)
Definition atoms_by_id (step_atoms : list (Z * Atom)) : result (list Atom) :=
  match step_atoms with
  | [] => Raise (ValueError "not enough values to unpack (expected 2, got 0)")
  | _ => Ok (sorted_by fst step_atoms).*2
  end.

(** What [_readstepfunc] does after its loop. *)
Definition dump_finish (oracle : list Atom → string) (self : Detect)
    (st : dump_step) : result (list MoleculeKey * (Z * Z)) :=
  step_atoms ← atoms_by_id (s_step_atoms st) ;
  '(bond, level) ← _getbondfromcrd oracle (pbc self) step_atoms (s_boxsize st) ;
  molecules ← _connectmolecule (Some <$> bond) (Some <$> level) ;
  timestep ← local "timestep" (s_timestep st) ;
  Ok (molecules, timestep).

Definition dump_readstepfunc (oracle : list Atom → string) (self : Detect)
    (item : Z * list string) : result (list MoleculeKey * (Z * Z)) :=
  let '(step, lines) := item in
  st ← dump_scan self step lines ;
  dump_finish oracle self st.

(** ** The Parallel Orchestrator *)

(** The contiguous line blocks of [nlines] lines, one per timestep; [fuel]
    bounds the number of blocks. *)
Fixpoint chunks (fuel nlines : nat) (l : list string) : list (list string) :=
  match fuel with
  | O => []
  | S fuel' =>
      match l with
      | [] => []
      | _ => take nlines l :: chunks fuel' nlines (drop nlines l)
      end
  end.

Definition blocks (nlines : nat) (l : list string) : list (list string) :=
  match nlines with
  | O => []
  | _ => chunks (length l) nlines l
  end.

(** [enumerate]: every block with its step index. *)
Definition enumerate {A} (l : list A) : list (Z * A) :=
  zip (seqZ 0 (Z.of_nat (length l))) l.

(** Every [interval]-th item, the first one included; no sampling when no
    interval is configured. *)
Definition sample {A} (interval : nat) (items : list (Z * A)) : list (Z * A) :=
  match interval with
  | O => items
  | _ => filter (λ it : Z * A, it.1 `mod` Z.of_nat interval = 0) items
  end.

(** The work items: the blocks of [nlines] lines, numbered from 0, of
    which every [interval]-th is kept. *)
Definition work_items (l : list string) (nlines interval : nat)
  : list (Z * list string) :=
  sample interval (enumerate (blocks nlines l)).

(** The lines of the block of step index [i] in a file whose blocks have
    [nlines] lines. *)
Definition block_at (l : list string) (nlines : nat) (i : Z) : list string :=
  take nlines (drop (Z.to_nat i * nlines) l).

(** The step indices below [n] that are multiples of the interval [K]. *)
Definition sampled_steps (K n : nat) : list Z :=
  filter (λ i, i `mod` Z.of_nat K = 0) (seqZ 0 (Z.of_nat n)).

(** What the pool hands back: the calls of the function that it made, and
    the results in the order in which they are yielded. *)
Record pool_run (A R : Type) : Type := mkPoolRun {
  calls : list (Z * A);
  results : list (Z * result R)
}.
Arguments mkPoolRun {A R} calls results.
Arguments calls {A R} p.
Arguments results {A R} p.

(** Modelled from the spec: [run_mp] of [utils], whose source is missing
    (sections 4.5 and 5, and the step-interval semantics of section 6).
    The lines are cut into blocks of [nlines] lines, numbered from 0, and
    every [interval]-th block is a work item; the function is applied to
    the work items only.  The workers finish in any order: [finish] gives
    the time at which the item of a step index is done, and the results
    come out of the pool in the order of these times.  The orchestrator
    puts them back in the order of the step indices before it yields
    them. *)
Definition run_mp {R} (finish : Z → Z) (func : Z * list string → result R)
    (l : list string) (nlines : nat) (interval : nat)
  : pool_run (list string) R :=
  let items := work_items l nlines interval in
  let completed :=
    sorted_by (λ r : Z * result R, finish r.1) ((λ it, (it.1, func it)) <$> items) in
  mkPoolRun items (sorted_by fst completed).

(** ** [_Detect._readinputfile] *)

(** [d[molecule].append(step)] on a [defaultdict(list)], the keys in the
    order of their insertion. *)
Fixpoint dict_append (d : list (MoleculeKey * list Z)) (molecule : MoleculeKey)
    (step : Z) : list (MoleculeKey * list Z) :=
  match d with
  | [] => [(molecule, [step])]
  | (k, steps) :: d' =>
      if decide (k = molecule) then (k, steps ++ [step]) :: d'
      else (k, steps) :: dict_append d' molecule step
  end.

(** The body of the merge loop. *)
Definition merge_result
    (acc : list (MoleculeKey * list Z) * gmap Z Z)
    (r : Z * result (list MoleculeKey * (Z * Z)))
  : result (list (MoleculeKey * list Z) * gmap Z Z) :=
  '(molecules, (step, thetimestep)) ← r.2 ;
  Ok (foldl (λ d molecule, dict_append d molecule step) acc.1 molecules,
      <[step := thetimestep]> acc.2).

(** The two scans of an input format. *)
Record Format : Type := mkFormat {
  _readNfunc : Detect → list string → result (Detect * Z);
  _readstepfunc : Detect → Z * list string → result (list MoleculeKey * (Z * Z))
}.

Inductive InputFileType : Type := LAMMPSBOND | LAMMPSDUMP.

Definition _DetectLAMMPSbond : Format :=
  mkFormat bond_readNfunc bond_readstepfunc.

Definition _DetectLAMMPSdump (oracle : list Atom → string) : Format :=
  mkFormat dump_readNfunc (dump_readstepfunc oracle).

Definition gettype (oracle : list Atom → string) (inputtype : InputFileType)
  : Format :=
  match inputtype with
  | LAMMPSBOND => _DetectLAMMPSbond
  | LAMMPSDUMP => _DetectLAMMPSdump oracle
  end.

(** What [_readinputfile] leaves in [self]. *)
Record timeline : Type := mkTimeline {
  d : list (MoleculeKey * list Z);
  timestep : gmap Z Z;
  temp1it : nat;
  step : nat
}.

(** A run of [_readinputfile]: the step indices of the blocks handed to
    the workers, and the timeline or the exception. *)
Record detect_run : Type := mkRun {
  dispatched : list Z;
  outcome : result timeline
}.

Definition _readinputfile (fmt : Format) (finish : Z → Z) (self : Detect)
    (f : list string) : detect_run :=
  match _readNfunc fmt self f with
  | Raise e => mkRun [] (Raise e)
  | Ok (self', _steplinenum) =>
      let p := run_mp finish (_readstepfunc fmt self') f
                 (Z.to_nat _steplinenum) (stepinterval self') in
      mkRun (calls p).*1
        ('(d, timestep) ← for_each merge_result (results p) ([], ∅) ;
         Ok (mkTimeline d timestep (length d) (size timestep)))
  end.

(** The order that [sorted_by key] establishes. *)
Definition key_le {A} (key : A → Z) (x y : A) : Prop := key x ≤ key y.

(** ** A bond file of four timesteps

    Two atoms bonded to each other; the bond-order field is 1.4 at the
    timesteps 0 and 10, 2.5 at 20 and 3.5 at 30. *)
Definition newline (s : string) : string := s +:+ String "010"%char EmptyString.

Definition example_block (t bo : string) : list string :=
  newline <$>
    ["# Timestep " +:+ t;
     "#";
     "# Number of particles 2";
     "#";
     "# id type nb id_1...id_nb mol bo_1...bo_nb abo nlp q";
     " 1 1 1 2 0 " +:+ bo +:+ " 1.400 0.000 0.100";
     " 2 1 1 1 0 " +:+ bo +:+ " 1.400 0.000 -0.100";
     "#"].

Definition example_bondfile : list string :=
  example_block "0" "1.4" ++ example_block "10" "1.4"
  ++ example_block "20" "2.5" ++ example_block "30" "3.5".

(** The configuration: every second timestep, no periodic boundaries. *)
Definition example_self : Detect :=
  mkDetect ["H"; "O"] 2 false None None None None None None None.

(** [example_self] after the header scan of [example_bondfile]. *)
Definition example_self_scanned : Detect :=
  mkDetect ["H"; "O"] 2 false (Some 2) (Some [0; 0]) None None None None None.

(** ** Malformed headers *)

(** The state in which the loop of a header scan reaches the line after
    [pre]; [None] when the loop has left by [break] before. *)
Fixpoint scan_to {S} (body : S → Z → string → result (loop S Z))
    (pre : list string) (index : Z) (s : S) : result (option S) :=
  match pre with
  | [] => Ok (Some s)
  | line :: rest =>
      r ← body s index line ;
      match r with
      | Continue s' => scan_to body rest (index + 1) s'
      | Break _ => Ok None
      end
  end.

(** The first of the five required column names that [keys] lacks. *)
Definition missing_column (keys : list string) : option string :=
  List.find (λ c, negb (existsb (String.eqb c) keys)) ["id"; "type"; "x"; "y"; "z"].

(** ** The order of the atom lines *)

(** [st] with [atoms] appended to its atoms. *)
Definition with_atoms (st : dump_step) (atoms : list (Z * Atom)) : dump_step :=
  mkDumpStep (s_linecontent st) (s_step_atoms st ++ atoms)
    (s_boxsize st) (s_timestep st).

(** Two states of the block loop that hold the same atoms, in any order,
    and agree on everything else. *)
Definition same_but_order (st1 st2 : dump_step) : Prop :=
  s_linecontent st1 = s_linecontent st2 ∧
  s_step_atoms st1 ≡ₚ s_step_atoms st2 ∧
  s_boxsize st1 = s_boxsize st2 ∧
  s_timestep st1 = s_timestep st2.

(** A dump block of the two atoms of [example_atoms], the second atom
    first. *)
Definition example_dump_self : Detect :=
  mkDetect ["H"; "O"] 1 true (Some 2) (Some [0; 0])
    (Some 0) (Some 1) (Some 2) (Some 3) (Some 4).

Definition example_dump_pre : list string :=
  newline <$>
    ["ITEM: TIMESTEP"; "0"; "ITEM: NUMBER OF ATOMS"; "2";
     "ITEM: BOX BOUNDS pp pp pp"; "0 10"; "0 30"; "0 30";
     "ITEM: ATOMS id type x y z"].

Definition example_dump_body : list string :=
  newline <$> ["2 1 9.0 0.0 0.0"; "1 1 0.0 0.0 0.0"].

(** The atoms of a block in the order in which [_readstepfunc] hands them
    to [_getbondfromcrd], and the BondGraph that it gets back. *)
Definition dump_atoms (self : Detect) (step : Z) (lines : list string)
  : result (list Atom) :=
  st ← dump_scan self step lines ; atoms_by_id (s_step_atoms st).

Definition dump_symbols (self : Detect) (step : Z) (lines : list string)
  : result (list string) :=
  match dump_atoms self step lines with
  | Ok atoms => Ok (symbol <$> atoms)
  | Raise e => Raise e
  end.

Definition dump_bondgraph (oracle : list Atom → string) (self : Detect) (step : Z)
    (lines : list string) : result (list (list Z) * list (list Z)) :=
  st ← dump_scan self step lines ;
  step_atoms ← atoms_by_id (s_step_atoms st) ;
  _getbondfromcrd oracle (pbc self) step_atoms (s_boxsize st).

(** A dump block in which two atom lines have the same id 1, and a bonding
    oracle for three atoms that reports a single bond between the atoms at a
    distance below 1.5 of each other. *)
Definition example_dup_self : Detect :=
  mkDetect ["H"; "O"] 1 false (Some 3) (Some [0; 0; 0])
    (Some 0) (Some 1) (Some 2) (Some 3) (Some 4).

Definition example_dup_pre : list string :=
  newline <$>
    ["ITEM: TIMESTEP"; "0"; "ITEM: NUMBER OF ATOMS"; "3";
     "ITEM: ATOMS id type x y z"].

Definition example_dup_body : list string :=
  newline <$> ["1 1 0.0 0.0 0.0"; "1 2 5.0 0.0 0.0"; "2 1 0.5 0.0 0.0"].

Definition near (a b : Atom) : bool :=
  negb (Qle_bool (9 # 4) (dist2 (position a) (position b))).

Definition example_distance_oracle (atoms : list Atom) : string :=
  match atoms with
  | [a1; a2; a3] =>
      "@<TRIPOS>BOND" +:+ newline EmptyString
      +:+ (if near a1 a2 then newline " 1 1 2 1" else EmptyString)
      +:+ (if near a1 a3 then newline " 2 1 3 1" else EmptyString)
      +:+ (if near a2 a3 then newline " 3 2 3 1" else EmptyString)
  | _ => newline "@<TRIPOS>BOND"
  end.

(** ** Further notions used by the properties *)

(** The AtomType array has one entry per atom. *)
Definition header_consistent (h : header_state) : Prop :=
  match h_N h, h_atomtype h with
  | Some N, Some atomtype => 0 ≤ N ∧ length atomtype = Z.to_nat N
  | None, None => True
  | _, _ => False
  end.

(** The lines that delimit the blocks of a bond file. *)
Definition particles_line (line : string) : bool :=
  startswith line "# Number of particles".

(** [d.get(molecule)]: the occurrence list of a key of [d], if it is
    one. *)
Fixpoint dict_get (d : list (MoleculeKey * list Z)) (molecule : MoleculeKey)
  : option (list Z) :=
  match d with
  | [] => None
  | (k, steps) :: d' =>
      if decide (k = molecule) then Some steps else dict_get d' molecule
  end.

(** An occurrence list, or none, with [l] appended to it. *)
Definition appended (o : option (list Z)) (l : list Z) : option (list Z) :=
  match l with
  | [] => o
  | _ => Some (default [] o ++ l)
  end.

(** The steps that a list of results holds for a key: the step of each
    result, once for every occurrence of the key among its molecules, in
    the order of the results. *)
Definition steps_of (molecule : MoleculeKey)
    (rs : list (Z * result (list MoleculeKey * (Z * Z)))) : list Z :=
  rs ≫= λ r, match r.2 with
             | Ok (molecules, (step, _)) =>
                 (λ _, step) <$> filter (λ m, m = molecule) molecules
             | Raise _ => []
             end.


(** The timesteps that a list of results holds for a step index, in the
    order of the results. *)
Definition timesteps_of (s : Z)
    (rs : list (Z * result (list MoleculeKey * (Z * Z)))) : list Z :=
  rs ≫= λ r, match r.2 with
             | Ok (_, (step, thetimestep)) =>
                 if decide (step = s) then [thetimestep] else []
             | Raise _ => []
             end.

(** Two results as the merge loop receives them: the blocks of step
    indices 0 and 2, the first holding one molecule twice. *)
Definition example_results : list (Z * result (list MoleculeKey * (Z * Z))) :=
  [(0, Ok ([[1]; [2]; [1]], (0, 100))); (2, Ok ([[2]], (2, 120)))].

(** The field of a line that stands under the column called [name]. *)
Definition column (cols vals : list string) (name : string) : option string :=
  i ← list_index name cols ; vals !! i.

(** Two lines of a dump file that are the same line, or two [ITEM: ATOMS]
    lines of which the second declares the five columns. *)
Definition same_but_columns (l1 l2 : string) : Prop :=
  l1 = l2 ∨
  (startswith l1 "ITEM: ATOMS" = true ∧ startswith l2 "ITEM: ATOMS" = true
   ∧ missing_column (split l2) = None).

(** Two states of the header scan of a dump file that differ at most by the
    column indices stored in [self]. *)
Definition same_but_indices (h1 h2 : dump_header) : Prop :=
  d_linecontent h1 = d_linecontent h2 ∧ d_header h1 = d_header h2.

(** The outcomes of one iteration on two states that differ by the column
    indices. *)
Definition same_outcome (r1 r2 : loop dump_header Z) : Prop :=
  match r1, r2 with
  | Continue h1, Continue h2 => same_but_indices h1 h2
  | Break n1, Break n2 => n1 = n2
  | _, _ => False
  end.




(** The indices of the lines that the header scan of a dump file takes
    for atom counts: the lines that do not start with [ITEM:] and follow an
    [ITEM: NUMBER OF ATOMS] header; [cur] is the type of the section in
    which the lines start and [index] the index of the first line. *)
Fixpoint number_lines (cur : option LineType) (index : Z) (lines : list string)
  : list Z :=
  match lines with
  | [] => []
  | line :: rest =>
      if startswith line "ITEM:" then
        number_lines (Some (linecontent_of line)) (index + 1) rest
      else if decide (cur = Some NUMBER) then
        index :: number_lines cur (index + 1) rest
      else number_lines cur (index + 1) rest
  end.

(** * Properties *)

(** ** The Molecule Extractor partitions the atoms *)

Section dps_facts.
Context (bonds : BondGraph) (levels : BondLevels).




(** *** Termination: the fuel of [dps] is enough *)











(** *** No exception on a BondGraph whose neighbours are atom indices *)




(** *** The partition *)



(** *** An atom nobody is bonded to *)


End dps_facts.



(** ** The bond lines of the mol2 text *)

Lemma bind_Ok {A B} (r : result A) (k : A → result B) (b : B) :
  r ≫= k = Ok b → ∃ a, r = Ok a ∧ k a = Ok b.
Proof. destruct r as [a|e]; [|done]. intros Hk. by exists a. Qed.

Lemma bind_Ok_l {A B} (r : result A) (a : A) (k : A → result B) :
  r = Ok a → r ≫= k = k a.
Proof. by intros ->. Qed.

(** Replaces a computation known to return by its value. *)
Ltac ok_step H := rewrite (bind_Ok_l _ _ _ H); cbv beta.

Lemma for_each_app {A S} (body : S → A → result S) l1 l2 s :
  for_each body (l1 ++ l2) s = for_each body l1 s ≫= for_each body l2.
Proof.
  revert s. induction l1 as [|x l1 IH]; intros s; simpl; [done|].
  destruct (body s x); simpl; [apply IH|done].
Qed.

Lemma py_index_in_range len i :
  in_range len i → py_index len i = Ok (Z.to_nat i).
Proof. intros Hi. unfold py_index. by rewrite bool_decide_eq_true_2. Qed.

Lemma append_at_in_range {A} (l : list (list A)) i x :
  in_range (length l) i →
  append_at l i x = Ok (alter (λ row, row ++ [x]) (Z.to_nat i) l).
Proof. intros Hi. unfold append_at. by rewrite py_index_in_range. Qed.

Lemma half_bonds_app n k1 k2 :
  half_bonds n (k1 ++ k2) = half_bonds n k1 ++ half_bonds n k2.
Proof. unfold half_bonds. apply bind_app. Qed.

Lemma extend_nil p rows : extend p rows [] = rows.
Proof.
  unfold extend. apply list_eq. intros i. rewrite list_lookup_imap.
  destruct (rows !! i); simpl; [|done]. by rewrite app_nil_r.
Qed.

Lemma extend_extend p rows k1 k2 :
  extend p (extend p rows k1) k2 = extend p rows (k1 ++ k2).
Proof.
  unfold extend. apply list_eq. intros i. rewrite !list_lookup_imap.
  destruct (rows !! i); simpl; [|done].
  by rewrite half_bonds_app, fmap_app, app_assoc.
Qed.

Lemma length_extend p rows kept : length (extend p rows kept) = length rows.
Proof. unfold extend. apply length_imap. Qed.

(** One pass through the four [append] calls. *)
Lemma alter_alter_extend p (rows : list (list Z)) a b o :
  in_range (length rows) a → in_range (length rows) b →
  alter (λ row, row ++ [p (a, o)]) (Z.to_nat b)
    (alter (λ row, row ++ [p (b, o)]) (Z.to_nat a) rows)
  = extend p rows [(a, b, o)].
Proof.
  intros Ha Hb. unfold extend, in_range in *. apply list_eq. intros i.
  rewrite list_lookup_imap. unfold half_bonds. simpl. rewrite app_nil_r.
  rewrite !list_lookup_alter.
  repeat case_decide; try lia;
    repeat match goal with
           | H : Z.to_nat _ = _ |- _ => rewrite H
           end;
    destruct (rows !! i) as [row|]; simpl; try done; f_equal;
    rewrite <- ?app_assoc; simpl; by rewrite ?app_nil_r.
Qed.

Section bond_lines.
Context (N : nat) (realnumber : option (list Z)).
Hypothesis realnumber_in_range :
  ∀ r, realnumber = Some r → Forall (in_range N) r.

Lemma endpoints_in_range n1 n2 a b :
  1 ≤ n1 → 1 ≤ n2 →
  endpoints (Z.of_nat N) realnumber (n1 - 1) (n2 - 1) = Ok (Some (a, b)) →
  in_range N a ∧ in_range N b.
Proof.
  intros H1 H2. unfold endpoints, realnumber_at, in_range.
  assert (Hr : ∀ i x r, realnumber = Some r → r !! i = Some x → in_range N x).
  { intros i x r Hsome Hx. apply realnumber_in_range in Hsome.
    rewrite Forall_forall in Hsome. by eapply Hsome, list_elem_of_lookup_2. }
  repeat case_bool_decide; simpl; try done.
  - destruct realnumber as [r|] eqn:Hrn; [|done].
    destruct (r !! _) as [x|] eqn:Hx; [|done]. simpl. intros [= <- <-].
    apply (Hr _ _ _ eq_refl) in Hx. unfold in_range in Hx. lia.
  - destruct realnumber as [r|] eqn:Hrn; [|done].
    destruct (r !! _) as [x|] eqn:Hx; [|done]. simpl. intros [= <- <-].
    apply (Hr _ _ _ eq_refl) in Hx. unfold in_range in Hx. lia.
  - intros [= <- <-]. lia.
Qed.

Lemma ids_from_one_inv s i1 n1 i2 n2 :
  ids_from_one s = true →
  getitem s 1 = Ok i1 → py_int i1 = Ok n1 →
  getitem s 2 = Ok i2 → py_int i2 = Ok n2 →
  1 ≤ n1 ∧ 1 ≤ n2.
Proof.
  unfold ids_from_one. intros Hids Hi1 Hn1 Hi2 Hn2.
  rewrite Hi1, Hi2 in Hids. cbn in Hids.
  rewrite Hn1, Hn2 in Hids. apply andb_true_iff in Hids as [H1 H2].
  by apply bool_decide_eq_true in H1, H2.
Qed.

(** The loop over the lines appends, to the rows it starts from, the
    half bonds of the kept bonds. *)
Lemma read_lines_spec lines st st' :
  for_each (bond_line (Z.of_nat N) realnumber) lines st = Ok st' →
  length (bond st) = N → length (bondlevel st) = N →
  forallb ids_from_one
    (bond_records (bool_decide (linecontent st = 0)) lines) = true →
  ∃ kept,
    kept_bonds (Z.of_nat N) realnumber
      (bond_records (bool_decide (linecontent st = 0)) lines) = Ok kept ∧
    Forall (λ bd : Bond, in_range N bd.1.1 ∧ in_range N bd.1.2) kept ∧
    bond st' = extend fst (bond st) kept ∧
    bondlevel st' = extend snd (bondlevel st) kept.
Proof.
  revert st. induction lines as [|line lines IH]; intros st; simpl.
  - intros [= <-] _ _ _. exists []. by rewrite !extend_nil.
  - intros (st1 & Hline & Hrest)%bind_Ok Hb Hl Hids. unfold bond_line in Hline.
    destruct (startswith line "@<TRIPOS>BOND").
    { injection Hline as <-. apply IH in Hrest; [|done..]. done. }
    case_bool_decide as Hin; simpl in Hids |- *;
      [|injection Hline as <-; apply IH in Hrest; [|done|done|];
        by rewrite bool_decide_eq_false_2 in * by done].
    case_bool_decide as Hlen;
      [|injection Hline as <-; apply IH in Hrest; [|done|done|];
        by rewrite bool_decide_eq_true_2 in * by done].
    simpl in Hids. apply andb_true_iff in Hids as [Hid Hids].
    apply bind_Ok in Hline as (i1 & Hi1 & Hline).
    apply bind_Ok in Hline as (n1 & Hn1 & Hline).
    apply bind_Ok in Hline as (i2 & Hi2 & Hline).
    apply bind_Ok in Hline as (n2 & Hn2 & Hline).
    apply bind_Ok in Hline as (ends & Hends & Hline).
    destruct (ids_from_one_inv _ _ _ _ _ Hid Hi1 Hn1 Hi2 Hn2) as [H1 H2].
    cbn [kept_bonds]. unfold kept_bond.
    ok_step Hi1. ok_step Hn1. ok_step Hi2. ok_step Hn2. ok_step Hends.
    destruct ends as [[a b]|].
    2:{ injection Hline as <-. apply IH in Hrest; [|done|done|];
          rewrite bool_decide_eq_true_2 in * by done; [|done].
        destruct Hrest as (kept & -> & ?). by exists kept. }
    destruct (endpoints_in_range _ _ _ _ H1 H2 Hends) as [Ha Hb'].
    rewrite append_at_in_range in Hline by (by rewrite Hb). simpl in Hline.
    rewrite append_at_in_range in Hline by (by rewrite length_alter, Hb).
    simpl in Hline.
    apply bind_Ok in Hline as (t & Ht & Hline).
    apply bind_Ok in Hline as (o & Ho & Hline).
    rewrite append_at_in_range in Hline by (by rewrite Hl). simpl in Hline.
    rewrite append_at_in_range in Hline by (by rewrite length_alter, Hl).
    simpl in Hline. injection Hline as <-.
    ok_step Ht. ok_step Ho. ok_step (eq_refl (Ok (A:=option Bond) (Some (a, b, o)))).
    pose proof (alter_alter_extend fst (bond st) a b o) as Eb.
    pose proof (alter_alter_extend snd (bondlevel st) a b o) as El.
    cbn [fst snd] in Eb, El. rewrite Hb in Eb. rewrite Hl in El.
    specialize (Eb Ha Hb'). specialize (El Ha Hb').
    apply IH in Hrest; cbn [bond bondlevel linecontent] in *.
    + rewrite bool_decide_eq_true_2 in Hrest by done.
      destruct Hrest as (kept & Hkept & Hall & Hbond & Hlevel).
      ok_step Hkept.
      exists ((a, b, o) :: kept). split_and!; [done|by constructor|..].
      * by rewrite Hbond, Eb, extend_extend.
      * by rewrite Hlevel, El, extend_extend.
    + by rewrite !length_alter.
    + by rewrite !length_alter.
    + by rewrite bool_decide_eq_true_2 by done.
Qed.
End bond_lines.

Lemma read_mol2_spec N realnumber mol2string bond bondlevel :
  (∀ r, realnumber = Some r → Forall (in_range N) r) →
  mol2_ids_from_one mol2string = true →
  read_mol2 N realnumber mol2string = Ok (bond, bondlevel) →
  ∃ kept,
    kept_bonds (Z.of_nat N) realnumber
      (bond_records false (split_newline mol2string)) = Ok kept ∧
    Forall (λ bd : Bond, in_range N bd.1.1 ∧ in_range N bd.1.2) kept ∧
    length bond = N ∧ length bondlevel = N ∧
    ∀ n, (n < N)%nat →
      bond !! n = Some ((half_bonds (Z.of_nat n) kept).*1) ∧
      bondlevel !! n = Some ((half_bonds (Z.of_nat n) kept).*2).
Proof.
  intros Hrn Hids. unfold read_mol2.
  intros (st & Hloop & [= <- <-])%bind_Ok.
  apply read_lines_spec in Hloop as (kept & Hkept & Hall & Hbond & Hlevel);
    cbn [bond bondlevel linecontent]; try done; try by rewrite length_replicate.
  cbn [bond bondlevel linecontent] in *.
  rewrite bool_decide_eq_false_2 in Hkept by done.
  exists kept. rewrite Hbond, Hlevel, !length_extend, !length_replicate.
  split_and!; try done. intros n Hn. unfold extend.
  rewrite !list_lookup_imap, !lookup_replicate_2 by done. done.
Qed.

Lemma repeat2_nil c : repeat2 c [] = [].
Proof. by destruct c as [[lx ly] lz]. Qed.

Lemma ghosts_in_range step_atoms c :
  Forall (in_range (length step_atoms)) (ghosts step_atoms c).2.
Proof.
  unfold ghosts. cbn [snd]. destruct step_atoms as [|a l].
  - by rewrite repeat2_nil.
  - apply Forall_fmap, Forall_forall. intros i _. unfold in_range. simpl.
    apply Z.mod_pos_bound. lia.
Qed.

Lemma add_ghosts_in_range pbc step_atoms cell realnumber all_atoms :
  add_ghosts pbc step_atoms cell = Ok (realnumber, all_atoms) →
  ∀ r, realnumber = Some r → Forall (in_range (length step_atoms)) r.
Proof.
  unfold add_ghosts. destruct pbc.
  - intros (c & _ & Hc)%bind_Ok.
    pose proof (ghosts_in_range step_atoms c) as Hr.
    destruct (ghosts step_atoms c) as [gh rn]. injection Hc as <- <-.
    by intros r [= <-].
  - by intros [= <- <-] r.
Qed.

(** What [_getbondfromcrd] returns, in terms of the bonds it keeps. *)
Lemma getbondfromcrd_spec oracle pbc step_atoms cell bond bondlevel :
  oracle_ids_from_one oracle →
  _getbondfromcrd oracle pbc step_atoms cell = Ok (bond, bondlevel) →
  ∃ realnumber all_atoms kept,
    add_ghosts pbc step_atoms cell = Ok (realnumber, all_atoms) ∧
    kept_bonds (Z.of_nat (length step_atoms)) realnumber
      (bond_records false (split_newline (oracle all_atoms))) = Ok kept ∧
    Forall (λ bd : Bond, in_range (length step_atoms) bd.1.1
                         ∧ in_range (length step_atoms) bd.1.2) kept ∧
    length bond = length step_atoms ∧ length bondlevel = length step_atoms ∧
    ∀ n, (n < length step_atoms)%nat →
      bond !! n = Some ((half_bonds (Z.of_nat n) kept).*1) ∧
      bondlevel !! n = Some ((half_bonds (Z.of_nat n) kept).*2).
Proof.
  intros Hids. unfold _getbondfromcrd.
  intros ([rn all_atoms] & Hadd & Hread)%bind_Ok.
  apply read_mol2_spec in Hread as (kept & ?); [|by eapply add_ghosts_in_range|done].
  by exists rn, all_atoms, kept.
Qed.

Lemma kept_bonds_elem N realnumber recs kept s :
  kept_bonds N realnumber recs = Ok kept → s ∈ recs →
  ∃ r, kept_bond N realnumber s = Ok r ∧ ∀ bd, r = Some bd → bd ∈ kept.
Proof.
  revert kept. induction recs as [|s' recs IH]; intros kept;
    [by intros _ ?%elem_of_nil|].
  cbn [kept_bonds]. intros (r & Hr & Hk)%bind_Ok.
  apply bind_Ok in Hk as (rest & Hrest & [= <-]).
  intros [->|Hs]%elem_of_cons.
  - exists r. split; [done|]. intros bd ->. by left.
  - destruct (IH _ Hrest Hs) as (r' & Hr' & Hin). exists r'. split; [done|].
    intros bd Hbd. destruct r; [right|]; by apply Hin.
Qed.

Lemma elem_of_half_bonds n kept b o :
  (b, o) ∈ half_bonds n kept ↔
  (n, b, o) ∈ kept ∨ (b, n, o) ∈ kept.
Proof.
  unfold half_bonds. rewrite list_elem_of_bind. split.
  - intros ([[x y] o'] & Hin & Hk). apply elem_of_app in Hin as [Hin|Hin];
      case_decide; try (by apply elem_of_nil in Hin);
      apply list_elem_of_singleton in Hin; simplify_eq; auto.
  - intros [Hk|Hk]; eexists; (split; [|exact Hk]); apply elem_of_app;
      [left|right]; rewrite decide_True by done; by left.
Qed.

Section rows.
Context (N : nat) (kept : list Bond) (bond bondlevel : list (list Z)).
Hypothesis kept_in_range :
  Forall (λ bd : Bond, in_range N bd.1.1 ∧ in_range N bd.1.2) kept.
Hypothesis length_bond : length bond = N.
Hypothesis rows_spec : ∀ n, (n < N)%nat →
  bond !! n = Some ((half_bonds (Z.of_nat n) kept).*1) ∧
  bondlevel !! n = Some ((half_bonds (Z.of_nat n) kept).*2).

Lemma recorded_iff a b o :
  recorded bond bondlevel a b o ↔
  in_range N a ∧ ((a, b, o) ∈ kept ∨ (b, a, o) ∈ kept).
Proof.
  rewrite <- elem_of_half_bonds. unfold recorded, in_range. split.
  - intros (Ha & row & lrow & Hrow & Hlrow & Hin).
    assert (Z.to_nat a < N)%nat as Hlt
      by (rewrite <- length_bond; by eapply lookup_lt_Some).
    destruct (rows_spec _ Hlt) as [Hr Hl]. rewrite Z2Nat.id in Hr, Hl by done.
    rewrite Hr in Hrow. rewrite Hl in Hlrow.
    injection Hrow as <-. injection Hlrow as <-.
    rewrite zip_fst_snd in Hin. split; [lia|done].
  - intros [Ha Hin]. split; [lia|].
    destruct (rows_spec (Z.to_nat a)) as [Hr Hl]; [lia|].
    rewrite Z2Nat.id in Hr, Hl by lia.
    eexists _, _. split_and!; [done..|]. by rewrite zip_fst_snd.
Qed.

Lemma kept_recorded a b o :
  (a, b, o) ∈ kept →
  recorded bond bondlevel a b o ∧ recorded bond bondlevel b a o.
Proof.
  intros Hin. rewrite Forall_forall in kept_in_range.
  destruct (kept_in_range _ Hin) as [Ha Hb]. simpl in Ha, Hb.
  rewrite !recorded_iff. auto.
Qed.

Lemma recorded_sym a b o :
  recorded bond bondlevel a b o → recorded bond bondlevel b a o.
Proof.
  rewrite recorded_iff. intros [_ [Hin|Hin]]; by apply kept_recorded in Hin as [? ?].
Qed.
End rows.

(** C7.  The BondGraph that [_getbondfromcrd] returns, for an oracle that
    numbers atoms from 1, is symmetric: whenever [b] is recorded with order
    [o] among the neighbours of [a], [a] is recorded with order [o] among
    the neighbours of [b]; and the neighbour list and the bond-order list of
    every atom have the same length. *)
Theorem getbondfromcrd_symmetric (oracle : list Atom → string) (pbc : bool)
    (step_atoms : list Atom) (cell : list Q) (bond bondlevel : list (list Z)) :
  oracle_ids_from_one oracle →
  _getbondfromcrd oracle pbc step_atoms cell = Ok (bond, bondlevel) →
  (∀ a b o, recorded bond bondlevel a b o → recorded bond bondlevel b a o) ∧
  length bond = length step_atoms ∧
  Forall2 (λ row lrow : list Z, length row = length lrow) bond bondlevel.
Proof.
  intros Hids Hrun.
  apply getbondfromcrd_spec in Hrun
    as (rn & all_atoms & kept & _ & _ & Hall & Hb & Hl & Hrows); [|done].
  split_and!; [|done|].
  - intros a b o. by eapply recorded_sym.
  - apply Forall2_same_length_lookup. split; [congruence|].
    intros n row lrow Hrow Hlrow.
    destruct (Hrows n) as [Hr Hlr]; [rewrite <- Hb; by eapply lookup_lt_Some|].
    rewrite Hr in Hrow. rewrite Hlr in Hlrow.
    injection Hrow as <-. injection Hlrow as <-. by rewrite !length_fmap.
Qed.

Lemma getbondfromcrd_symmetric_witness :
  (∀ a b o, recorded [[1; 1]; [0; 0]] [[12; 2]; [12; 2]] a b o →
            recorded [[1; 1]; [0; 0]] [[12; 2]; [12; 2]] b a o) ∧
  length [[1; 1]; [0; 0]] = length example_atoms ∧
  Forall2 (λ row lrow : list Z, length row = length lrow)
    [[1; 1]; [0; 0]] [[12; 2]; [12; 2]].
Proof.
  apply (getbondfromcrd_symmetric example_oracle true example_atoms example_cell).
  - intros atoms. reflexivity.
  - reflexivity.
Defined.

Lemma bond_level_cases t o :
  bond_level t = Ok o →
  (t = "ar" → o = 12) ∧ (t = "am" → o = 1) ∧
  (t ≠ "ar" → t ≠ "am" → py_int t = Ok o).
Proof.
  unfold bond_level.
  destruct (String.eqb_spec t "ar") as [->|Har]; [by intros [= <-]|].
  destruct (String.eqb_spec t "am") as [->|Ham]; [by intros [= <-]|].
  by intros Hint.
Qed.

Lemma kept_bond_level N realnumber s a b o :
  kept_bond N realnumber s = Ok (Some (a, b, o)) →
  ∃ t, getitem s 3 = Ok t ∧ bond_level t = Ok o.
Proof.
  unfold kept_bond.
  intros (i1 & _ & H)%bind_Ok. apply bind_Ok in H as (n1 & _ & H).
  apply bind_Ok in H as (i2 & _ & H). apply bind_Ok in H as (n2 & _ & H).
  apply bind_Ok in H as ([[s1 s2]|] & _ & H); [|done].
  apply bind_Ok in H as (t & Ht & H). apply bind_Ok in H as (o' & Ho & [= _ _ <-]).
  by exists t.
Qed.

(** A record that is not between two images is kept, as a bond of the two
    real atoms with the order of its type field. *)
Lemma kept_bond_kept N realnumber s n1 n2 r :
  record_ids s = Ok (n1, n2) → ¬ (N < n1 ∧ N < n2) →
  kept_bond N realnumber s = Ok r →
  ∃ a b t o, r = Some (a, b, o) ∧
             real_atom N realnumber n1 = Some a ∧
             real_atom N realnumber n2 = Some b ∧
             getitem s 3 = Ok t ∧ bond_level t = Ok o.
Proof.
  unfold record_ids, kept_bond.
  intros (i1 & Hi1 & H)%bind_Ok Himg. apply bind_Ok in H as (m1 & Hm1 & H).
  apply bind_Ok in H as (i2 & Hi2 & H). apply bind_Ok in H as (m2 & Hm2 & [= <- <-]).
  ok_step Hi1. ok_step Hm1. ok_step Hi2. ok_step Hm2.
  intros (ends & Hends & H)%bind_Ok. unfold endpoints in Hends. unfold real_atom.
  destruct (decide (N ≤ m1 - 1)) as [H1|H1]; destruct (decide (N ≤ m2 - 1)) as [H2|H2].
  - lia.
  - rewrite (bool_decide_true _ H1), (bool_decide_false _ H2) in Hends.
    cbn [andb] in Hends. apply bind_Ok in Hends as (x & Hx & [= <-]).
    apply bind_Ok in H as (t & Ht & H). apply bind_Ok in H as (o & Ho & [= <-]).
    exists x, (m2 - 1), t, o.
    rewrite (bool_decide_false (m1 ≤ N)), (bool_decide_true (m2 ≤ N)) by lia.
    split_and!; try done. unfold realnumber_at in Hx.
    destruct realnumber as [rn|]; [|done]. cbn.
    by destruct (rn !! Z.to_nat (m1 - 1 - N)) as [y|]; [injection Hx as <-|].
  - rewrite (bool_decide_false _ H1), (bool_decide_true _ H2) in Hends.
    cbn [andb] in Hends. apply bind_Ok in Hends as (x & Hx & [= <-]).
    apply bind_Ok in H as (t & Ht & H). apply bind_Ok in H as (o & Ho & [= <-]).
    exists (m1 - 1), x, t, o.
    rewrite (bool_decide_true (m1 ≤ N)), (bool_decide_false (m2 ≤ N)) by lia.
    split_and!; try done. unfold realnumber_at in Hx.
    destruct realnumber as [rn|]; [|done]. cbn.
    by destruct (rn !! Z.to_nat (m2 - 1 - N)) as [y|]; [injection Hx as <-|].
  - rewrite (bool_decide_false _ H1), (bool_decide_false _ H2) in Hends.
    cbn [andb] in Hends. injection Hends as <-.
    apply bind_Ok in H as (t & Ht & H). apply bind_Ok in H as (o & Ho & [= <-]).
    exists (m1 - 1), (m2 - 1), t, o.
    rewrite (bool_decide_true (m1 ≤ N)), (bool_decide_true (m2 ≤ N)) by lia. done.
Qed.

(** C6.  In the coordinate path every bond record of the oracle's text
    that is not between two images is recorded, between the real atoms of
    its two atom numbers and in the rows of both, with order 12 when its
    type field is [ar], with order 1 when it is [am], and with the integer
    value of the field in every other case. *)
Theorem getbondfromcrd_bond_level (oracle : list Atom → string) (pbc : bool)
    (step_atoms : list Atom) (cell : list Q) (bond bondlevel : list (list Z)) :
  oracle_ids_from_one oracle →
  _getbondfromcrd oracle pbc step_atoms cell = Ok (bond, bondlevel) →
  let N := Z.of_nat (length step_atoms) in
  ∃ realnumber all_atoms,
    add_ghosts pbc step_atoms cell = Ok (realnumber, all_atoms) ∧
    ∀ s n1 n2, s ∈ bond_records false (split_newline (oracle all_atoms)) →
      record_ids s = Ok (n1, n2) → ¬ (N < n1 ∧ N < n2) →
      ∃ a b t o,
        real_atom N realnumber n1 = Some a ∧ real_atom N realnumber n2 = Some b ∧
        getitem s 3 = Ok t ∧
        (t = "ar" → o = 12) ∧ (t = "am" → o = 1) ∧
        (t ≠ "ar" → t ≠ "am" → py_int t = Ok o) ∧
        recorded bond bondlevel a b o ∧ recorded bond bondlevel b a o.
Proof.
  intros Hids Hrun N.
  apply getbondfromcrd_spec in Hrun
    as (rn & all_atoms & kept & Hadd & Hkept & Hall & Hb & Hl & Hrows); [|done].
  exists rn, all_atoms. split; [done|]. intros s n1 n2 Hs Hrec Himg.
  destruct (kept_bonds_elem _ _ _ _ _ Hkept Hs) as (r & Hr & Hin).
  destruct (kept_bond_kept _ _ _ _ _ _ Hrec Himg Hr)
    as (a & b & t & o & -> & Ha & Hb' & Ht & Ho).
  apply bond_level_cases in Ho as (? & ? & ?).
  destruct (kept_recorded _ _ _ _ Hall Hb Hrows a b o) as [? ?]; [by apply Hin|].
  exists a, b, t, o. by split_and!.
Qed.

(** The three bonds of [example_mol2_types]: the aromatic bond of the atoms
    1 and 3, the amide bond of the atoms 1 and 2 and the double bond of
    the atoms 2 and 3 are recorded with the orders 12, 1 and 2. *)
Lemma getbondfromcrd_bond_level_witness :
  let N := Z.of_nat (length example_three_atoms) in
  ∃ realnumber all_atoms,
    add_ghosts false example_three_atoms [] = Ok (realnumber, all_atoms) ∧
    ∀ s n1 n2,
      s ∈ bond_records false (split_newline ((λ _, example_mol2_types) all_atoms)) →
      record_ids s = Ok (n1, n2) → ¬ (N < n1 ∧ N < n2) →
      ∃ a b t o,
        real_atom N realnumber n1 = Some a ∧ real_atom N realnumber n2 = Some b ∧
        getitem s 3 = Ok t ∧
        (t = "ar" → o = 12) ∧ (t = "am" → o = 1) ∧
        (t ≠ "ar" → t ≠ "am" → py_int t = Ok o) ∧
        recorded [[2; 1]; [0; 2]; [0; 1]] [[12; 1]; [1; 2]; [12; 2]] a b o ∧
        recorded [[2; 1]; [0; 2]; [0; 1]] [[12; 1]; [1; 2]; [12; 2]] b a o.
Proof.
  apply (getbondfromcrd_bond_level (λ _, example_mol2_types) false
           example_three_atoms []).
  - intros atoms. reflexivity.
  - reflexivity.
Defined.

(** ** The periodic images *)















(** ** Sorting by a key *)

Lemma insert_by_perm {A} (key : A → Z) x l : insert_by key x l ≡ₚ x :: l.
Proof.
  induction l as [|y l IH]; simpl; [done|].
  case_bool_decide; [done|]. rewrite IH. apply Permutation_swap.
Qed.

Lemma sorted_by_perm {A} (key : A → Z) l : sorted_by key l ≡ₚ l.
Proof.
  induction l as [|x l IH]; simpl; [done|].
  by rewrite insert_by_perm, IH.
Qed.

Lemma insert_by_sorted {A} (key : A → Z) x l :
  StronglySorted (key_le key) l → StronglySorted (key_le key) (insert_by key x l).
Proof.
  induction 1 as [|y l Hl IH Hy]; simpl.
  - repeat constructor.
  - case_bool_decide as Hxy.
    + constructor; [by constructor|]. constructor; [done|].
      eapply Forall_impl; [done|]. unfold key_le. intros z ?. lia.
    + constructor; [done|]. rewrite insert_by_perm. constructor; [|done].
      unfold key_le. lia.
Qed.

Lemma sorted_by_sorted {A} (key : A → Z) l :
  StronglySorted (key_le key) (sorted_by key l).
Proof.
  induction l as [|x l IH]; simpl; [constructor|]. by apply insert_by_sorted.
Qed.

Lemma NoDup_fmap_eq {A} (key : A → Z) l x y :
  NoDup (key <$> l) → x ∈ l → y ∈ l → key x = key y → x = y.
Proof.
  induction l as [|z l IH]; [by intros _ ?%elem_of_nil|].
  rewrite fmap_cons, NoDup_cons. intros [Hz Hnd].
  intros [->|Hx]%elem_of_cons [->|Hy]%elem_of_cons Heq; auto.
  - destruct Hz. rewrite Heq. by apply list_elem_of_fmap_2.
  - destruct Hz. rewrite <- Heq. by apply list_elem_of_fmap_2.
Qed.

(** Lists with pairwise distinct keys have one sorted arrangement. *)
Lemma sorted_by_unique {A} (key : A → Z) l1 l2 :
  NoDup (key <$> l1) → l1 ≡ₚ l2 →
  StronglySorted (key_le key) l1 → StronglySorted (key_le key) l2 → l1 = l2.
Proof.
  intros Hnd Hperm H1 H2. apply (StronglySorted_unique_strong (key_le key)); try done.
  unfold key_le. intros x1 x2 Hx1 Hx2 ? ?.
  apply (NoDup_fmap_eq key l1); [done|done|by rewrite Hperm|lia].
Qed.

Lemma sorted_by_permutation {A} (key : A → Z) l1 l2 :
  NoDup (key <$> l1) → l1 ≡ₚ l2 → sorted_by key l1 = sorted_by key l2.
Proof.
  intros Hnd Hperm. apply (sorted_by_unique key).
  - by rewrite sorted_by_perm.
  - by rewrite !sorted_by_perm.
  - apply sorted_by_sorted.
  - apply sorted_by_sorted.
Qed.

Lemma sorted_by_id {A} (key : A → Z) l l' :
  StronglySorted (λ x y, key x < key y) l → l' ≡ₚ l → sorted_by key l' = l.
Proof.
  intros Hlt Hperm.
  assert (NoDup (key <$> l) ∧ StronglySorted (key_le key) l) as [Hnd Hle].
  { clear Hperm.
    induction Hlt as [|x l Hl [IH1 IH2] Hx]; [split; [apply NoDup_nil_2|constructor]|].
    rewrite Forall_forall in Hx. split.
    - rewrite fmap_cons. constructor; [|done].
      intros (y & Hy & Hin)%list_elem_of_fmap. apply Hx in Hin. lia.
    - constructor; [done|]. apply Forall_forall. intros y Hy%Hx.
      unfold key_le. lia. }
  symmetry. apply (sorted_by_unique key); [done|by rewrite sorted_by_perm| |];
    [done|apply sorted_by_sorted].
Qed.

(** ** The work items and their results *)

Lemma seqZ_strictly_sorted start len : StronglySorted Z.lt (seqZ start len).
Proof.
  destruct (decide (0 ≤ len)) as [Hlen|Hlen].
  2:{ rewrite seqZ_nil by lia. constructor. }
  revert start. pattern len. apply natlike_ind; [| |done].
  - intros start. constructor.
  - clear len Hlen. intros len Hlen IH start.
    rewrite seqZ_cons by lia. replace (Z.pred (Z.succ len)) with len by lia.
    constructor; [apply IH|]. apply Forall_forall.
    intros x Hx%elem_of_seqZ. lia.
Qed.

Lemma enumerate_fst {A} (l : list A) :
  (enumerate l).*1 = seqZ 0 (Z.of_nat (length l)).
Proof. unfold enumerate. apply fst_zip. rewrite length_seqZ. lia. Qed.

Lemma StronglySorted_fmap_inv {A B} (R : relation B) (f : A → B) (l : list A) :
  StronglySorted R (f <$> l) → StronglySorted (λ x y, R (f x) (f y)) l.
Proof.
  induction l as [|x l IH]; [constructor|]. rewrite fmap_cons.
  intros [Hall Hl]%StronglySorted_cons. constructor; [by apply IH|].
  rewrite Forall_forall in Hall. apply Forall_forall. intros y Hy.
  by apply Hall, list_elem_of_fmap_2.
Qed.

Lemma StronglySorted_filter {A} (R : relation A) (P : A → Prop)
    `{!∀ x, Decision (P x)} (l : list A) :
  StronglySorted R l → StronglySorted R (filter P l).
Proof.
  induction 1 as [|x l Hl IH Hx]; [constructor|].
  destruct (decide (P x)).
  - rewrite filter_cons_True by done. constructor; [done|].
    rewrite Forall_forall in Hx. apply Forall_forall.
    intros y [_ Hy]%list_elem_of_filter. by apply Hx.
  - by rewrite filter_cons_False.
Qed.

Lemma sample_sorted {A} interval (l : list A) :
  StronglySorted (λ x y : Z * A, x.1 < y.1) (sample interval (enumerate l)).
Proof.
  assert (StronglySorted (λ x y : Z * A, x.1 < y.1) (enumerate l)) as Hl.
  { apply (StronglySorted_fmap_inv Z.lt fst). rewrite enumerate_fst.
    apply seqZ_strictly_sorted. }
  destruct interval; [done|]. by apply StronglySorted_filter.
Qed.

(** Whatever the order in which the workers finish, [run_mp] yields the
    results of the work items in the order of their step indices. *)
Lemma run_mp_results {R} finish (func : Z * list string → result R) l nlines interval :
  results (run_mp finish func l nlines interval)
  = (λ it, (it.1, func it)) <$> calls (run_mp finish func l nlines interval).
Proof.
  unfold run_mp. cbn [results calls]. apply sorted_by_id.
  - pose proof (sample_sorted interval (blocks nlines l)) as Hs.
    unfold work_items. induction Hs as [|x items Hl IH Hx]; [constructor|].
    rewrite fmap_cons. constructor; [done|]. by apply Forall_fmap.
  - apply sorted_by_perm.
Qed.

Lemma readinputfile_unfold fmt finish self f self' steplinenum :
  _readNfunc fmt self f = Ok (self', steplinenum) →
  let items := work_items f (Z.to_nat steplinenum) (stepinterval self') in
  _readinputfile fmt finish self f
  = mkRun items.*1
      ('(d, timestep) ← for_each merge_result
                          ((λ it, (it.1, _readstepfunc fmt self' it)) <$> items)
                          ([], ∅) ;
       Ok (mkTimeline d timestep (length d) (size timestep))).
Proof.
  intros HN. unfold _readinputfile. rewrite HN. by rewrite run_mp_results.
Qed.

Lemma chunks_blocks nlines n : ∀ fuel l,
  (0 < nlines)%nat → length l = (n * nlines)%nat → (n ≤ fuel)%nat →
  chunks fuel nlines l = (λ i, take nlines (drop (i * nlines) l)) <$> seq 0 n.
Proof.
  induction n as [|n IH]; intros fuel l Hpos Hlen Hfuel.
  - destruct l; [|done]. by destruct fuel.
  - destruct fuel as [|fuel]; [lia|]. destruct l as [|x l]; [simpl in Hlen; lia|].
    cbn [chunks seq fmap list_fmap]. f_equal.
    change (list_fmap _ _ ?f ?l) with (f <$> l).
    rewrite (IH fuel (drop nlines (x :: l))); [|done| |lia].
    + rewrite <- fmap_S_seq, <- list_fmap_compose. apply list_fmap_ext.
      intros i j _. cbn. rewrite drop_drop. do 2 f_equal; lia.
    + rewrite length_drop, Hlen. lia.
Qed.

Lemma filter_fmap {A B} (P : B → Prop) `{!∀ y, Decision (P y)} (g : A → B)
    (l : list A) :
  filter P (g <$> l) = g <$> filter (λ x, P (g x)) l.
Proof.
  induction l as [|x l IH]; [done|]. rewrite fmap_cons. destruct (decide (P (g x))).
  - rewrite !filter_cons_True by done. by rewrite fmap_cons, IH.
  - by rewrite !filter_cons_False.
Qed.

(** The work items of a file made of [n] blocks: the blocks whose step
    index is a multiple of the interval, each with its index. *)
Lemma work_items_blocks l nlines K n :
  (0 < nlines)%nat → (0 < K)%nat → length l = (n * nlines)%nat →
  work_items l nlines K = (λ i, (i, block_at l nlines i)) <$> sampled_steps K n.
Proof.
  intros Hpos HK Hlen. unfold work_items, blocks.
  destruct nlines as [|m]; [lia|]. set (nlines := S m) in *.
  rewrite (chunks_blocks nlines n); [|done..|rewrite Hlen; nia].
  unfold enumerate. rewrite length_fmap, length_seq. unfold seqZ.
  rewrite Nat2Z.id, zip_with_fmap_l, zip_with_fmap_r, zip_with_diag.
  unfold sample. destruct K as [|k]; [lia|]. unfold sampled_steps, seqZ.
  rewrite Nat2Z.id. rewrite (filter_fmap _ (λ i : nat, Z.of_nat i + 0)).
  rewrite (filter_fmap (λ it : Z * list string, it.1 `mod` Z.of_nat (S k) = 0)).
  rewrite <- list_fmap_compose. apply list_fmap_ext. intros i j _. cbn.
  unfold block_at. by rewrite Z.add_0_r, Nat2Z.id.
Qed.

(** C9.  With a step interval [K > 0], of the [n] timestep blocks of the
    input the run hands to the workers exactly those whose step index is a
    multiple of [K], each with its own lines; the timestep reader, which
    both parses a block into a BondGraph and extracts its molecules, is
    applied to these work items and to no other block, so that the lines of
    the skipped blocks, which are never parsed, have no effect on the run:
    a file that differs in them only gives the same run. *)
Theorem step_interval_sampling (fmt : Format) (finish : Z → Z) (self : Detect)
    (f : list string) (self' : Detect) (steplinenum : Z) (n : nat) :
  _readNfunc fmt self f = Ok (self', steplinenum) →
  (0 < Z.to_nat steplinenum)%nat → (0 < stepinterval self')%nat →
  length f = (n * Z.to_nat steplinenum)%nat →
  let nlines := Z.to_nat steplinenum in
  let K := stepinterval self' in
  let p := run_mp finish (_readstepfunc fmt self') f nlines K in
  calls p = (λ i, (i, block_at f nlines i)) <$> sampled_steps K n ∧
  results p = (λ it, (it.1, _readstepfunc fmt self' it)) <$> calls p ∧
  dispatched (_readinputfile fmt finish self f) = sampled_steps K n ∧
  ∀ f', _readNfunc fmt self f' = Ok (self', steplinenum) →
        length f' = length f →
        (∀ i, i ∈ sampled_steps K n → block_at f' nlines i = block_at f nlines i) →
        _readinputfile fmt finish self f' = _readinputfile fmt finish self f.
Proof.
  intros HN Hpos HK Hlen nlines K p.
  assert (work_items f nlines K
          = (λ i, (i, block_at f nlines i)) <$> sampled_steps K n) as Hitems
    by (by apply work_items_blocks).
  split_and!.
  - exact Hitems.
  - apply run_mp_results.
  - rewrite (readinputfile_unfold _ _ _ _ _ _ HN). cbn [dispatched].
    fold nlines K. rewrite Hitems, <- list_fmap_compose. apply list_fmap_id.
  - intros f' HN' Hlen' Hsame.
    rewrite (readinputfile_unfold _ _ _ _ _ _ HN), (readinputfile_unfold _ _ _ _ _ _ HN').
    fold nlines K. rewrite Hitems.
    rewrite (work_items_blocks f' nlines K n); [|done|done|by rewrite Hlen'].
    assert ((λ i, (i, block_at f' nlines i)) <$> sampled_steps K n
            = (λ i, (i, block_at f nlines i)) <$> sampled_steps K n) as ->; [|done].
    apply list_fmap_ext. intros j i Hi. rewrite Hsame; [done|].
    by eapply list_elem_of_lookup_2.
Qed.

(** The file [example_bondfile] with the lines of its last block, which
    the interval 2 skips, replaced by lines that no scan could read. *)
Lemma step_interval_sampling_witness :
  dispatched (_readinputfile _DetectLAMMPSbond Z.opp example_self example_bondfile)
  = [0; 2] ∧
  _readinputfile _DetectLAMMPSbond Z.opp example_self
    (take 24 example_bondfile ++ replicate 8 "not a line of a bond file")
  = _readinputfile _DetectLAMMPSbond Z.opp example_self example_bondfile.
Proof.
  destruct (step_interval_sampling _DetectLAMMPSbond Z.opp example_self
              example_bondfile example_self_scanned 8 4)
    as (_ & _ & Hd & Hsame).
  - reflexivity.
  - vm_compute. lia.
  - vm_compute. lia.
  - reflexivity.
  - split; [exact Hd|]. apply Hsame.
    + vm_compute. reflexivity.
    + reflexivity.
    + intros i Hi. apply list_elem_of_In in Hi.
      destruct Hi as [<-|[<-|[]]]; reflexivity.
Defined.

(** ** The merge loop of [_readinputfile] *)

Lemma appended_app o l1 l2 : appended (appended o l1) l2 = appended o (l1 ++ l2).
Proof.
  destruct l1 as [|x l1]; [done|]. destruct l2 as [|y l2].
  - by rewrite app_nil_r.
  - unfold appended. simpl. rewrite <- app_assoc. reflexivity.
Qed.

Lemma dict_append_keys d molecule s :
  (dict_append d molecule s).*1
  = if decide (molecule ∈ d.*1) then d.*1 else d.*1 ++ [molecule].
Proof.
  induction d as [|[k steps] d IH]; [done|]. cbn [dict_append fmap list_fmap fst].
  destruct (decide (k = molecule)) as [->|Hne].
  - rewrite decide_True by left. done.
  - cbn [fmap list_fmap fst]. change (list_fmap _ _ fst ?l) with (l.*1). rewrite IH.
    destruct (decide (molecule ∈ d.*1)) as [Hin|Hin].
    + rewrite decide_True by (by right). done.
    + rewrite decide_False; [done|]. intros [?|?]%elem_of_cons; congruence.
Qed.

Lemma dict_append_NoDup d molecule s :
  NoDup d.*1 → NoDup (dict_append d molecule s).*1.
Proof.
  intros Hd. rewrite dict_append_keys. case_decide; [done|].
  apply NoDup_app. split_and!; [done| |apply NoDup_singleton].
  intros x Hx ->%list_elem_of_singleton. done.
Qed.

Lemma dict_get_append d molecule s k :
  dict_get (dict_append d molecule s) k
  = if decide (molecule = k) then Some (default [] (dict_get d k) ++ [s])
    else dict_get d k.
Proof.
  induction d as [|[k' steps] d IH]; cbn [dict_append dict_get].
  - by destruct (decide (molecule = k)).
  - destruct (decide (k' = molecule)) as [->|Hne]; cbn [dict_get].
    + by destruct (decide (molecule = k)).
    + rewrite IH. destruct (decide (k' = k)) as [->|?]; [by rewrite decide_False|done].
Qed.

Lemma dict_get_foldl molecules d s k :
  dict_get (foldl (λ d molecule, dict_append d molecule s) d molecules) k
  = appended (dict_get d k) ((λ _, s) <$> filter (λ m, m = k) molecules).
Proof.
  revert d. induction molecules as [|m ms IH]; intros d; cbn [foldl]; [done|].
  rewrite IH, dict_get_append. destruct (decide (m = k)) as [->|Hne].
  - rewrite filter_cons_True by done. rewrite fmap_cons.
    etrans; [|apply (appended_app (dict_get d k) [s])]. done.
  - by rewrite filter_cons_False.
Qed.

Lemma foldl_dict_append_NoDup molecules d s :
  NoDup d.*1 → NoDup (foldl (λ d molecule, dict_append d molecule s) d molecules).*1.
Proof.
  revert d. induction molecules as [|m ms IH]; intros d Hd; cbn [foldl]; [done|].
  by apply IH, dict_append_NoDup.
Qed.

Lemma timesteps_of_cons s i ms step t rs :
  timesteps_of s ((i, Ok (ms, (step, t))) :: rs)
  = (if decide (step = s) then [t] else []) ++ timesteps_of s rs.
Proof. reflexivity. Qed.

Lemma merge_loop_spec rs acc acc' :
  for_each merge_result rs acc = Ok acc' →
  (NoDup acc.1.*1 → NoDup acc'.1.*1)
  ∧ (∀ k, dict_get acc'.1 k = appended (dict_get acc.1 k) (steps_of k rs))
  ∧ (∀ s, acc'.2 !! s = from_option Some (acc.2 !! s) (last (timesteps_of s rs))).
Proof.
  revert acc. induction rs as [|[i r] rs IH]; intros acc; cbn [for_each].
  - intros [= <-]. done.
  - intros (acc1 & Hm & Hrest)%bind_Ok. unfold merge_result in Hm. cbn [snd] in Hm.
    destruct r as [[ms [s t]]|e]; [|done]. cbn [mbind result_bind] in Hm.
    injection Hm as <-. destruct (IH _ Hrest) as (Hnd & Hget & Hts).
    cbn [fst snd] in *. split_and!.
    + intros Hd. by apply Hnd, foldl_dict_append_NoDup.
    + intros k. rewrite Hget, dict_get_foldl, appended_app. done.
    + intros s'. rewrite Hts, (timesteps_of_cons s' i ms s t rs).
      destruct (decide (s = s')) as [->|Hne].
      * rewrite lookup_insert_eq. cbn [app]. rewrite last_cons.
        by destruct (last (timesteps_of s' rs)).
      * by rewrite lookup_insert_ne.
Qed.






(** ** The bond orders of the bond file *)

Lemma map_result_Forall2 {A B} (f : A → result B) l r :
  map_result f l = Ok r → Forall2 (λ x y, f x = Ok y) l r.
Proof.
  revert r. induction l as [|x l IH]; intros r; simpl.
  - intros [= <-]. constructor.
  - intros (y & Hy & H)%bind_Ok. apply bind_Ok in H as (ys & Hys & [= <-]).
    constructor; [done|]. by apply IH.
Qed.

Lemma digit_char_value d :
  (d < 10)%nat → digit_value (digit_char d) = Some (Z.of_nat d).
Proof. intros Hd. do 10 (destruct d as [|d]; [reflexivity|]). lia. Qed.

Lemma digit_neq c x :
  is_Some (digit_value c) → digit_value x = None → Ascii.eqb c x = false.
Proof.
  intros [v Hv] Hx. destruct (Ascii.eqb_spec c x) as [->|]; [congruence|done].
Qed.

Lemma append_empty_r s : (s +:+ EmptyString)%string = s.
Proof.
  induction s as [|c s IH]; [done|].
  change (String c (s +:+ EmptyString) = String c s). by rewrite IH.
Qed.

Lemma cut_at_digits c1 c2 ds rest :
  digit_value c1 = None → digit_value c2 = None → Forall (λ d, d < 10)%nat ds →
  cut_at c1 c2 (digits_string ds +:+ rest)
  = ((digits_string ds +:+ (cut_at c1 c2 rest).1)%string, (cut_at c1 c2 rest).2).
Proof.
  intros H1 H2. induction 1 as [|d ds Hd Hds IH].
  - change (cut_at c1 c2 rest = ((cut_at c1 c2 rest).1, (cut_at c1 c2 rest).2)).
    by destruct (cut_at c1 c2 rest).
  - change (cut_at c1 c2 (String (digit_char d) (digits_string ds +:+ rest))
            = (String (digit_char d) (digits_string ds +:+ (cut_at c1 c2 rest).1),
               (cut_at c1 c2 rest).2)).
    cbn [cut_at]. rewrite !digit_neq by (by rewrite ?digit_char_value).
    cbn [orb]. by rewrite IH.
Qed.

Lemma digits_value_digits ds : ∀ acc b,
  Forall (λ d, d < 10)%nat ds → ds ≠ [] ∨ b = true →
  digits_value (digits_string ds) acc b
  = Some (foldl (λ acc d, 10 * acc + Z.of_nat d) acc ds).
Proof.
  induction ds as [|d ds IH]; intros acc b Hds Hb; cbn [digits_string foldr digits_value foldl].
  - destruct Hb as [?| ->]; done.
  - apply Forall_cons in Hds as [Hd Hds]. fold (digits_string ds).
    rewrite (digit_char_value d Hd). apply IH; [done|by right].
Qed.

Lemma digits_or_zero_digits ds :
  Forall (λ d, d < 10)%nat ds →
  digits_or_zero (digits_string ds) = Some (digits_number ds).
Proof.
  intros Hds. destruct ds as [|d ds]; [done|].
  unfold digits_or_zero, digits_number. rewrite <- (digits_value_digits (d :: ds) 0 false);
    [done|done|by left].
Qed.

Lemma digit_count_digits ds :
  Forall (λ d, d < 10)%nat ds → digit_count (digits_string ds) = length ds.
Proof.
  induction 1 as [|d ds Hd Hds IH]; [done|].
  cbn [digits_string foldr digit_count length]. fold (digits_string ds).
  rewrite (digit_char_value d Hd). rewrite bool_decide_true by done. by rewrite IH.
Qed.

Lemma cut_at_digits_none c1 c2 ds :
  digit_value c1 = None → digit_value c2 = None → Forall (λ d, d < 10)%nat ds →
  cut_at c1 c2 (digits_string ds) = (digits_string ds, None).
Proof.
  intros H1 H2 Hds. rewrite <- (append_empty_r (digits_string ds)) at 1.
  rewrite cut_at_digits by done. cbn [cut_at fst snd]. by rewrite append_empty_r.
Qed.

(** The literal of a field spells its value. *)
Lemma decimal_decimal_field ip fp :
  Forall (λ d, d < 10)%nat ip → Forall (λ d, d < 10)%nat fp → ip ≠ [] ∨ fp ≠ [] →
  decimal (decimal_field ip fp) = Some (decimal_value ip fp).
Proof.
  intros Hip Hfp Hne.
  assert (cut_at "e" "E" (decimal_field ip fp) = (decimal_field ip fp, None)) as He.
  { unfold decimal_field. rewrite (cut_at_digits "e" "E" ip) by done.
    cbn [cut_at Ascii.eqb Bool.eqb orb]. by rewrite cut_at_digits_none. }
  assert (cut_at "." "." (decimal_field ip fp)
          = (digits_string ip, Some (digits_string fp))) as Hp.
  { unfold decimal_field. rewrite (cut_at_digits "." "." ip) by done.
    cbn [cut_at Ascii.eqb Bool.eqb orb fst snd]. by rewrite append_empty_r. }
  unfold decimal. rewrite He, Hp. cbv zeta. cbn [default from_option id].
  rewrite (digits_or_zero_digits ip Hip), (digits_or_zero_digits fp Hfp).
  rewrite (digit_count_digits fp Hfp).
  destruct ip as [|d ip]; [destruct fp as [|d fp]; [by destruct Hne|]|]; reflexivity.
Qed.

Lemma py_float64_decimal_field ip fp :
  Forall (λ d, d < 10)%nat ip → Forall (λ d, d < 10)%nat fp → ip ≠ [] ∨ fp ≠ [] →
  py_float64 (decimal_field ip fp) = Ok (binary64 (decimal_value ip fp)).
Proof.
  intros Hip Hfp Hne.
  assert (py_float64 (decimal_field ip fp)
          = match decimal (decimal_field ip fp) with
            | Some m => Ok (binary64 m)
            | None => Raise (ValueError ("could not convert string to float: '"
                                         +:+ decimal_field ip fp +:+ "'"))
            end) as ->.
  { unfold decimal_field. destruct Hip as [|d ip Hd Hip]; [reflexivity|].
    cbn [digits_string foldr String.append]. clear -Hd.
    do 10 (destruct d as [|d]; [reflexivity|]). lia. }
  by rewrite decimal_decimal_field.
Qed.
Lemma round_half_even_nearest v :
  (Qabs (inject_Z (round_half_even v) - v) <= 1 # 2)%Q.
Proof.
  unfold round_half_even. pose proof (Qfloor_le v) as Hlo. pose proof (Qlt_floor v) as Hhi.
  rewrite inject_Z_plus in Hhi. change (inject_Z 1) with 1%Q in Hhi.
  apply Qabs_Qle_condition.
  destruct (Qcompare_spec (v - inject_Z (Qfloor v)) (1 # 2)) as [Heq|Hlt|Hgt].
  - destruct (Z.even (Qfloor v)).
    + split; lra.
    + rewrite inject_Z_plus. change (inject_Z 1) with 1%Q. split; lra.
  - split; lra.
  - rewrite inject_Z_plus. change (inject_Z 1) with 1%Q. split; lra.
Qed.

Lemma round_half_even_comp x y : (x == y)%Q → round_half_even x = round_half_even y.
Proof.
  intros Hxy. unfold round_half_even. rewrite (Qfloor_comp _ _ Hxy).
  assert ((x - inject_Z (Qfloor y) ?= 1 # 2)%Q = (y - inject_Z (Qfloor y) ?= 1 # 2)%Q) as ->;
    [|done].
  apply Qcompare_comp; [by rewrite Hxy|done].
Qed.

(** The integer at a distance below one half is the rounded one. *)
Lemma round_half_even_unique x n :
  (Qabs (x - inject_Z n) < 1 # 2)%Q → round_half_even x = n.
Proof.
  intros [Hlo Hhi]%Qabs_Qlt_condition.
  pose proof (round_half_even_nearest x) as [Hlo' Hhi']%Qabs_Qle_condition.
  set (m := round_half_even x) in *.
  assert (inject_Z (m - n) < inject_Z 1)%Q as H1
    by (unfold Z.sub; rewrite inject_Z_plus, inject_Z_opp; change (inject_Z 1) with 1%Q; lra).
  assert (inject_Z (n - m) < inject_Z 1)%Q as H2
    by (unfold Z.sub; rewrite inject_Z_plus, inject_Z_opp; change (inject_Z 1) with 1%Q; lra).
  rewrite <- Zlt_Qlt in H1, H2. lia.
Qed.

Lemma Qlog2_le_31 q : (0 < q)%Q → (q < inject_Z (2 ^ 31))%Q → Qlog2 q ≤ 31.
Proof.
  intros Hpos Hlt. destruct q as [n d]. unfold Qlt in *. cbn in *.
  assert (Z.log2 n - Z.log2 (Z.pos d) ≤ 31) as Hk.
  { pose proof (Z.log2_spec (Z.pos d) eq_refl) as [_ Hd].
    assert (n < 2 ^ (Z.log2 (Z.pos d) + 32)) as Hn.
    { rewrite Z.pow_add_r by (pose proof (Z.log2_nonneg (Z.pos d)); lia).
      replace (Z.succ (Z.log2 (Z.pos d))) with (Z.log2 (Z.pos d) + 1) in Hd by lia.
      rewrite Z.pow_add_r in Hd by (pose proof (Z.log2_nonneg (Z.pos d)); lia).
      nia. }
    apply Z.log2_lt_pow2 in Hn; lia. }
  unfold Qlog2. cbn [Qnum Qden]. destruct (Qle_bool _ _); lia.
Qed.

Lemma Qabs_nonneg_eq q : (0 <= q)%Q → Qabs q = q.
Proof.
  destruct q as [n d]. unfold Qle. cbn. intros Hn. unfold Qabs.
  by rewrite Z.abs_eq by lia.
Qed.

(** The binary64 number of a small rational: it is finite, close to the
    rational, and the rational itself when that is a half-integer. *)
Lemma binary64_small q :
  (0 <= q)%Q → (q < inject_Z (2 ^ 31))%Q →
  ∃ x, binary64 q = Finite x ∧ (Qabs (x - q) <= 1 # 4194304)%Q ∧
       ∀ j, (q == inject_Z j / 2)%Q → (x == q)%Q.
Proof.
  intros Hq Hlt. unfold binary64.
  destruct (Qeq_bool q 0) eqn:Hz.
  { apply Qeq_bool_iff in Hz. exists 0%Q. split; [done|]. split.
    - apply Qabs_Qle_condition. split; lra.
    - intros j _. by rewrite Hz. }
  apply Qeq_bool_neq in Hz. assert (0 < q)%Q as Hpos by lra.
  rewrite (Qabs_nonneg_eq q Hq).
  pose proof (Qlog2_le_31 q Hpos Hlt) as Hlog.
  set (e := Z.max (-1074) (Qlog2 q - 52)). assert (-1074 ≤ e ≤ -21) as He by lia.
  rewrite (proj2 (Z.ltb_ge 971 e)) by lia.
  rewrite (proj2 (Z.eqb_neq e 971)) by lia. cbn [orb andb].
  rewrite (proj2 (Qle_bool_iff 0 q) Hq).
  set (p := (2 ^ e)%Q). set (m := round_half_even (q / p)).
  assert (0 < p)%Q as Hp by (by apply Qpower_0_lt).
  assert (p <= 1 # 2097152)%Q as Hp'.
  { change (1 # 2097152)%Q with (2 ^ (-21))%Q. apply Qpower_le_compat_l; [lia|lra]. }
  assert (q / p * p == q)%Q as Hqp by (field; lra).
  pose proof (round_half_even_nearest (q / p)) as [Hlo Hhi]%Qabs_Qle_condition.
  fold m in Hlo, Hhi. eexists. split; [done|]. split.
  - apply Qabs_Qle_condition. split; nra.
  - intros j Hj.
    assert (p == / inject_Z (2 ^ (- e)))%Q as Hpow.
    { unfold p. replace e with (- (- e)) at 1 by lia. rewrite Qpower_opp.
      apply Qinv_comp. symmetry. apply (Zpower_Qpower 2). lia. }
    assert (inject_Z (2 ^ (- e)) == 2 * inject_Z (2 ^ (- e - 1)))%Q as Hz2.
    { replace (- e) with (Z.succ (- e - 1)) at 1 by lia.
      rewrite Z.pow_succ_r by lia. by rewrite inject_Z_mult. }
    assert (0 < inject_Z (2 ^ (- e - 1)))%Q as Hz3.
    { change 0%Q with (inject_Z 0). rewrite <- Zlt_Qlt. apply Z.pow_pos_nonneg; lia. }
    assert (q / p == inject_Z (j * 2 ^ (- e - 1)))%Q as Hint.
    { rewrite Hj, Hpow, Hz2, inject_Z_mult. field. lra. }
    assert (m = j * 2 ^ (- e - 1)) as Hm.
    { unfold m. apply round_half_even_unique. rewrite Hint.
      apply Qabs_Qlt_condition. split; lra. }
    rewrite Hm, <- Hint. exact Hqp.
Qed.

Lemma digits_number_snoc ds d :
  digits_number (ds ++ [d]) = 10 * digits_number ds + Z.of_nat d.
Proof. unfold digits_number. by rewrite foldl_app. Qed.

Lemma digits_number_bound ds :
  Forall (λ d, d < 10)%nat ds → 0 ≤ digits_number ds < 10 ^ Z.of_nat (length ds).
Proof.
  induction ds as [|d ds IH] using rev_ind; [done|].
  intros [Hds [Hd _]%Forall_cons]%Forall_app.
  rewrite digits_number_snoc, length_app, Nat2Z.inj_add, Z.pow_add_r by lia.
  cbn [length]. change (10 ^ Z.of_nat 1) with 10. specialize (IH Hds). lia.
Qed.

(** The value of a field of at most nine digits and three decimals: a
    number of thousandths below [2 ^ 31]. *)
Lemma decimal_value_small ip fp :
  Forall (λ d, d < 10)%nat ip → Forall (λ d, d < 10)%nat fp →
  (length ip ≤ 9)%nat → (length fp ≤ 3)%nat →
  ∃ R, 0 ≤ R < 2 ^ 31 * 1000 ∧ (decimal_value ip fp == inject_Z R / 1000)%Q.
Proof.
  intros Hip Hfp Hlip Hlfp.
  pose proof (digits_number_bound ip Hip) as Hi.
  pose proof (digits_number_bound fp Hfp) as Hf.
  assert (10 ^ Z.of_nat (length ip) ≤ 10 ^ 9) as Hi'
    by (apply Z.pow_le_mono_r; lia).
  change (10 ^ 9) with 1000000000 in Hi'. unfold decimal_value.
  set (i := digits_number ip) in *. set (f := digits_number fp) in *.
  destruct fp as [|a [|b [|c [|? ?]]]]; cbn [length] in *; [| | | |lia].
  - exists (1000 * i + 1000 * f). split; [lia|].
    change (pow10 (- Z.of_nat 0)) with 1%Q.
    rewrite inject_Z_plus, !inject_Z_mult. field.
  - exists (1000 * i + 100 * f). change (10 ^ Z.of_nat 1) with 10 in Hf. split; [lia|].
    change (pow10 (- Z.of_nat 1)) with (/ 10)%Q.
    rewrite inject_Z_plus, !inject_Z_mult. field.
  - exists (1000 * i + 10 * f). change (10 ^ Z.of_nat 2) with 100 in Hf. split; [lia|].
    change (pow10 (- Z.of_nat 2)) with (/ 100)%Q.
    rewrite inject_Z_plus, !inject_Z_mult. field.
  - exists (1000 * i + f). change (10 ^ Z.of_nat 3) with 1000 in Hf. split; [lia|].
    change (pow10 (- Z.of_nat 3)) with (/ 1000)%Q.
    rewrite inject_Z_plus, !inject_Z_mult. field.
Qed.

(** For a number of thousandths below [2 ^ 31], rounding the binary64
    number gives the integer nearest to the number itself. *)
Lemma round_binary64_thousandths q R :
  0 ≤ R < 2 ^ 31 * 1000 → (q == inject_Z R / 1000)%Q →
  py_round (binary64 q) = Ok (round_half_even q).
Proof.
  intros HR Hq.
  assert (0 <= q)%Q as Hpos.
  { rewrite Hq. apply Qle_shift_div_l; [lra|]. rewrite Qmult_0_l.
    change 0%Q with (inject_Z 0). rewrite <- Zle_Qle. lia. }
  assert (q < inject_Z (2 ^ 31))%Q as Hlt.
  { rewrite Hq. apply Qlt_shift_div_r; [lra|].
    change 1000%Q with (inject_Z 1000). rewrite <- inject_Z_mult, <- Zlt_Qlt. lia. }
  destruct (binary64_small q Hpos Hlt) as (x & -> & Hx & Hexact). cbn [py_round].
  f_equal. set (n := round_half_even q).
  pose proof (round_half_even_nearest q) as [Hlo Hhi]%Qabs_Qle_condition. fold n in Hlo, Hhi.
  assert (-500 ≤ 1000 * n - R ≤ 500) as HD.
  { split.
    - assert (inject_Z (-500) <= inject_Z (1000 * n - R))%Q as H; [|by rewrite <- Zle_Qle in H].
      unfold Z.sub. rewrite inject_Z_plus, inject_Z_opp, inject_Z_mult.
      change (inject_Z (-500)) with (-500)%Q. change (inject_Z 1000) with 1000%Q.
      assert (inject_Z R == 1000 * q)%Q as -> by (rewrite Hq; field). lra.
    - assert (inject_Z (1000 * n - R) <= inject_Z 500)%Q as H; [|by rewrite <- Zle_Qle in H].
      unfold Z.sub. rewrite inject_Z_plus, inject_Z_opp, inject_Z_mult.
      change (inject_Z 500) with 500%Q. change (inject_Z 1000) with 1000%Q.
      assert (inject_Z R == 1000 * q)%Q as -> by (rewrite Hq; field). lra. }
  assert (inject_Z R == 1000 * inject_Z n - inject_Z (1000 * n - R))%Q as HR'.
  { unfold Z.sub. rewrite inject_Z_plus, inject_Z_opp, inject_Z_mult.
    change (inject_Z 1000) with 1000%Q. ring. }
  destruct (decide (1000 * n - R = 500 ∨ 1000 * n - R = -500)) as [Htie|Hnot].
  - assert (x == q)%Q as Hxq; [|by apply round_half_even_comp].
    destruct Htie as [H5|H5]; rewrite H5 in HR'.
    + apply (Hexact (2 * n - 1)). rewrite Hq, HR'. unfold Z.sub.
      rewrite inject_Z_plus, inject_Z_opp, inject_Z_mult.
      change (inject_Z 500) with 500%Q. change (inject_Z 2) with 2%Q.
      change (inject_Z 1) with 1%Q. field.
    + apply (Hexact (2 * n + 1)). rewrite Hq, HR'.
      rewrite inject_Z_plus, inject_Z_mult.
      change (inject_Z (-500)) with (-500)%Q. change (inject_Z 2) with 2%Q.
      change (inject_Z 1) with 1%Q. field.
  - apply round_half_even_unique.
    assert (-499 ≤ 1000 * n - R ≤ 499) as HD' by lia. destruct HD' as [HDlo HDhi].
    rewrite Zle_Qle in HDlo, HDhi.
    change (inject_Z (-499)) with (-499)%Q in HDlo. change (inject_Z 499) with 499%Q in HDhi.
    apply Qabs_Qle_condition in Hx as [Hxlo Hxhi].
    assert (q == inject_Z n - inject_Z (1000 * n - R) * (1 # 1000))%Q as Hq'
      by (rewrite Hq, HR'; field).
    apply Qabs_Qlt_condition.
    generalize dependent (inject_Z (1000 * n - R)). intros D _ HDlo HDhi Hq'.
    generalize dependent (inject_Z n). intros N Hlo Hhi Hq'. clear -Hxlo Hxhi HDlo HDhi Hq'.
    split; lra.
Qed.

(** C5, as amended.  In the bond-file path a bond-order field is converted
    to the binary64 number nearest to the decimal it spells, and the order
    is [max(1, round(x))] of that number, [round] giving the nearest
    integer, a tie going to the even one.  For a field of at most nine
    digits and three decimals this is the integer nearest to the value of
    the field itself (at distance at most one half), and 1 when that
    integer is below 1.  The reader stores, for the atom of a line with
    [s2] bonds, the [map] of this conversion over the [s2] fields that
    follow the molecule field. *)
Theorem bond_order_rounding (ip fp : list nat) :
  Forall (λ d, d < 10)%nat ip → Forall (λ d, d < 10)%nat fp → ip ≠ [] ∨ fp ≠ [] →
  bond_order (decimal_field ip fp)
  = (n ← py_round (binary64 (decimal_value ip fp)) ; Ok (Z.max 1 n)) ∧
  ((length ip ≤ 9)%nat → (length fp ≤ 3)%nat →
   bond_order (decimal_field ip fp)
   = Ok (Z.max 1 (round_half_even (decimal_value ip fp))) ∧
   (Qabs (inject_Z (round_half_even (decimal_value ip fp)) - decimal_value ip fp)
    <= 1 # 2)%Q ∧
   1 ≤ Z.max 1 (round_half_even (decimal_value ip fp))) ∧
  (∀ st c rest st',
     c ≠ "#"%char →
     bond_step_line st (String c rest) = Ok st' →
     ∃ a2 s0 s2,
       getitem (split (String c rest)) 2 = Ok a2 ∧ py_int a2 = Ok s2 ∧
       setitem (b_level st) s0
         (Some (mkMap bond_order (py_slice (split (String c rest)) (4 + s2) (4 + 2 * s2))))
       = Ok (b_level st')).
Proof.
  intros Hip Hfp Hne.
  assert (bond_order (decimal_field ip fp)
          = (n ← py_round (binary64 (decimal_value ip fp)) ; Ok (Z.max 1 n))) as Hbo.
  { unfold bond_order. by rewrite py_float64_decimal_field. }
  split_and!; [done| |].
  - intros Hlip Hlfp. rewrite Hbo.
    destruct (decimal_value_small ip fp Hip Hfp Hlip Hlfp) as (R & HR & Hq).
    rewrite (round_binary64_thousandths _ R HR Hq).
    split_and!; [done|apply round_half_even_nearest|lia].
  - intros st c rest st' Hc Hline. unfold bond_step_line in Hline.
    rewrite (proj2 (Ascii.eqb_neq c "#"%char) Hc) in Hline.
    apply bind_Ok in Hline as (a0 & _ & Hline).
    apply bind_Ok in Hline as (i0 & _ & Hline).
    apply bind_Ok in Hline as (a2 & Ha2 & Hline).
    apply bind_Ok in Hline as (s2 & Hs2 & Hline).
    apply bind_Ok in Hline as (bond' & _ & Hline).
    apply bind_Ok in Hline as (level' & Hset & [= <-]).
    by exists a2, (i0 - 1), s2.
Qed.

(** The field [1.4] parses to the bond order 1. *)
Lemma bond_order_rounding_witness :
  bond_order "1.4" = Ok 1 ∧
  (Qabs (inject_Z 1 - decimal_value [1%nat] [4%nat]) <= 1 # 2)%Q.
Proof.
  destruct (bond_order_rounding [1%nat] [4%nat]) as (_ & H & _).
  - by repeat constructor.
  - by repeat constructor.
  - by left.
  - destruct H as (Hbo & Hnear & _); [cbn; lia..|]. split; [exact Hbo|exact Hnear].
Defined.

(** C5, as stated, fails: the field [2.5000000000000000001] parses to the
    bond order 2, the binary64 number nearest to it being 2.5, while the
    integer nearest to the field is 3; and the field [1e400], whose float
    is an infinity, is not parsed to an integer at all. *)
Lemma bond_order_double_rounding :
  bond_order "2.5000000000000000001" = Ok 2
  ∧ decimal "2.5000000000000000001"
    = Some (decimal_value [2%nat] ([5%nat] ++ replicate 17 0%nat ++ [1%nat]))
  ∧ (Qabs (inject_Z 3 - decimal_value [2%nat] ([5%nat] ++ replicate 17 0%nat ++ [1%nat]))
     < 1 # 2)%Q
  ∧ (1 # 2 < Qabs (inject_Z 2 - decimal_value [2%nat] ([5%nat] ++ replicate 17 0%nat ++ [1%nat])))%Q
  ∧ bond_order "1e400"
    = Raise (OverflowError "cannot convert float infinity to integer").
Proof.
  split_and!; [by vm_compute..| | |by vm_compute].
  - by vm_compute.
  - by vm_compute.
Qed.

(** ** Malformed headers *)

Lemma enumerate_loop_app {S} (body : S → Z → string → result (loop S Z))
    pre rest index s s' :
  scan_to body pre index s = Ok (Some s') →
  enumerate_loop body (pre ++ rest) index s
  = enumerate_loop body rest (index + Z.of_nat (length pre)) s'.
Proof.
  revert index s. induction pre as [|line pre IH]; intros index s; simpl.
  - intros [= <-]. f_equal. lia.
  - intros (r & Hr & Hscan)%bind_Ok. rewrite Hr. cbn.
    destruct r as [s1|n]; [|done]. rewrite (IH _ _ Hscan). f_equal. lia.
Qed.

Lemma enumerate_loop_raise {S} (body : S → Z → string → result (loop S Z))
    pre line rest s s' e :
  scan_to body pre 0 s = Ok (Some s') →
  body s' (Z.of_nat (length pre)) line = Raise e →
  enumerate_loop body (pre ++ line :: rest) 0 s = Raise e.
Proof.
  intros Hpre Hline. rewrite (enumerate_loop_app _ _ _ _ _ _ Hpre).
  rewrite Z.add_0_l. cbn [enumerate_loop]. by rewrite Hline.
Qed.

Lemma index_of_found x keys :
  existsb (String.eqb x) keys = true → ∃ n, index_of x keys = Ok n.
Proof.
  unfold index_of. induction keys as [|k keys IH]; simpl; [done|].
  destruct (String.eqb x k); simpl; [by eexists|].
  intros (n & Hn)%IH. destruct (list_index x keys); [|done]. by eexists.
Qed.

Lemma index_of_missing x keys :
  existsb (String.eqb x) keys = false →
  index_of x keys = Raise (ValueError ("'" +:+ x +:+ "' is not in list")).
Proof.
  unfold index_of. intros Hx.
  assert (list_index x keys = None) as ->; [|done].
  induction keys as [|k keys IH]; simpl in *; [done|].
  apply orb_false_iff in Hx as [-> Hx]. by rewrite IH.
Qed.

Lemma set_columns_missing self keys c :
  missing_column keys = Some c →
  set_columns self keys = Raise (ValueError ("'" +:+ c +:+ "' is not in list")).
Proof.
  unfold missing_column, set_columns. cbn [List.find].
  destruct (existsb (String.eqb "id") keys) eqn:Hid; cbn [negb].
  2:{ intros [= <-]. rewrite (index_of_missing _ _ Hid). reflexivity. }
  destruct (index_of_found _ _ Hid) as [ni ->]. cbn [mbind result_bind].
  destruct (existsb (String.eqb "type") keys) eqn:Ht; cbn [negb].
  2:{ intros [= <-]. rewrite (index_of_missing _ _ Ht). reflexivity. }
  destruct (index_of_found _ _ Ht) as [nt ->]. cbn [mbind result_bind].
  destruct (existsb (String.eqb "x") keys) eqn:Hx; cbn [negb].
  2:{ intros [= <-]. rewrite (index_of_missing _ _ Hx). reflexivity. }
  destruct (index_of_found _ _ Hx) as [nx ->]. cbn [mbind result_bind].
  destruct (existsb (String.eqb "y") keys) eqn:Hy; cbn [negb].
  2:{ intros [= <-]. rewrite (index_of_missing _ _ Hy). reflexivity. }
  destruct (index_of_found _ _ Hy) as [ny ->]. cbn [mbind result_bind].
  destruct (existsb (String.eqb "z") keys) eqn:Hz; cbn [negb].
  2:{ intros [= <-]. rewrite (index_of_missing _ _ Hz). reflexivity. }
  done.
Qed.

Lemma prefix_inv p s : String.prefix p s = true → ∃ r, s = (p +:+ r)%string.
Proof.
  revert s. induction p as [|a p IH]; intros s.
  - by exists s.
  - destruct s as [|b s]; simpl; [done|].
    destruct (ascii_dec a b) as [->|]; [|done].
    intros (r & ->)%IH. by exists r.
Qed.

Lemma atoms_header line :
  startswith line "ITEM: ATOMS" = true →
  startswith line "ITEM:" = true ∧ linecontent_of line = ATOMS.
Proof.
  unfold startswith. intros (r & ->)%prefix_inv. split; [reflexivity|].
  unfold linecontent_of, startswith. simpl. by destruct r.
Qed.

Lemma exception_class_builtin e : exception_class e ≠ "ParseError".
Proof. by destruct e. Qed.

(** C8, as amended.  A failure of the header scan is the failure of the
    run, with no block handed to a worker, and the exception is a built-in
    one, there being no ParseError.  In the dump format, an [ITEM: ATOMS]
    line that lacks one of the columns [id], [type], [x], [y], [z] raises
    a ValueError that names the first missing column; a blank line where
    the atom count is expected raises an IndexError, and a scan that ends
    without an atom count raises an UnboundLocalError for [N].  In the
    bond format, a first [# Number of particles] line without a number
    raises an IndexError. *)
Theorem malformed_header_fails :
  (∀ fmt finish self f e,
     _readNfunc fmt self f = Raise e →
     _readinputfile fmt finish self f = mkRun [] (Raise e) ∧
     exception_class e ≠ "ParseError") ∧
  (∀ self pre line rest h c,
     scan_to dump_readN_body pre 0 (dump_header_init self) = Ok (Some h) →
     startswith line "ITEM: ATOMS" = true →
     missing_column (split line) = Some c →
     dump_readNfunc self (pre ++ line :: rest)
     = Raise (ValueError ("'" +:+ c +:+ "' is not in list"))) ∧
  (∀ self pre line rest h,
     scan_to dump_readN_body pre 0 (dump_header_init self) = Ok (Some h) →
     d_linecontent h = Some NUMBER → iscompleted (d_header h) = false →
     startswith line "ITEM:" = false → split line = [] →
     dump_readNfunc self (pre ++ line :: rest)
     = Raise (IndexError "list index out of range")) ∧
  (∀ self f h n,
     enumerate_loop dump_readN_body f 0 (dump_header_init self) = Ok (h, n) →
     h_N (d_header h) = None →
     dump_readNfunc self f = Raise (UnboundLocalError "N")) ∧
  (∀ self pre line rest h c tl,
     scan_to bond_readN_body pre 0 (mkHeader false None None None) = Ok (Some h) →
     iscompleted h = false →
     line = String c tl → c = "#"%char →
     startswith line "# Number of particles" = true →
     filter (λ s, isdigit s = true) (split line) = [] →
     bond_readNfunc self (pre ++ line :: rest)
     = Raise (IndexError "list index out of range")).
Proof.
  split_and!.
  - intros fmt finish self f e HN. split; [|apply exception_class_builtin].
    unfold _readinputfile. by rewrite HN.
  - intros self pre line rest h c Hpre [Hitem Hatoms]%atoms_header Hmiss.
    unfold dump_readNfunc.
    rewrite (enumerate_loop_raise _ _ _ _ _ _
               (ValueError ("'" +:+ c +:+ "' is not in list")) Hpre); [done|].
    unfold dump_readN_body. rewrite Hitem, Hatoms.
    rewrite decide_True by done. by rewrite (set_columns_missing _ _ c).
  - intros self pre line rest h Hpre Hlc Hfirst Hitem Hsplit.
    unfold dump_readNfunc.
    rewrite (enumerate_loop_raise _ _ _ _ _ _
               (IndexError "list index out of range") Hpre); [done|].
    unfold dump_readN_body. rewrite Hitem, Hlc. cbn.
    unfold delimiter. rewrite Hfirst. cbn. by rewrite Hsplit.
  - intros self f h n Hloop HN. unfold dump_readNfunc. rewrite Hloop. cbn.
    unfold store_header. cbn. by rewrite HN.
  - intros self pre line rest h c tl Hpre Hfirst -> -> Hnum Hdigits.
    unfold bond_readNfunc.
    rewrite (enumerate_loop_raise _ _ _ _ _ _
               (IndexError "list index out of range") Hpre); [done|].
    unfold bond_readN_body. cbn [first_char]. cbn [mbind result_bind].
    change (Ascii.eqb "#" "#") with true. cbv iota. rewrite Hnum.
    unfold delimiter. rewrite Hfirst. cbn [mbind result_bind]. by rewrite Hdigits.
Qed.

(** C8, as stated, fails: the header of a dump file whose [ITEM: ATOMS]
    line lacks the column [id] stops the run with a ValueError, not with a
    ParseError. *)
Lemma missing_column_is_no_ParseError :
  ¬ (∃ e, outcome (_readinputfile (_DetectLAMMPSdump example_oracle) Z.opp example_self
                     (newline <$> ["ITEM: TIMESTEP"; "0"; "ITEM: NUMBER OF ATOMS"; "2";
                                   "ITEM: ATOMS type x y z"; "1 0.0 0.0 0.0";
                                   "1 9.0 0.0 0.0"]))
          = Raise e ∧ exception_class e = "ParseError").
Proof. intros (e & [= <-] & He). discriminate He. Qed.

(** ** The order of the atom lines of a dump block *)

Lemma map_result_perm {A B} (f : A → result B) l l' r :
  l ≡ₚ l' → map_result f l = Ok r →
  ∃ r', map_result f l' = Ok r' ∧ r ≡ₚ r'.
Proof.
  intros Hperm. revert r. induction Hperm as [|x l l' Hperm IH|x y l|l l' l'' _ IH1 _ IH2];
    intros r; simpl.
  - intros [= <-]. by exists [].
  - intros (y & Hy & H)%bind_Ok. apply bind_Ok in H as (ys & Hys & [= <-]).
    destruct (IH _ Hys) as (ys' & Hys' & Hp). exists (y :: ys').
    ok_step Hy. ok_step Hys'. split; [done|]. by constructor.
  - intros (b & Hb & H)%bind_Ok. apply bind_Ok in H as (r1 & H & [= <-]).
    apply bind_Ok in H as (a & Ha & H). apply bind_Ok in H as (r2 & Hr2 & [= <-]).
    exists (a :: b :: r2). ok_step Ha. ok_step Hb. ok_step Hr2. cbn.
    split; [done|]. apply Permutation_swap.
  - intros (r' & Hr' & Hp)%IH1. apply IH2 in Hr' as (r'' & Hr'' & Hp').
    exists r''. split; [done|]. by etrans.
Qed.

Section atom_lines.
Context (self : Detect) (step : Z).

Lemma atom_lines_forward body st st' :
  s_linecontent st = Some ATOMS →
  Forall (λ l, startswith l "ITEM:" = false) body →
  for_each (dump_step_line self step) body st = Ok st' →
  ∃ atoms,
    map_result (atom_of_line self) (filter (λ l, l ≠ EmptyString) body) = Ok atoms ∧
    st' = with_atoms st atoms.
Proof.
  intros Hlc Hbody. revert st Hlc.
  induction Hbody as [|line body Hline Hbody IH]; intros st Hlc; simpl.
  - intros [= <-]. exists []. split; [done|]. destruct st. unfold with_atoms.
    simpl. by rewrite app_nil_r.
  - intros (st1 & Hst1 & Hrest)%bind_Ok. unfold dump_step_line in Hst1.
    destruct line as [|c line].
    { injection Hst1 as <-. rewrite filter_cons_False by auto. by apply IH. }
    rewrite Hline, Hlc in Hst1. cbn in Hst1.
    apply bind_Ok in Hst1 as (a & Ha & [= <-]).
    rewrite filter_cons_True by done. cbn [map_result]. ok_step Ha.
    apply IH in Hrest as (atoms & Hatoms & ->); [|done]. ok_step Hatoms.
    exists (a :: atoms). split; [done|]. unfold with_atoms. simpl.
    by rewrite <- app_assoc, Hlc.
Qed.

Lemma dump_step_line_atom st c line a :
  startswith (String c line) "ITEM:" = false →
  s_linecontent st = Some ATOMS →
  atom_of_line self (String c line) = Ok a →
  dump_step_line self step st (String c line) = Ok (with_atoms st [a]).
Proof.
  intros Hline Hlc Ha. unfold dump_step_line. rewrite Hline.
  assert (local "linecontent" (s_linecontent st) = Ok ATOMS) as Hl
    by (by rewrite Hlc).
  ok_step Hl. rewrite decide_True by done. by ok_step Ha.
Qed.

Lemma with_atoms_cons st a atoms :
  with_atoms (with_atoms st [a]) atoms = with_atoms st (a :: atoms).
Proof. unfold with_atoms. simpl. by rewrite <- app_assoc. Qed.

Lemma atom_lines_backward body st atoms :
  s_linecontent st = Some ATOMS →
  Forall (λ l, startswith l "ITEM:" = false) body →
  map_result (atom_of_line self) (filter (λ l, l ≠ EmptyString) body) = Ok atoms →
  for_each (dump_step_line self step) body st = Ok (with_atoms st atoms).
Proof.
  intros Hlc Hbody. revert st atoms Hlc.
  induction Hbody as [|line body Hline Hbody IH]; intros st atoms Hlc; cbn [for_each].
  - rewrite filter_nil. intros [= <-]. destruct st. unfold with_atoms. simpl.
    by rewrite app_nil_r.
  - destruct line as [|c line].
    { rewrite filter_cons_False by auto. intros Hm.
      cbn [dump_step_line mbind result_bind]. by apply IH. }
    rewrite filter_cons_True by done. cbn [map_result].
    intros (a & Ha & H)%bind_Ok. apply bind_Ok in H as (rest & Hrest & [= <-]).
    rewrite (dump_step_line_atom _ _ _ _ Hline Hlc Ha). cbn [mbind result_bind].
    rewrite (IH (with_atoms st [a]) rest); [by rewrite with_atoms_cons|done..].
Qed.

Lemma dump_step_line_order st1 st2 line st1' :
  same_but_order st1 st2 →
  dump_step_line self step st1 line = Ok st1' →
  ∃ st2', dump_step_line self step st2 line = Ok st2' ∧ same_but_order st1' st2'.
Proof.
  intros (Hlc & Hatoms & Hbox & Hts). unfold dump_step_line.
  destruct line as [|c line]; [intros [= <-]; by eexists|].
  destruct (startswith _ _).
  { intros [= <-]. eexists. split; [done|]. by split_and!. }
  rewrite <- Hlc. intros (lc & Hl & H)%bind_Ok. ok_step Hl.
  repeat case_decide.
  - apply bind_Ok in H as (a & Ha & [= <-]). ok_step Ha.
    eexists. split; [done|]. split_and!; simpl; [done| |done..].
    by apply Permutation_app.
  - apply bind_Ok in H as (t & Ht & H). apply bind_Ok in H as (n & Hn & [= <-]).
    ok_step Ht. ok_step Hn. eexists. split; [done|]. by split_and!.
  - apply bind_Ok in H as (f1 & Hf1 & H). apply bind_Ok in H as (hi & Hhi & H).
    apply bind_Ok in H as (f0 & Hf0 & H). apply bind_Ok in H as (lo & Hlo & [= <-]).
    ok_step Hf1. ok_step Hhi. ok_step Hf0. ok_step Hlo.
    eexists. split; [done|]. split_and!; simpl; [done..|by rewrite Hbox|done].
  - injection H as <-. eexists. split; [done|]. by split_and!.
Qed.

Lemma dump_lines_order lines st1 st2 st1' :
  same_but_order st1 st2 →
  for_each (dump_step_line self step) lines st1 = Ok st1' →
  ∃ st2', for_each (dump_step_line self step) lines st2 = Ok st2' ∧
          same_but_order st1' st2'.
Proof.
  revert st1 st2. induction lines as [|line lines IH]; intros st1 st2 Hsame; simpl.
  - intros [= <-]. by exists st2.
  - intros (s1 & Hs1 & Hrest)%bind_Ok.
    destruct (dump_step_line_order _ _ _ _ Hsame Hs1) as (s2 & Hs2 & Hsame').
    ok_step Hs2. by eapply IH.
Qed.
End atom_lines.

Lemma dump_finish_order oracle self st1 st2 :
  same_but_order st1 st2 → NoDup (s_step_atoms st1).*1 →
  dump_finish oracle self st1 = dump_finish oracle self st2.
Proof.
  intros (_ & Hatoms & Hbox & Hts) Hnd. unfold dump_finish, atoms_by_id.
  rewrite <- Hbox, <- Hts, <- (sorted_by_permutation fst _ _ Hnd Hatoms).
  destruct (s_step_atoms st1) as [|a l] eqn:H1; destruct (s_step_atoms st2) as [|b k];
    try done.
  - by apply Permutation_nil_cons in Hatoms.
  - symmetry in Hatoms. by apply Permutation_nil_cons in Hatoms.
Qed.

(** C10, as amended.  Take a dump block that is scanned without error and
    whose atoms have pairwise distinct ids, and in it a run [body] of
    lines of the ATOMS section (reached with the line type ATOMS, and
    holding no [ITEM:] line).  Writing the lines of [body] in any other
    order [body'] changes nothing of what [_readstepfunc] returns: the same
    molecules and the same timestep. *)
Theorem readstepfunc_line_order (oracle : list Atom → string) (self : Detect)
    (step : Z) (pre body body' post : list string) (st1 st : dump_step) :
  dump_scan self step pre = Ok st1 →
  s_linecontent st1 = Some ATOMS →
  Forall (λ l, startswith l "ITEM:" = false) body →
  dump_scan self step (pre ++ body ++ post) = Ok st →
  NoDup (s_step_atoms st).*1 →
  body ≡ₚ body' →
  dump_readstepfunc oracle self (step, pre ++ body' ++ post)
  = dump_readstepfunc oracle self (step, pre ++ body ++ post).
Proof.
  intros Hpre Hlc Hbody Hscan Hnd Hperm. unfold dump_readstepfunc.
  rewrite Hscan. cbn [mbind result_bind].
  unfold dump_scan in *. rewrite for_each_app, Hpre in Hscan.
  cbn [mbind result_bind] in Hscan. rewrite for_each_app in Hscan.
  apply bind_Ok in Hscan as (st2 & Hst2 & Hpost).
  apply atom_lines_forward in Hst2 as (atoms & Hatoms & ->); [|done..].
  destruct (map_result_perm (atom_of_line self) _
              (filter (λ l, l ≠ EmptyString) body') _
              (filter_Permutation _ _ _ Hperm) Hatoms) as (atoms' & Hatoms' & Hp).
  apply atom_lines_backward with (step := step) (st := st1) in Hatoms';
    [|done|by rewrite <- Hperm].
  destruct (dump_lines_order self step post (with_atoms st1 atoms)
              (with_atoms st1 atoms') st) as (st' & Hpost' & Hsame); [|done|].
  { split_and!; simpl; [done| |done..]. by apply Permutation_app. }
  rewrite !for_each_app, Hpre. cbn [mbind result_bind].
  rewrite for_each_app, Hatoms'. cbn [mbind result_bind]. rewrite Hpost'.
  cbn [mbind result_bind]. symmetry. by apply dump_finish_order.
Qed.

Lemma readstepfunc_line_order_witness :
  dump_readstepfunc example_oracle example_dump_self
    (0, example_dump_pre ++ reverse example_dump_body ++ [])
  = dump_readstepfunc example_oracle example_dump_self
      (0, example_dump_pre ++ example_dump_body ++ []).
Proof.
  eapply (readstepfunc_line_order example_oracle example_dump_self 0
            example_dump_pre example_dump_body (reverse example_dump_body) []).
  - vm_compute. reflexivity.
  - reflexivity.
  - repeat constructor.
  - vm_compute. reflexivity.
  - apply NoDup_cons. split; [|apply NoDup_singleton].
    by intros ?%list_elem_of_singleton.
  - apply Permutation_swap.
Defined.

(** C10, as stated, fails for atom lines that share an id: the sort by id
    is stable, so that atoms of equal id stay in the order of their lines.
    The block below holds the same three atom records in two line orders;
    the atoms come out as H, O, H in one order and as O, H, H in the other,
    and the BondGraph built from them bonds the atoms 0 and 2 in one and
    the atoms 1 and 2 in the other. *)
Lemma equal_ids_keep_line_order :
  example_dup_body ≡ₚ reverse example_dup_body
  ∧ dump_symbols example_dup_self 0 (example_dup_pre ++ example_dup_body)
    = Ok ["H"; "O"; "H"]
  ∧ dump_symbols example_dup_self 0 (example_dup_pre ++ reverse example_dup_body)
    = Ok ["O"; "H"; "H"]
  ∧ dump_bondgraph example_distance_oracle example_dup_self 0
      (example_dup_pre ++ example_dup_body)
    = Ok ([[2]; []; [0]], [[1]; []; [1]])
  ∧ dump_bondgraph example_distance_oracle example_dup_self 0
      (example_dup_pre ++ reverse example_dup_body)
    = Ok ([[]; [2]; [1]], [[]; [1]; [1]]).
Proof.
  split_and!; [by rewrite reverse_Permutation|by vm_compute..].
Qed.

(** * Further properties of the scanners *)

(** ** The loop of the header scans *)

Lemma enumerate_loop_split {S} (body : S → Z → string → result (loop S Z))
    l1 l2 index s :
  enumerate_loop body (l1 ++ l2) index s
  = match scan_to body l1 index s with
    | Ok (Some s') => enumerate_loop body l2 (index + Z.of_nat (length l1)) s'
    | Ok None => enumerate_loop body l1 index s
    | Raise e => Raise e
    end.
Proof.
  revert index s. induction l1 as [|line l1 IH]; intros index s.
  - cbn [app scan_to length]. f_equal. simpl. lia.
  - cbn [app scan_to enumerate_loop].
    destruct (body s index line) as [[s1|n]|e]; cbn [mbind result_bind]; [|done..].
    rewrite IH. destruct (scan_to body l1 (index + 1) s1) as [[s'|]|e]; [|done..].
    f_equal. rewrite length_cons. lia.
Qed.

Lemma enumerate_loop_end {S} (body : S → Z → string → result (loop S Z))
    l index s s' :
  0 ≤ index → l ≠ [] →
  scan_to body l index s = Ok (Some s') →
  enumerate_loop body l index s = Ok (s', index + Z.of_nat (length l)).
Proof.
  revert index s. induction l as [|line l IH]; intros index s Hi Hl; [done|].
  cbn [scan_to enumerate_loop]. intros (r & Hr & Hscan)%bind_Ok. ok_step Hr.
  destruct r as [s1|n]; [|done]. destruct l as [|line' l].
  - injection Hscan as <-. cbn [enumerate_loop].
    rewrite bool_decide_eq_false_2 by lia. f_equal. f_equal. simpl. lia.
  - rewrite (IH (index + 1) s1); [|lia|done|done]. f_equal. f_equal.
    rewrite !length_cons. lia.
Qed.

(** A property of the state kept by every line is a property of the state
    that the loop returns. *)
Lemma enumerate_loop_invariant {S} (P : S → Prop)
    (body : S → Z → string → result (loop S Z)) l index s s' n :
  (∀ s i line s', P s → body s i line = Ok (Continue s') → P s') →
  P s → enumerate_loop body l index s = Ok (s', n) → P s'.
Proof.
  intros Hbody. revert index s. induction l as [|line l IH]; intros index s Hs.
  - cbn [enumerate_loop]. case_bool_decide; [done|]. by intros [= <- _].
  - cbn [enumerate_loop]. intros (r & Hr & Hloop)%bind_Ok.
    destruct r as [s1|m]; [|by injection Hloop as <- _].
    eapply IH; [|done]. by eapply Hbody.
Qed.

(** ** The AtomType array *)

Lemma set_atomtype_consistent h s h' :
  header_consistent h → set_atomtype h s = Ok h' →
  header_consistent h' ∧ h_N h' = h_N h ∧
  iscompleted h' = iscompleted h ∧ stepaindex h' = stepaindex h.
Proof.
  unfold set_atomtype, header_consistent. intros Hh (a1 & _ & H)%bind_Ok.
  apply bind_Ok in H as (t & _ & H). apply bind_Ok in H as (atomtype & Ha & H).
  apply bind_Ok in H as (a0 & _ & H). apply bind_Ok in H as (i & _ & H).
  apply bind_Ok in H as (atomtype' & Hset & [= <-]). cbn.
  destruct (h_atomtype h) as [a|]; [|done]. injection Ha as ->.
  unfold setitem in Hset. apply bind_Ok in Hset as (n & _ & [= <-]).
  destruct (h_N h); [|done]. by rewrite length_insert.
Qed.

Lemma np_zeros_length N atomtype :
  np_zeros N = Ok atomtype → 0 ≤ N ∧ length atomtype = Z.to_nat N.
Proof.
  unfold np_zeros. case_bool_decide; [|done]. intros [= <-].
  by rewrite length_replicate.
Qed.

Lemma bond_readN_body_consistent h index line h' :
  header_consistent h → bond_readN_body h index line = Ok (Continue h') →
  header_consistent h'.
Proof.
  unfold bond_readN_body. intros Hh (c & _ & H)%bind_Ok.
  destruct (Ascii.eqb c "#").
  - destruct (startswith _ _); [|by injection H as <-].
    apply bind_Ok in H as (r & _ & H). destruct r as [h1|m]; [|done].
    apply bind_Ok in H as (tok & _ & H). apply bind_Ok in H as (N & _ & H).
    apply bind_Ok in H as (atomtype & Hz & [= <-]).
    unfold header_consistent. cbn. by apply np_zeros_length.
  - apply bind_Ok in H as (h1 & Hset & [= <-]).
    by apply (set_atomtype_consistent h (split line)).
Qed.

Lemma set_columns_config self keys self' :
  set_columns self keys = Ok self' →
  atomname self' = atomname self ∧ stepinterval self' = stepinterval self ∧
  pbc self' = pbc self.
Proof.
  unfold set_columns. intros (i & _ & H)%bind_Ok.
  apply bind_Ok in H as (t & _ & H). apply bind_Ok in H as (x & _ & H).
  apply bind_Ok in H as (y & _ & H). by apply bind_Ok in H as (z & _ & [= <-]).
Qed.

Lemma dump_readN_body_consistent self h index line h' :
  header_consistent (d_header h) ∧
  atomname (d_self h) = atomname self ∧ stepinterval (d_self h) = stepinterval self ∧
  pbc (d_self h) = pbc self →
  dump_readN_body h index line = Ok (Continue h') →
  header_consistent (d_header h') ∧
  atomname (d_self h') = atomname self ∧ stepinterval (d_self h') = stepinterval self ∧
  pbc (d_self h') = pbc self.
Proof.
  unfold dump_readN_body. intros (Hh & Hn & Hs & Hp) H.
  destruct (startswith _ _).
  - case_decide; [|by injection H as <-].
    apply bind_Ok in H as (self1 & (? & ? & ?)%set_columns_config & [= <-]).
    cbn [d_header d_self]. split_and!; congruence.
  - apply bind_Ok in H as (lc & _ & H). repeat case_decide.
    + apply bind_Ok in H as (r & _ & H). destruct r as [h1|m]; [|done].
      apply bind_Ok in H as (tok & _ & H). apply bind_Ok in H as (N & _ & H).
      apply bind_Ok in H as (atomtype & Hz & [= <-]). cbn [d_header d_self].
      split_and!; [|done..]. unfold header_consistent. cbn.
      by apply np_zeros_length.
    + apply bind_Ok in H as (h1 & Hset & [= <-]). cbn [d_header d_self].
      split_and!; [|done..].
      by apply (set_atomtype_consistent (d_header h) (split line)).
    + by injection H as <-.
Qed.

Lemma store_header_consistent self h n self' m :
  header_consistent h → store_header self (h, n) = Ok (self', m) →
  ∃ N atomtype,
    self_N self' = Some N ∧ self_atomtype self' = Some atomtype ∧
    0 ≤ N ∧ length atomtype = Z.to_nat N ∧
    atomname self' = atomname self ∧ stepinterval self' = stepinterval self ∧
    pbc self' = pbc self.
Proof.
  unfold store_header, header_consistent. cbn [fst snd].
  intros Hh (N & HN & H)%bind_Ok. apply bind_Ok in H as (a & Ha & [= <- _]).
  destruct (h_N h) as [N'|]; [|done]. destruct (h_atomtype h) as [a'|]; [|done].
  injection HN as ->. injection Ha as ->. destruct Hh as [? ?].
  exists N, a. by split_and!.
Qed.

(** X1.  When the header scan of either format returns, it has stored an
    atom count [N] that is not negative and an AtomType array with exactly
    [N] entries, and it has left the configuration (the atom names, the
    step interval, the periodic flag) as it was. *)
Theorem readNfunc_atomtype_length (oracle : list Atom → string)
    (inputtype : InputFileType) (self : Detect) (f : list string)
    (self' : Detect) (steplinenum : Z) :
  _readNfunc (gettype oracle inputtype) self f = Ok (self', steplinenum) →
  ∃ N atomtype,
    self_N self' = Some N ∧ self_atomtype self' = Some atomtype ∧
    0 ≤ N ∧ length atomtype = Z.to_nat N ∧
    atomname self' = atomname self ∧ stepinterval self' = stepinterval self ∧
    pbc self' = pbc self.
Proof.
  destruct inputtype; cbn [gettype _readNfunc _DetectLAMMPSbond _DetectLAMMPSdump].
  - unfold bond_readNfunc. intros ([h n] & Hloop & Hstore)%bind_Ok.
    apply (store_header_consistent self h n self' steplinenum); [|done].
    apply (enumerate_loop_invariant header_consistent) in Hloop; [done| |done].
    intros ? ? ? ?. apply bond_readN_body_consistent.
  - unfold dump_readNfunc. intros ([h n] & Hloop & Hstore)%bind_Ok.
    cbn [fst snd] in Hstore.
    apply (enumerate_loop_invariant
             (λ h, header_consistent (d_header h) ∧
                   atomname (d_self h) = atomname self ∧
                   stepinterval (d_self h) = stepinterval self ∧
                   pbc (d_self h) = pbc self)) in Hloop
      as (Hh & Hn & Hs & Hp); [| |done].
    + destruct (store_header_consistent _ _ _ _ _ Hh Hstore)
        as (N & a & ? & ? & ? & ? & ? & ? & ?).
      exists N, a. split_and!; congruence.
    + intros ? ? ? ?. apply dump_readN_body_consistent.
Qed.

Lemma readNfunc_atomtype_length_witness :
  ∃ N atomtype,
    self_N example_self_scanned = Some N ∧
    self_atomtype example_self_scanned = Some atomtype ∧
    0 ≤ N ∧ length atomtype = Z.to_nat N ∧
    atomname example_self_scanned = atomname example_self ∧
    stepinterval example_self_scanned = stepinterval example_self ∧
    pbc example_self_scanned = pbc example_self.
Proof.
  apply (readNfunc_atomtype_length example_oracle LAMMPSBOND example_self
           example_bondfile example_self_scanned 8).
  reflexivity.
Defined.

(** ** Where the header scan stops *)

Lemma enumerate_loop_break {S} (body : S → Z → string → result (loop S Z))
    l index s s' n :
  enumerate_loop body l index s = Ok (s', n) →
  scan_to body l index s = Ok None ∨ n = index + Z.of_nat (length l).
Proof.
  revert index s. induction l as [|line l IH]; intros index s.
  - cbn [enumerate_loop]. case_bool_decide; [done|]. intros [= _ <-].
    right. simpl. lia.
  - cbn [enumerate_loop scan_to]. intros (r & Hr & Hloop)%bind_Ok. ok_step Hr.
    destruct r as [s1|m]; [|by left].
    apply IH in Hloop as [? | ->]; [by left|right]. rewrite length_cons. lia.
Qed.

Lemma readNfunc_break {S} (body : S → Z → string → result (loop S Z))
    pre rest s r :
  enumerate_loop body pre 0 s = Ok r →
  r.2 < Z.of_nat (length pre) →
  enumerate_loop body (pre ++ rest) 0 s = Ok r.
Proof.
  destruct r as [s' n]. intros Hloop Hn. rewrite enumerate_loop_split.
  destruct (enumerate_loop_break _ _ _ _ _ _ Hloop) as [-> | ->]; [done|].
  simpl in Hn. lia.
Qed.

(** X2.  Once the header scan of either format has found, in a text
    [pre], a block length smaller than the number of lines of [pre], it has
    left its loop at the second block delimiter, and nothing that follows
    [pre] is read: the scan of [pre ++ rest] returns the same attributes
    and the same block length, whatever [rest] holds. *)
Theorem readNfunc_ignores_rest (oracle : list Atom → string)
    (inputtype : InputFileType) (self : Detect) (pre rest : list string)
    (self' : Detect) (steplinenum : Z) :
  _readNfunc (gettype oracle inputtype) self pre = Ok (self', steplinenum) →
  steplinenum < Z.of_nat (length pre) →
  _readNfunc (gettype oracle inputtype) self (pre ++ rest) = Ok (self', steplinenum).
Proof.
  destruct inputtype; cbn [gettype _readNfunc _DetectLAMMPSbond _DetectLAMMPSdump].
  - unfold bond_readNfunc. intros ([h n] & Hloop & Hstore)%bind_Ok Hn.
    assert (n = steplinenum) as ->.
    { unfold store_header in Hstore. apply bind_Ok in Hstore as (? & _ & H).
      by apply bind_Ok in H as (? & _ & [= _ <-]). }
    by rewrite (readNfunc_break _ _ rest _ _ Hloop).
  - unfold dump_readNfunc. intros ([h n] & Hloop & Hstore)%bind_Ok Hn.
    assert (n = steplinenum) as ->.
    { unfold store_header in Hstore. apply bind_Ok in Hstore as (? & _ & H).
      by apply bind_Ok in H as (? & _ & [= _ <-]). }
    by rewrite (readNfunc_break _ _ rest _ _ Hloop).
Qed.

Lemma readNfunc_ignores_rest_witness :
  _readNfunc (gettype example_oracle LAMMPSBOND) example_self
    (take 11 example_bondfile ++ ["not a line of a bond file"])
  = Ok (example_self_scanned, 8).
Proof.
  apply (readNfunc_ignores_rest example_oracle LAMMPSBOND example_self
           (take 11 example_bondfile)).
  - reflexivity.
  - simpl. lia.
Defined.

(** ** The block length of a bond file *)

Lemma scan_to_app {S} (body : S → Z → string → result (loop S Z))
    l1 l2 index s s1 :
  scan_to body l1 index s = Ok (Some s1) →
  scan_to body (l1 ++ l2) index s
  = scan_to body l2 (index + Z.of_nat (length l1)) s1.
Proof.
  revert index s. induction l1 as [|line l1 IH]; intros index s.
  - intros [= <-]. cbn [app length]. f_equal. simpl. lia.
  - cbn [scan_to app]. intros (r & Hr & Hscan)%bind_Ok. ok_step Hr.
    destruct r as [s'|]; [|done]. rewrite (IH _ _ Hscan). f_equal.
    rewrite length_cons. lia.
Qed.

Lemma bond_readN_body_other h index line r :
  particles_line line = false →
  bond_readN_body h index line = Ok r →
  ∃ h', r = Continue h' ∧ iscompleted h' = iscompleted h ∧
        stepaindex h' = stepaindex h.
Proof.
  unfold particles_line, bond_readN_body. intros Hline (c & _ & H)%bind_Ok.
  rewrite Hline in H. destruct (Ascii.eqb c "#").
  - injection H as <-. by exists h.
  - apply bind_Ok in H as (h1 & Hset & [= <-]). exists h1.
    unfold set_atomtype in Hset. apply bind_Ok in Hset as (a1 & _ & H).
    apply bind_Ok in H as (t & _ & H). apply bind_Ok in H as (atomtype & _ & H).
    apply bind_Ok in H as (a0 & _ & H). apply bind_Ok in H as (i & _ & H).
    by apply bind_Ok in H as (atomtype' & _ & [= <-]).
Qed.

Lemma bond_scan_other l index h r :
  Forall (λ line, particles_line line = false) l →
  scan_to bond_readN_body l index h = Ok r →
  ∃ h', r = Some h' ∧ iscompleted h' = iscompleted h ∧
        stepaindex h' = stepaindex h.
Proof.
  intros Hl. revert index h. induction Hl as [|line l Hline Hl IH]; intros index h.
  - intros [= <-]. by exists h.
  - cbn [scan_to]. intros (r1 & Hr1 & Hscan)%bind_Ok.
    apply bond_readN_body_other in Hr1 as (h1 & -> & Hc & Ha); [|done].
    apply IH in Hscan as (h' & -> & Hc' & Ha'). exists h'. split_and!; congruence.
Qed.

Lemma particles_line_first_char line :
  particles_line line = true → first_char line = Ok "#"%char.
Proof.
  unfold particles_line, startswith. by intros (r & ->)%prefix_inv.
Qed.

Lemma bond_readN_body_first h index line r :
  particles_line line = true → iscompleted h = false →
  bond_readN_body h index line = Ok r →
  ∃ h', r = Continue h' ∧ iscompleted h' = true ∧ stepaindex h' = Some index.
Proof.
  unfold bond_readN_body. intros Hline Hc. rewrite (particles_line_first_char _ Hline).
  cbn [mbind result_bind]. change (Ascii.eqb "#" "#") with true. cbv iota.
  unfold particles_line in Hline. rewrite Hline. unfold delimiter. rewrite Hc.
  cbn [mbind result_bind]. intros (tok & _ & H)%bind_Ok.
  apply bind_Ok in H as (N & _ & H). apply bind_Ok in H as (a & _ & [= <-]).
  by eexists.
Qed.

Lemma bond_readN_body_second h index line a :
  particles_line line = true → iscompleted h = true → stepaindex h = Some a →
  bond_readN_body h index line = Ok (Break (index - a)).
Proof.
  unfold bond_readN_body. intros Hline Hc Ha. rewrite (particles_line_first_char _ Hline).
  cbn [mbind result_bind]. change (Ascii.eqb "#" "#") with true. cbv iota.
  unfold particles_line in Hline. rewrite Hline. unfold delimiter.
  by rewrite Hc, Ha.
Qed.

Lemma store_header_steplinenum self h n self' m :
  store_header self (h, n) = Ok (self', m) → m = n.
Proof.
  unfold store_header. intros (? & _ & H)%bind_Ok.
  by apply bind_Ok in H as (? & _ & [= _ <-]).
Qed.

(** X3.  When the header scan of a bond file returns, the block length it
    returns is the distance between the first two
    [# Number of particles] lines: one more than the number of lines
    between them; and it is the number of lines of the file when the file
    has only one such line. *)
Theorem bond_readNfunc_steplinenum (self : Detect)
    (pre : list string) (first : string) (mid : list string) (self' : Detect)
    (steplinenum : Z) :
  Forall (λ line, particles_line line = false) pre →
  particles_line first = true →
  Forall (λ line, particles_line line = false) mid →
  (∀ second rest,
     particles_line second = true →
     bond_readNfunc self (pre ++ first :: mid ++ second :: rest)
       = Ok (self', steplinenum) →
     steplinenum = 1 + Z.of_nat (length mid)) ∧
  (bond_readNfunc self (pre ++ first :: mid) = Ok (self', steplinenum) →
   steplinenum = Z.of_nat (length (pre ++ first :: mid))).
Proof.
  intros Hpre Hfirst Hmid.
  assert (∀ tail r,
    enumerate_loop bond_readN_body (pre ++ first :: mid ++ tail) 0
      (mkHeader false None None None) = Ok r →
    ∃ h, iscompleted h = true ∧ stepaindex h = Some (Z.of_nat (length pre)) ∧
         scan_to bond_readN_body (pre ++ first :: mid) 0
           (mkHeader false None None None) = Ok (Some h) ∧
         enumerate_loop bond_readN_body tail
           (Z.of_nat (length (pre ++ first :: mid))) h = Ok r) as Hscan.
  { intros tail r. rewrite enumerate_loop_split.
    destruct (scan_to bond_readN_body pre 0 _) as [o|e] eqn:Hp; [|done].
    destruct (bond_scan_other _ _ _ _ Hpre Hp) as (h0 & -> & Hc0 & Ha0).
    cbn [enumerate_loop]. intros (r1 & Hr1 & Hloop)%bind_Ok.
    destruct (bond_readN_body_first _ _ _ _ Hfirst Hc0 Hr1) as (h1 & -> & Hc1 & Ha1).
    rewrite enumerate_loop_split in Hloop.
    destruct (scan_to bond_readN_body mid _ h1) as [o|e] eqn:Hm; [|done].
    destruct (bond_scan_other _ _ _ _ Hmid Hm) as (h2 & -> & Hc2 & Ha2).
    exists h2. split_and!.
    - congruence.
    - by rewrite Ha2, Ha1.
    - rewrite (scan_to_app _ _ _ _ _ _ Hp). cbn [scan_to]. ok_step Hr1.
      by rewrite Hm.
    - rewrite <- Hloop. f_equal. rewrite length_app, length_cons. lia. }
  split.
  - intros second rest Hsecond Hrun. unfold bond_readNfunc in Hrun.
    apply bind_Ok in Hrun as ([h n] & Hloop & ->%store_header_steplinenum).
    apply Hscan in Hloop as (h2 & Hc & Ha & _ & Hloop).
    cbn [enumerate_loop] in Hloop.
    rewrite (bond_readN_body_second _ _ _ _ Hsecond Hc Ha) in Hloop.
    cbn in Hloop. injection Hloop as _ <-. rewrite length_app, length_cons. lia.
  - intros Hrun. unfold bond_readNfunc in Hrun.
    apply bind_Ok in Hrun as ([h n] & Hloop & ->%store_header_steplinenum).
    assert (enumerate_loop bond_readN_body (pre ++ first :: mid ++ []) 0
              (mkHeader false None None None) = Ok (h, n)) as Hl2
      by (by rewrite app_nil_r).
    apply Hscan in Hl2 as (h2 & _ & _ & Hto & _).
    assert (pre ++ first :: mid ≠ []) as Hne by (by destruct pre).
    rewrite (enumerate_loop_end _ _ _ _ _ (Z.le_refl 0) Hne Hto) in Hloop.
    injection Hloop as _ <-. lia.
Qed.

Lemma bond_readNfunc_steplinenum_witness :
  (∀ second rest,
     particles_line second = true →
     bond_readNfunc example_self
       (take 2 example_bondfile ++ newline "# Number of particles 2"
          :: take 7 (drop 3 example_bondfile) ++ second :: rest)
       = Ok (example_self_scanned, 8) →
     8 = 1 + Z.of_nat (length (take 7 (drop 3 example_bondfile)))) ∧
  (bond_readNfunc example_self
     (take 2 example_bondfile ++ newline "# Number of particles 2"
        :: take 7 (drop 3 example_bondfile))
     = Ok (example_self_scanned, 8) →
   8 = Z.of_nat (length (take 2 example_bondfile
                           ++ newline "# Number of particles 2"
                           :: take 7 (drop 3 example_bondfile)))).
Proof.
  apply (bond_readNfunc_steplinenum example_self (take 2 example_bondfile)
           (newline "# Number of particles 2") (take 7 (drop 3 example_bondfile))).
  - apply (bool_decide_unpack _). vm_compute. exact I.
  - reflexivity.
  - apply (bool_decide_unpack _). vm_compute. exact I.
Defined.

(** ** The columns of a dump file *)

Lemma list_index_lookup x l n :
  list_index x l = Some n →
  l !! n = Some x ∧ ∀ m, (m < n)%nat → l !! m ≠ Some x.
Proof.
  revert n. induction l as [|y l IH]; intros n; simpl; [done|].
  destruct (String.eqb_spec x y) as [->|Hne].
  - intros [= <-]. split; [done|]. intros m Hm. lia.
  - destruct (list_index x l) as [k|]; [|done]. intros [= <-].
    destruct (IH k eq_refl) as [Hk Hfirst]. split; [done|].
    intros [|m] Hm; simpl; [congruence|]. apply Hfirst. lia.
Qed.

Lemma index_of_column c cols i :
  c ≠ "ITEM:" → c ≠ "ATOMS" →
  index_of c ("ITEM:" :: "ATOMS" :: cols) = Ok i →
  0 ≤ i - 2 ∧ cols !! Z.to_nat (i - 2) = Some c ∧
  ∀ m, (m < Z.to_nat (i - 2))%nat → cols !! m ≠ Some c.
Proof.
  intros H1 H2. unfold index_of.
  destruct (list_index c _) as [n|] eqn:Hn; [|done]. intros [= <-].
  apply list_index_lookup in Hn as [Hn Hfirst].
  destruct n as [|[|n]]; simpl in Hn; [congruence..|].
  replace (Z.to_nat (Z.of_nat (S (S n)) - 2)) with n by lia.
  split_and!; [lia|done|]. intros m Hm. apply (Hfirst (S (S m))). lia.
Qed.

(** X4.  The header scan of a dump file locates the five columns by their
    names: for an [ITEM: ATOMS] line that lists the columns [cols], each of
    the stored indices [id_idx], [tidx], [xidx], [yidx], [zidx] is the
    position in [cols] of the first column called [id], [type], [x], [y],
    [z], so that it selects, in a line of the section, the field under
    that column. *)
Theorem set_columns_locates (self : Detect) (cols : list string) (self' : Detect) :
  set_columns self ("ITEM:" :: "ATOMS" :: cols) = Ok self' →
  Forall2 (λ (idx : option Z) (c : string),
             ∃ i : nat, idx = Some (Z.of_nat i) ∧ cols !! i = Some c ∧
                        ∀ m, (m < i)%nat → cols !! m ≠ Some c)
    [id_idx self'; tidx self'; xidx self'; yidx self'; zidx self']
    ["id"; "type"; "x"; "y"; "z"].
Proof.
  unfold set_columns. intros (i & Hi & H)%bind_Ok.
  apply bind_Ok in H as (t & Ht & H). apply bind_Ok in H as (x & Hx & H).
  apply bind_Ok in H as (y & Hy & H). apply bind_Ok in H as (z & Hz & [= <-]).
  cbn [id_idx tidx xidx yidx zidx].
  apply index_of_column in Hi as (? & ? & ?); [|done..].
  apply index_of_column in Ht as (? & ? & ?); [|done..].
  apply index_of_column in Hx as (? & ? & ?); [|done..].
  apply index_of_column in Hy as (? & ? & ?); [|done..].
  apply index_of_column in Hz as (? & ? & ?); [|done..].
  repeat constructor.
  - exists (Z.to_nat (i - 2)). split_and!; [f_equal; lia|done..].
  - exists (Z.to_nat (t - 2)). split_and!; [f_equal; lia|done..].
  - exists (Z.to_nat (x - 2)). split_and!; [f_equal; lia|done..].
  - exists (Z.to_nat (y - 2)). split_and!; [f_equal; lia|done..].
  - exists (Z.to_nat (z - 2)). split_and!; [f_equal; lia|done..].
Qed.

Lemma set_columns_locates_witness :
  Forall2 (λ (idx : option Z) (c : string),
             ∃ i : nat, idx = Some (Z.of_nat i)
                        ∧ ["type"; "q"; "id"; "z"; "x"; "y"] !! i = Some c
                        ∧ ∀ m, (m < i)%nat → ["type"; "q"; "id"; "z"; "x"; "y"] !! m ≠ Some c)
    [Some 2; Some 0; Some 4; Some 5; Some 3]
    ["id"; "type"; "x"; "y"; "z"].
Proof.
  apply (set_columns_locates example_self ["type"; "q"; "id"; "z"; "x"; "y"]
           (mkDetect ["H"; "O"] 2 false None None
              (Some 2) (Some 0) (Some 4) (Some 5) (Some 3))).
  reflexivity.
Defined.

(** ** The atoms in the order of their ids *)

Lemma StronglySorted_fmap {A B} (R : relation B) (f : A → B) (l : list A) :
  StronglySorted (λ x y, R (f x) (f y)) l → StronglySorted R (f <$> l).
Proof.
  induction 1 as [|x l Hl IH Hx]; [constructor|]. rewrite fmap_cons.
  constructor; [done|]. rewrite Forall_forall in Hx. apply Forall_forall.
  intros y (z & -> & Hz)%list_elem_of_fmap. by apply Hx.
Qed.

Lemma seqZ_le_sorted start len : StronglySorted Z.le (seqZ start len).
Proof.
  pose proof (seqZ_strictly_sorted start len) as Hs.
  induction Hs as [|x l Hl IH Hx]; constructor; [done|].
  eapply Forall_impl; [done|]. intros y ?. simpl in *. lia.
Qed.

(** X5.  When the ids of the atoms of a block are the numbers 1 to [n] in
    some order, the sorted atoms list the [n] atoms with the atom of id [k]
    at index [k - 1]: the AtomIndex of an atom is its id less one, whatever
    the order of the lines. *)
Theorem atoms_by_id_index (step_atoms : list (Z * Atom)) (n : nat) :
  (0 < n)%nat →
  step_atoms.*1 ≡ₚ seqZ 1 (Z.of_nat n) →
  ∃ atoms, atoms_by_id step_atoms = Ok atoms ∧ length atoms = n ∧
           ∀ k a, (k, a) ∈ step_atoms → atoms !! Z.to_nat (k - 1) = Some a.
Proof.
  intros Hn Hperm.
  assert (step_atoms ≠ []) as Hne.
  { intros ->. apply Permutation_length in Hperm. rewrite length_seqZ in Hperm.
    simpl in Hperm. lia. }
  exists (sorted_by fst step_atoms).*2.
  assert ((sorted_by fst step_atoms).*1 = seqZ 1 (Z.of_nat n)) as Hids.
  { apply (StronglySorted_unique Z.le).
    - apply StronglySorted_fmap, sorted_by_sorted.
    - apply seqZ_le_sorted.
    - by rewrite sorted_by_perm. }
  split_and!.
  - unfold atoms_by_id. by destruct step_atoms.
  - rewrite length_fmap, <- (length_fmap fst), Hids, length_seqZ. lia.
  - intros k a Hin. rewrite <- (sorted_by_perm fst) in Hin.
    apply list_elem_of_lookup in Hin as [j Hj].
    assert ((sorted_by fst step_atoms).*1 !! j = Some k) as Hk
      by (by rewrite list_lookup_fmap, Hj).
    rewrite Hids in Hk. apply lookup_seqZ in Hk as [-> _].
    replace (Z.to_nat (1 + Z.of_nat j - 1)) with j by lia.
    by rewrite list_lookup_fmap, Hj.
Qed.

Lemma atoms_by_id_index_witness :
  ∃ atoms,
    atoms_by_id [(2, mkAtom "O" (9, 0, 0)%Q); (1, mkAtom "H" (0, 0, 0)%Q)] = Ok atoms ∧
    length atoms = 2%nat ∧
    ∀ k a, (k, a) ∈ [(2, mkAtom "O" (9, 0, 0)%Q); (1, mkAtom "H" (0, 0, 0)%Q)] →
           atoms !! Z.to_nat (k - 1) = Some a.
Proof.
  apply (atoms_by_id_index
           [(2, mkAtom "O" (9, 0, 0)%Q); (1, mkAtom "H" (0, 0, 0)%Q)] 2).
  - lia.
  - apply Permutation_swap.
Defined.

(** ** The timestep of a block of a bond file *)

Lemma timestep_line_first_char c line :
  startswith (String c line) "# Timestep" = true → Ascii.eqb c "#" = true.
Proof.
  unfold startswith. intros (r & Hr)%prefix_inv. by injection Hr as -> _.
Qed.

Lemma bond_step_line_timestep st line st1 :
  bond_step_line st line = Ok st1 →
  if startswith line "# Timestep"
  then ∃ tok t, getitem (split line) (-1) = Ok tok ∧ py_int tok = Ok t
                ∧ b_timestep st1 = Some t
  else b_timestep st1 = b_timestep st.
Proof.
  unfold bond_step_line. destruct line as [|c line].
  { intros [= <-]. reflexivity. }
  destruct (startswith (String c line) "# Timestep") eqn:Hts.
  - rewrite (timestep_line_first_char _ _ Hts).
    intros (tok & Htok & H)%bind_Ok. apply bind_Ok in H as (t & Ht & [= <-]).
    by exists tok, t.
  - destruct (Ascii.eqb c "#"); [by intros [= <-]|].
    intros (a0 & _ & H)%bind_Ok. apply bind_Ok in H as (i0 & _ & H).
    apply bind_Ok in H as (a2 & _ & H). apply bind_Ok in H as (s2 & _ & H).
    apply bind_Ok in H as (bond' & _ & H).
    by apply bind_Ok in H as (level' & _ & [= <-]).
Qed.

Lemma bond_scan_timestep lines st st' :
  for_each bond_step_line lines st = Ok st' →
  (b_timestep st' = b_timestep st
   ∧ Forall (λ l, startswith l "# Timestep" = false) lines)
  ∨ ∃ pre line post tok t,
      lines = pre ++ line :: post ∧ startswith line "# Timestep" = true
      ∧ Forall (λ l, startswith l "# Timestep" = false) post
      ∧ getitem (split line) (-1) = Ok tok ∧ py_int tok = Ok t
      ∧ b_timestep st' = Some t.
Proof.
  revert st. induction lines as [|line lines IH]; intros st; cbn [for_each].
  - intros [= <-]. by left.
  - intros (st1 & Hline & Hrest)%bind_Ok.
    destruct (IH _ Hrest) as [[Heq Hnone]|(pre & l & post & tok & t & -> & H)].
    + apply bond_step_line_timestep in Hline.
      destruct (startswith line "# Timestep") eqn:Hts.
      * destruct Hline as (tok & t & Htok & Ht & Hst1). right.
        exists [], line, lines, tok, t. split_and!; try done. congruence.
      * left. split; [congruence|]. by constructor.
    + right. by exists (line :: pre), l, post, tok, t.
Qed.

(** X6.  When the reader of a block of a bond file returns, the step index
    it returns is the one it was given, and the timestep is the integer
    value of the last field of the last line of the block that starts with
    [# Timestep]; so a block without such a line never gives a result.
    This holds whatever molecules the block holds. *)
Theorem bond_readstepfunc_timestep (self : Detect) (step : Z) (lines : list string)
    (molecules : list MoleculeKey) (s t : Z) :
  bond_readstepfunc self (step, lines) = Ok (molecules, (s, t)) →
  s = step ∧
  ∃ pre line post tok,
    lines = pre ++ line :: post ∧ startswith line "# Timestep" = true
    ∧ Forall (λ l, startswith l "# Timestep" = false) post
    ∧ getitem (split line) (-1) = Ok tok ∧ py_int tok = Ok t.
Proof.
  unfold bond_readstepfunc. intros (N & _ & H)%bind_Ok.
  apply bind_Ok in H as (st & Hscan & H). apply bind_Ok in H as (bond & _ & H).
  apply bind_Ok in H as (level & _ & H). apply bind_Ok in H as (mols & _ & H).
  apply bind_Ok in H as (ts & Hts & [= _ <- <-]). split; [done|].
  destruct (bond_scan_timestep _ _ _ Hscan)
    as [[Heq _]|(pre & line & post & tok & t & -> & ? & ? & ? & ? & Ht)].
  - rewrite Heq in Hts. done.
  - exists pre, line, post, tok. split_and!; try done.
    rewrite Ht in Hts. injection Hts as <-. done.
Qed.

Lemma bond_readstepfunc_timestep_witness :
  7 = 7 ∧
  ∃ pre line post tok,
    example_block "10" "1.4" ++ example_block "20" "2.5" = pre ++ line :: post
    ∧ startswith line "# Timestep" = true
    ∧ Forall (λ l, startswith l "# Timestep" = false) post
    ∧ getitem (split line) (-1) = Ok tok ∧ py_int tok = Ok 20.
Proof.
  eapply (bond_readstepfunc_timestep example_self_scanned 7
            (example_block "10" "1.4" ++ example_block "20" "2.5") _ 7 20).
  vm_compute. reflexivity.
Defined.

(** ** A block of a dump file without atoms *)

Lemma linecontent_of_atoms line :
  linecontent_of line = ATOMS → startswith line "ITEM: ATOMS" = true.
Proof.
  unfold linecontent_of. by repeat destruct (startswith line _).
Qed.

Lemma dump_step_line_no_atoms self step st line st' :
  startswith line "ITEM: ATOMS" = false →
  s_linecontent st ≠ Some ATOMS → s_step_atoms st = [] →
  dump_step_line self step st line = Ok st' →
  s_linecontent st' ≠ Some ATOMS ∧ s_step_atoms st' = [].
Proof.
  intros Hline Hlc Hnil. unfold dump_step_line.
  destruct line as [|c line]; [by intros [= <-]|].
  destruct (startswith (String c line) "ITEM:").
  - intros [= <-]. cbn [s_linecontent s_step_atoms]. split; [|done].
    intros [= Heq]. apply linecontent_of_atoms in Heq. congruence.
  - intros (lc & Hl & H)%bind_Ok.
    destruct (s_linecontent st) as [lc'|] eqn:Hlc'; [|done]. injection Hl as ->.
    rewrite decide_False in H by congruence.
    repeat case_decide.
    + apply bind_Ok in H as (t & _ & H). apply bind_Ok in H as (n & _ & [= <-]).
      cbn [s_linecontent s_step_atoms]. split; congruence.
    + apply bind_Ok in H as (f1 & _ & H). apply bind_Ok in H as (hi & _ & H).
      apply bind_Ok in H as (f0 & _ & H). apply bind_Ok in H as (lo & _ & [= <-]).
      cbn [s_linecontent s_step_atoms]. split; congruence.
    + injection H as <-. split; congruence.
Qed.

Lemma dump_scan_no_atoms self step lines st st' :
  Forall (λ l, startswith l "ITEM: ATOMS" = false) lines →
  s_linecontent st ≠ Some ATOMS → s_step_atoms st = [] →
  for_each (dump_step_line self step) lines st = Ok st' →
  s_step_atoms st' = [].
Proof.
  intros Hlines. revert st.
  induction Hlines as [|line lines Hline Hlines IH]; intros st Hlc Hnil; cbn [for_each].
  - by intros [= <-].
  - intros (st1 & Hst1 & Hrest)%bind_Ok.
    destruct (dump_step_line_no_atoms _ _ _ _ _ Hline Hlc Hnil Hst1) as [? ?].
    by eapply IH.
Qed.

(** X7.  The reader of a block of a dump file gives no result for a block
    in which no line starts with [ITEM: ATOMS] (an empty block, or a block
    cut short of its atoms): when the loop over the lines raises nothing,
    no atom was collected and unpacking the sorted atoms raises
    [ValueError]. *)
Theorem dump_readstepfunc_no_atoms (oracle : list Atom → string) (self : Detect)
    (step : Z) (lines : list string) :
  Forall (λ l, startswith l "ITEM: ATOMS" = false) lines →
  ∃ e, dump_readstepfunc oracle self (step, lines) = Raise e ∧
       (dump_scan self step lines = Raise e
        ∨ e = ValueError "not enough values to unpack (expected 2, got 0)").
Proof.
  intros Hlines. unfold dump_readstepfunc.
  destruct (dump_scan self step lines) as [st|e] eqn:Hscan.
  - apply dump_scan_no_atoms in Hscan; [|done..].
    eexists. split; [|by right]. cbn [mbind result_bind]. unfold dump_finish.
    by rewrite Hscan.
  - exists e. split; [done|by left].
Qed.

Lemma dump_readstepfunc_no_atoms_witness :
  ∃ e, dump_readstepfunc example_oracle example_dump_self
         (3, [newline "ITEM: TIMESTEP"; newline "30"; EmptyString]) = Raise e ∧
       (dump_scan example_dump_self 3 [newline "ITEM: TIMESTEP"; newline "30"; EmptyString]
          = Raise e
        ∨ e = ValueError "not enough values to unpack (expected 2, got 0)").
Proof.
  apply (dump_readstepfunc_no_atoms example_oracle example_dump_self 3
           [newline "ITEM: TIMESTEP"; newline "30"; EmptyString]).
  by repeat constructor.
Defined.

(** ** The neighbours that the coordinate path records *)

(** X8.  Every neighbour that [_getbondfromcrd] records, for an oracle
    that numbers atoms from 1, is the index of a real atom, with or without
    periodic boundaries: the index of a periodic image never reaches the
    BondGraph, so that the traversal of the graph stays within its [N]
    rows. *)
Theorem getbondfromcrd_in_range (oracle : list Atom → string) (pbc : bool)
    (step_atoms : list Atom) (cell : list Q) (bond bondlevel : list (list Z)) :
  oracle_ids_from_one oracle →
  _getbondfromcrd oracle pbc step_atoms cell = Ok (bond, bondlevel) →
  length bond = length step_atoms ∧
  Forall (Forall (in_range (length step_atoms))) bond.
Proof.
  intros Hids Hrun.
  apply getbondfromcrd_spec in Hrun
    as (rn & all_atoms & kept & _ & _ & Hall & Hb & _ & Hrows); [|done].
  split; [done|]. apply Forall_lookup. intros n row Hrow.
  destruct (Hrows n) as [Hr _]; [rewrite <- Hb; by eapply lookup_lt_Some|].
  rewrite Hr in Hrow. injection Hrow as <-.
  apply Forall_forall. intros b ([b' o] & -> & Hin)%list_elem_of_fmap.
  rewrite Forall_forall in Hall.
  apply elem_of_half_bonds in Hin as [Hin|Hin]; apply Hall in Hin as [? ?]; done.
Qed.

Lemma getbondfromcrd_in_range_witness :
  length [[1; 1]; [0; 0]] = length example_atoms ∧
  Forall (Forall (in_range (length example_atoms))) [[1; 1]; [0; 0]].
Proof.
  apply (getbondfromcrd_in_range example_oracle true example_atoms example_cell
           [[1; 1]; [0; 0]] [[12; 2]; [12; 2]]).
  - intros atoms. reflexivity.
  - reflexivity.
Defined.

(** ** The dictionary and the timesteps of the merge loop *)

(** X9.  The merge loop of [_readinputfile] leaves a dictionary in which
    every key occurs once, and the occurrence list of a key is made of the
    step indices of the results, in the order in which the results arrive,
    each one as often as the key occurs among the molecules of that
    result; a key that no result holds is not in the dictionary. *)
Theorem merge_loop_occurrences
    (rs : list (Z * result (list MoleculeKey * (Z * Z))))
    (d : list (MoleculeKey * list Z)) (timestep : gmap Z Z) :
  for_each merge_result rs ([], ∅) = Ok (d, timestep) →
  NoDup d.*1 ∧
  ∀ molecule, dict_get d molecule = match steps_of molecule rs with
                                    | [] => None
                                    | steps => Some steps
                                    end.
Proof.
  intros (Hnd & Hget & _)%merge_loop_spec. cbn [fst snd] in *. split.
  - apply Hnd, NoDup_nil_2.
  - intros k. rewrite Hget. cbn [dict_get]. by destruct (steps_of k rs).
Qed.

Lemma merge_loop_occurrences_witness :
  NoDup [([1], [0; 0]); ([2], [0; 2])].*1 ∧
  ∀ molecule, dict_get [([1], [0; 0]); ([2], [0; 2])] molecule
              = match steps_of molecule example_results with
                | [] => None
                | steps => Some steps
                end.
Proof.
  apply (merge_loop_occurrences example_results [([1], [0; 0]); ([2], [0; 2])]
           (<[2 := 120]> (<[0 := 100]> ∅))).
  reflexivity.
Defined.

(** X10.  The merge loop records for a step index the timestep of the last
    result that carries this index, and nothing for an index that no result
    carries. *)
Theorem merge_loop_timestep
    (rs : list (Z * result (list MoleculeKey * (Z * Z))))
    (d : list (MoleculeKey * list Z)) (timestep : gmap Z Z) :
  for_each merge_result rs ([], ∅) = Ok (d, timestep) →
  ∀ s, timestep !! s = last (timesteps_of s rs).
Proof.
  intros (_ & _ & Hts)%merge_loop_spec s. cbn [fst snd] in *.
  rewrite Hts, lookup_empty. by destruct (last _).
Qed.

Lemma merge_loop_timestep_witness :
  (<[2 := 120]> (<[0 := 100]> ∅) : gmap Z Z) !! 2
  = last (timesteps_of 2 example_results)
  ∧ (<[2 := 120]> (<[0 := 100]> ∅) : gmap Z Z) !! 1
    = last (timesteps_of 1 example_results).
Proof.
  split;
    apply (merge_loop_timestep example_results [([1], [0; 0]); ([2], [0; 2])]
             (<[2 := 120]> (<[0 := 100]> ∅)));
    reflexivity.
Defined.

(** ** The fields of an atom line of a dump file *)

Lemma list_index_lt x l n : list_index x l = Some n → (n < length l)%nat.
Proof.
  intros [Hn _]%list_index_lookup. by eapply lookup_lt_Some.
Qed.

Lemma index_of_cols name cols i :
  name ≠ "ITEM:" → name ≠ "ATOMS" →
  index_of name ("ITEM:" :: "ATOMS" :: cols) = Ok i →
  ∃ n, list_index name cols = Some n ∧ i - 2 = Z.of_nat n.
Proof.
  intros H1 H2. unfold index_of. cbn [list_index].
  destruct (String.eqb_spec name "ITEM:") as [?|_]; [done|].
  destruct (String.eqb_spec name "ATOMS") as [?|_]; [done|].
  destruct (list_index name cols) as [n|]; [|done]. cbn. intros [= <-].
  exists n. split; [done|lia].
Qed.

Lemma getitem_lookup {A} (l : list A) (n : nat) (x : A) :
  l !! n = Some x → getitem l (Z.of_nat n) = Ok x.
Proof.
  intros Hx. unfold getitem, py_index.
  rewrite bool_decide_true by (apply lookup_lt_Some in Hx; lia).
  cbn [mbind result_bind]. by rewrite Nat2Z.id, Hx.
Qed.

Lemma field_column s cols name attrname n :
  list_index name cols = Some n → (length cols ≤ length s)%nat →
  ∃ v, column cols s name = Some v ∧ field s attrname (Some (Z.of_nat n)) = Ok v.
Proof.
  intros Hn Hlen. destruct (lookup_lt_is_Some_2 s n) as [v Hv].
  { apply list_index_lt in Hn. lia. }
  exists v. split.
  - unfold column. rewrite Hn. done.
  - unfold field. cbn [attr mbind result_bind]. by apply getitem_lookup.
Qed.

(** X11.  The two scans of a dump file agree on the columns: with the
    indices that the header scan stored from the line [ITEM: ATOMS cols],
    the step reader makes of an atom line that has a field for every
    column the pair of the integer under [id] and of the atom whose name is
    that of the type under [type] (types numbered from 1) and whose
    position is made of the numbers under [x], [y] and [z], wherever these
    columns stand. *)
Theorem atom_of_line_columns (self : Detect) (cols : list string) (self' : Detect)
    (line : string) :
  set_columns self ("ITEM:" :: "ATOMS" :: cols) = Ok self' →
  (length cols ≤ length (split line))%nat →
  ∃ vid vt vx vy vz,
    Forall2 (λ name v, column cols (split line) name = Some v)
      ["id"; "type"; "x"; "y"; "z"] [vid; vt; vx; vy; vz] ∧
    atom_of_line self' line
    = (id ← py_int vid ; t ← py_int vt ;
       name ← getitem (atomname self) (t - 1) ;
       x ← py_float vx ; y ← py_float vy ; z ← py_float vz ;
       Ok (id, mkAtom name (x, y, z))).
Proof.
  unfold set_columns. intros (i & Hi & H)%bind_Ok Hlen.
  apply bind_Ok in H as (t & Ht & H). apply bind_Ok in H as (x & Hx & H).
  apply bind_Ok in H as (y & Hy & H). apply bind_Ok in H as (z & Hz & [= <-]).
  apply index_of_cols in Hi as (ni & Hni & ->); [|done..].
  apply index_of_cols in Ht as (nt & Hnt & ->); [|done..].
  apply index_of_cols in Hx as (nx & Hnx & ->); [|done..].
  apply index_of_cols in Hy as (ny & Hny & ->); [|done..].
  apply index_of_cols in Hz as (nz & Hnz & ->); [|done..].
  destruct (field_column (split line) cols "id" "id_idx" ni Hni Hlen) as (vid & ? & Hfi).
  destruct (field_column (split line) cols "type" "tidx" nt Hnt Hlen) as (vt & ? & Hft).
  destruct (field_column (split line) cols "x" "xidx" nx Hnx Hlen) as (vx & ? & Hfx).
  destruct (field_column (split line) cols "y" "yidx" ny Hny Hlen) as (vy & ? & Hfy).
  destruct (field_column (split line) cols "z" "zidx" nz Hnz Hlen) as (vz & ? & Hfz).
  exists vid, vt, vx, vy, vz. split; [by repeat constructor|].
  unfold atom_of_line. cbn [id_idx tidx xidx yidx zidx atomname].
  ok_step Hfi. destruct (py_int vid) as [id|e]; [|done]. cbn [mbind result_bind].
  ok_step Hft. destruct (py_int vt) as [ty|e]; [|done]. cbn [mbind result_bind].
  destruct (getitem (atomname self) (ty - 1)) as [name|e]; [|done].
  cbn [mbind result_bind].
  ok_step Hfx. destruct (py_float vx) as [fx|e]; [|done]. cbn [mbind result_bind].
  ok_step Hfy. destruct (py_float vy) as [fy|e]; [|done]. cbn [mbind result_bind].
  by ok_step Hfz.
Qed.

Lemma atom_of_line_columns_witness :
  ∃ vid vt vx vy vz,
    Forall2 (λ name v, column ["type"; "q"; "id"; "z"; "x"; "y"]
                         (split "2 -0.4 7 3.5 1.5 2.5") name = Some v)
      ["id"; "type"; "x"; "y"; "z"] [vid; vt; vx; vy; vz] ∧
    atom_of_line
      (mkDetect ["H"; "O"] 2 false None None
         (Some 2) (Some 0) (Some 4) (Some 5) (Some 3))
      "2 -0.4 7 3.5 1.5 2.5"
    = (id ← py_int vid ; t ← py_int vt ;
       name ← getitem (atomname example_self) (t - 1) ;
       x ← py_float vx ; y ← py_float vy ; z ← py_float vz ;
       Ok (id, mkAtom name (x, y, z))).
Proof.
  apply (atom_of_line_columns example_self ["type"; "q"; "id"; "z"; "x"; "y"]).
  - reflexivity.
  - vm_compute. lia.
Defined.

(** ** The fields of an atom line of a bond file *)

Lemma clip_in_range len i : 0 ≤ i ≤ Z.of_nat len → clip len i = Z.to_nat i.
Proof.
  intros Hi. unfold clip. rewrite bool_decide_false by lia. f_equal. lia.
Qed.

Lemma py_slice_middle {A} (l1 l2 l3 : list A) :
  py_slice (l1 ++ l2 ++ l3) (Z.of_nat (length l1))
    (Z.of_nat (length l1) + Z.of_nat (length l2)) = l2.
Proof.
  unfold py_slice, slice. rewrite !clip_in_range by (rewrite !length_app; lia).
  rewrite Nat2Z.id.
  replace (Z.to_nat (Z.of_nat (length l1) + Z.of_nat (length l2)) - length l1)%nat
    with (length l2) by lia.
  by rewrite drop_app_length, take_app_length.
Qed.

(** X12.  An atom line of a bond file is read by position: the first field
    is the atom id, the third the number [nb] of neighbours, the next [nb]
    fields are the neighbour ids, one field (the molecule id) is skipped,
    and the next [nb] fields are the bond orders.  The line sets the row of
    the atom (ids from 1) to two [map] objects, of [int(x)-1] over the
    neighbour fields and of [max(1, round(float(x)))] over the bond-order
    fields, and leaves the timestep and the other rows as they are.  These
    fields are not converted by the line: whatever they hold, it does not
    fail. *)
Theorem bond_step_line_fields (st : bond_step) (line : string) (c : ascii)
    (id ty nb mol : string) (ns bos rest : list string) (i : Z) :
  first_char line = Ok c → c ≠ "#"%char →
  split line = id :: ty :: nb :: ns ++ mol :: bos ++ rest →
  py_int id = Ok i → 1 ≤ i ≤ Z.of_nat (length (b_bond st)) →
  length (b_level st) = length (b_bond st) →
  py_int nb = Ok (Z.of_nat (length ns)) → length bos = length ns →
  bond_step_line st line
  = Ok (mkBondStep
          (<[Z.to_nat (i - 1) := Some (mkMap neighbour_index ns)]> (b_bond st))
          (<[Z.to_nat (i - 1) := Some (mkMap bond_order bos)]> (b_level st))
          (b_timestep st)).
Proof.
  intros Hc Hne Hs Hid Hi Hlen Hnb Hbos. unfold bond_step_line.
  destruct line as [|c' line]; [done|]. injection Hc as ->.
  rewrite (proj2 (Ascii.eqb_neq c "#") Hne). rewrite Hs.
  assert (getitem (id :: ty :: nb :: ns ++ mol :: bos ++ rest) 0 = Ok id) as H0
    by (by apply (getitem_lookup _ 0%nat)).
  assert (getitem (id :: ty :: nb :: ns ++ mol :: bos ++ rest) 2 = Ok nb) as H2
    by (by apply (getitem_lookup _ 2%nat)).
  ok_step H0. ok_step Hid. ok_step H2. ok_step Hnb.
  assert (in_range (length (b_bond st)) (i - 1)) as Hin by (unfold in_range; lia).
  assert (py_slice (id :: ty :: nb :: ns ++ mol :: bos ++ rest) 3
            (3 + Z.of_nat (length ns)) = ns) as ->
    by apply (py_slice_middle [id; ty; nb] ns (mol :: bos ++ rest)).
  assert (py_slice (id :: ty :: nb :: ns ++ mol :: bos ++ rest)
            (4 + Z.of_nat (length ns)) (4 + 2 * Z.of_nat (length ns)) = bos) as ->.
  { pose proof (py_slice_middle ([id; ty; nb] ++ ns ++ [mol]) bos rest) as Hsl.
    rewrite !length_app in Hsl. cbn [length] in Hsl. rewrite Hbos in Hsl.
    rewrite <- !app_assoc in Hsl. cbn [app] in Hsl.
    replace (4 + Z.of_nat (length ns)) with (Z.of_nat (3 + (length ns + 1))) by lia.
    replace (4 + 2 * Z.of_nat (length ns))
      with (Z.of_nat (3 + (length ns + 1)) + Z.of_nat (length ns)) by lia.
    exact Hsl. }
  unfold setitem. rewrite (py_index_in_range _ _ Hin). cbn [mbind result_bind].
  rewrite Hlen, (py_index_in_range _ _ Hin). done.
Qed.

(** A line whose bond-order field is no number: the line is stored, and
    the conversion fails when the row is read. *)
Lemma bond_step_line_fields_witness :
  bond_step_line (mkBondStep [None; None; None] [None; None; None] None)
    " 1 1 2 2 3 0 1.4 x 3.9 0.0 0.1"
  = Ok (mkBondStep
          (<[Z.to_nat (1 - 1) := Some (mkMap neighbour_index ["2"; "3"])]>
             (b_bond (mkBondStep [None; None; None] [None; None; None] None)))
          (<[Z.to_nat (1 - 1) := Some (mkMap bond_order ["1.4"; "x"])]>
             (b_level (mkBondStep [None; None; None] [None; None; None] None)))
          (b_timestep (mkBondStep [None; None; None] [None; None; None] None))).
Proof.
  apply (bond_step_line_fields
           (mkBondStep [None; None; None] [None; None; None] None)
           " 1 1 2 2 3 0 1.4 x 3.9 0.0 0.1" " "%char
           "1" "1" "2" "0" ["2"; "3"] ["1.4"; "x"] ["3.9"; "0.0"; "0.1"] 1).
  - reflexivity.
  - discriminate.
  - reflexivity.
  - reflexivity.
  - cbn. lia.
  - reflexivity.
  - reflexivity.
  - reflexivity.
Defined.

(** ** The atom types of a dump file and its declared columns *)

Lemma set_columns_found self keys :
  missing_column keys = None → ∃ self', set_columns self keys = Ok self'.
Proof.
  unfold missing_column, set_columns. cbn [List.find].
  destruct (existsb (String.eqb "id") keys) eqn:Hid; cbn [negb]; [|done].
  destruct (index_of_found _ _ Hid) as [ni ->]. cbn [mbind result_bind].
  destruct (existsb (String.eqb "type") keys) eqn:Ht; cbn [negb]; [|done].
  destruct (index_of_found _ _ Ht) as [nt ->]. cbn [mbind result_bind].
  destruct (existsb (String.eqb "x") keys) eqn:Hx; cbn [negb]; [|done].
  destruct (index_of_found _ _ Hx) as [nx ->]. cbn [mbind result_bind].
  destruct (existsb (String.eqb "y") keys) eqn:Hy; cbn [negb]; [|done].
  destruct (index_of_found _ _ Hy) as [ny ->]. cbn [mbind result_bind].
  destruct (existsb (String.eqb "z") keys) eqn:Hz; cbn [negb]; [|done].
  destruct (index_of_found _ _ Hz) as [nz ->]. cbn [mbind result_bind].
  by eexists.
Qed.

Lemma set_columns_any self1 self2 keys self1' :
  set_columns self1 keys = Ok self1' → ∃ self2', set_columns self2 keys = Ok self2'.
Proof.
  intros H. apply set_columns_found.
  destruct (missing_column keys) as [c|] eqn:Hc; [|done].
  by rewrite (set_columns_missing _ _ _ Hc) in H.
Qed.

Lemma dump_readN_body_columns h1 h2 index l1 l2 r1 :
  same_but_indices h1 h2 → same_but_columns l1 l2 →
  dump_readN_body h1 index l1 = Ok r1 →
  ∃ r2, dump_readN_body h2 index l2 = Ok r2 ∧ same_outcome r1 r2.
Proof.
  intros [Hlc Hh] [<-|(Ha1 & Ha2 & Hcols)]; unfold dump_readN_body.
  - destruct (startswith l1 "ITEM:").
    + case_decide.
      * intros (self1 & Hset & [= <-])%bind_Ok.
        destruct (set_columns_any _ (d_self h2) _ _ Hset) as [self2 Hset2].
        ok_step Hset2. eexists. split; [done|]. by split.
      * intros [= <-]. eexists. split; [done|]. by split.
    + rewrite <- Hlc, <- Hh. intros (lc & Hl & H)%bind_Ok. ok_step Hl.
      repeat case_decide.
      * apply bind_Ok in H as (r & Hr & H). ok_step Hr. destruct r as [h'|n].
        -- apply bind_Ok in H as (n & Hn & H). ok_step Hn.
           apply bind_Ok in H as (N & HN & H). ok_step HN.
           apply bind_Ok in H as (at0 & Hat & [= <-]). ok_step Hat.
           eexists. split; [done|]. by split.
        -- injection H as <-. by exists (Break n).
      * apply bind_Ok in H as (h' & Hset & [= <-]). ok_step Hset.
        eexists. split; [done|]. by split.
      * injection H as <-. exists (Continue h2). split; [done|]. by split.
  - destruct (atoms_header _ Ha1) as [-> ->]. destruct (atoms_header _ Ha2) as [-> ->].
    rewrite !decide_True by done.
    intros (self1 & _ & [= <-])%bind_Ok.
    destruct (set_columns_found (d_self h2) _ Hcols) as [self2 Hset2].
    ok_step Hset2. eexists. split; [done|]. by split.
Qed.

Lemma enumerate_loop_columns f1 f2 index h1 h2 h1' n :
  Forall2 same_but_columns f1 f2 → same_but_indices h1 h2 →
  enumerate_loop dump_readN_body f1 index h1 = Ok (h1', n) →
  ∃ h2', enumerate_loop dump_readN_body f2 index h2 = Ok (h2', n)
         ∧ same_but_indices h1' h2'.
Proof.
  intros Hf. revert index h1 h2.
  induction Hf as [|l1 l2 f1 f2 Hl Hf IH]; intros index h1 h2 Hh; cbn [enumerate_loop].
  - case_bool_decide; [done|]. intros [= <- <-]. by exists h2.
  - intros (r1 & Hr1 & H)%bind_Ok.
    destruct (dump_readN_body_columns _ _ _ _ _ _ Hh Hl Hr1) as (r2 & Hr2 & Hsame).
    ok_step Hr2. destruct r1 as [a1|m1], r2 as [a2|m2]; try done.
    + by eapply IH.
    + cbn in Hsame. subst m2. injection H as <- <-. by exists h2.
Qed.

(** X13.  The atom types that the header scan of a dump file stores do not
    depend on the columns that the [ITEM: ATOMS] line declares: the scan
    takes the id and the type of an atom from the first two fields of its
    line, so a file whose [ITEM: ATOMS] lines declare the columns in
    another order, with the same atom lines, gives the same [N], the same
    atom types and the same number of lines per block. *)
Theorem dump_readNfunc_ignores_columns (self : Detect) (f1 f2 : list string)
    (self1 : Detect) (steplinenum : Z) :
  Forall2 same_but_columns f1 f2 →
  dump_readNfunc self f1 = Ok (self1, steplinenum) →
  ∃ self2, dump_readNfunc self f2 = Ok (self2, steplinenum)
           ∧ self_N self2 = self_N self1
           ∧ self_atomtype self2 = self_atomtype self1.
Proof.
  intros Hf. unfold dump_readNfunc. intros ([h1 n] & Hloop & Hstore)%bind_Ok.
  destruct (enumerate_loop_columns _ _ _ _ (dump_header_init self) _ _ Hf
              (conj eq_refl eq_refl) Hloop) as (h2 & Hloop2 & _ & Hh).
  ok_step Hloop2. cbn [fst snd] in *. unfold store_header in *. cbn [fst snd] in *.
  rewrite <- Hh. apply bind_Ok in Hstore as (N & HN & H). ok_step HN.
  apply bind_Ok in H as (at0 & Hat & [= <- <-]). ok_step Hat.
  eexists. split; [done|]. done.
Qed.

Lemma dump_readNfunc_ignores_columns_witness :
  ∃ self2,
    dump_readNfunc example_self
      (newline <$> ["ITEM: TIMESTEP"; "0"; "ITEM: NUMBER OF ATOMS"; "2";
                    "ITEM: ATOMS type id x y z";
                    "2 1 9.0 0.0 0.0"; "1 2 0.0 0.0 0.0"])
    = Ok (self2, 7)
    ∧ self_N self2 = Some 2 ∧ self_atomtype self2 = Some [1; 0].
Proof.
  apply (dump_readNfunc_ignores_columns example_self
           (newline <$> ["ITEM: TIMESTEP"; "0"; "ITEM: NUMBER OF ATOMS"; "2";
                         "ITEM: ATOMS id type x y z";
                         "2 1 9.0 0.0 0.0"; "1 2 0.0 0.0 0.0"])
           (newline <$> ["ITEM: TIMESTEP"; "0"; "ITEM: NUMBER OF ATOMS"; "2";
                         "ITEM: ATOMS type id x y z";
                         "2 1 9.0 0.0 0.0"; "1 2 0.0 0.0 0.0"])
           (mkDetect ["H"; "O"] 2 false (Some 2) (Some [1; 0])
              (Some 0) (Some 1) (Some 2) (Some 3) (Some 4)) 7).
  - repeat (constructor; [first [by left | right; by vm_compute]|]). constructor.
  - vm_compute. reflexivity.
Defined.

(** ** The sections of a block of a dump file *)




(** ** Blank lines in a block of a bond file *)

Lemma split_nil_first_char c line :
  split (String c line) = [] → is_space c = true.
Proof.
  cbn [split]. destruct (is_space c); [done|].
  destruct line as [|c' line]; [done|].
  destruct (is_space c'); [done|]. by destruct (split (String c' line)).
Qed.

Lemma bond_step_line_blank st line :
  line ≠ EmptyString → split line = [] →
  bond_step_line st line = Raise (IndexError "list index out of range").
Proof.
  intros Hne Hs. unfold bond_step_line. destruct line as [|c line]; [done|].
  rewrite Hs. apply split_nil_first_char in Hs.
  destruct (Ascii.eqb_spec c "#") as [->|_]; [done|]. reflexivity.
Qed.

Lemma for_each_raises {A S} (body : S → A → result S) (l : list A) (x : A) (s : S) :
  x ∈ l → (∀ s', ∃ e, body s' x = Raise e) → ∃ e, for_each body l s = Raise e.
Proof.
  intros Hx Hbody. revert s.
  induction l as [|y l IH]; intros s; [by apply elem_of_nil in Hx|].
  cbn [for_each]. apply elem_of_cons in Hx as [<-|Hx].
  - destruct (Hbody s) as [e ->]. by exists e.
  - destruct (body s y) as [s'|e]; [|by exists e]. cbn [mbind result_bind]. by apply IH.
Qed.

(** X15.  A blank line, that is a line that is not empty and holds only
    white space (a lone newline for instance), makes the reader of a block
    of a bond file fail wherever it stands in the block: only the empty
    string is skipped, and a blank line is read as an atom line without
    fields, which raises [IndexError]. *)
Theorem bond_readstepfunc_blank_line (self : Detect) (step : Z)
    (lines : list string) (line : string) :
  line ∈ lines → line ≠ EmptyString → split line = [] →
  (∀ st, bond_step_line st line = Raise (IndexError "list index out of range"))
  ∧ ∃ e, bond_readstepfunc self (step, lines) = Raise e.
Proof.
  intros Hin Hne Hs. split; [intros st; by apply bond_step_line_blank|].
  unfold bond_readstepfunc. destruct (attr "N" (self_N self)) as [N|e]; [|by exists e].
  cbn [mbind result_bind].
  destruct (for_each_raises bond_step_line lines line
              (mkBondStep (replicate (Z.to_nat N) None) (replicate (Z.to_nat N) None) None)
              Hin) as [e ->]; [|by exists e].
  intros st. eexists. by apply bond_step_line_blank.
Qed.

Lemma bond_readstepfunc_blank_line_witness :
  (∀ st, bond_step_line st (newline EmptyString)
         = Raise (IndexError "list index out of range"))
  ∧ ∃ e, bond_readstepfunc example_self_scanned
           (1, example_block "10" "1.4" ++ [newline EmptyString]) = Raise e.
Proof.
  apply (bond_readstepfunc_blank_line example_self_scanned 1
           (example_block "10" "1.4" ++ [newline EmptyString]) (newline EmptyString)).
  - apply elem_of_app. right. by left.
  - discriminate.
  - reflexivity.
Defined.

(** ** The block length of a dump file *)

Lemma dump_readN_body_item h index line r :
  startswith line "ITEM:" = true →
  dump_readN_body h index line = Ok r →
  ∃ h1, r = Continue h1 ∧ d_linecontent h1 = Some (linecontent_of line)
        ∧ d_header h1 = d_header h.
Proof.
  unfold dump_readN_body. intros ->. case_decide.
  - intros (self' & _ & [= <-])%bind_Ok. by eexists.
  - intros [= <-]. by eexists.
Qed.

Lemma dump_readN_body_number h index line r :
  startswith line "ITEM:" = false → d_linecontent h = Some NUMBER →
  dump_readN_body h index line = Ok r →
  if iscompleted (d_header h)
  then ∃ a, stepaindex (d_header h) = Some a ∧ r = Break (index - a)
  else ∃ h1, r = Continue h1 ∧ d_linecontent h1 = Some NUMBER
             ∧ iscompleted (d_header h1) = true
             ∧ stepaindex (d_header h1) = Some index.
Proof.
  unfold dump_readN_body, delimiter. intros -> Hlc. rewrite Hlc.
  cbn [local mbind result_bind]. rewrite decide_True by done.
  destruct (iscompleted (d_header h)).
  - destruct (stepaindex (d_header h)) as [a|]; [|done].
    cbn [local mbind result_bind]. intros [= <-]. by exists a.
  - cbn [mbind result_bind]. intros (n & _ & H)%bind_Ok.
    apply bind_Ok in H as (N & _ & H). apply bind_Ok in H as (at0 & _ & [= <-]).
    by eexists.
Qed.

Lemma dump_readN_body_data h index line r :
  startswith line "ITEM:" = false → d_linecontent h ≠ Some NUMBER →
  dump_readN_body h index line = Ok r →
  ∃ h1, r = Continue h1 ∧ d_linecontent h1 = d_linecontent h
        ∧ iscompleted (d_header h1) = iscompleted (d_header h)
        ∧ stepaindex (d_header h1) = stepaindex (d_header h).
Proof.
  unfold dump_readN_body. intros -> Hlc. intros (lc & Hl & H)%bind_Ok.
  destruct (d_linecontent h) as [lc0|] eqn:Hlc0; [|done]. injection Hl as ->.
  rewrite decide_False in H by congruence. case_decide.
  - apply bind_Ok in H as (h' & Hset & [= <-]). eexists. split; [done|].
    cbn [d_linecontent d_header]. split; [done|].
    unfold set_atomtype in Hset. apply bind_Ok in Hset as (a1 & _ & H).
    apply bind_Ok in H as (t & _ & H). apply bind_Ok in H as (atomtype & _ & H).
    apply bind_Ok in H as (a0 & _ & H). apply bind_Ok in H as (i & _ & H).
    by apply bind_Ok in H as (atomtype' & _ & [= <-]).
  - injection H as <-. by exists h.
Qed.

Lemma dump_loop_steplinenum f index h h' n :
  enumerate_loop dump_readN_body f index h = Ok (h', n) →
  if iscompleted (d_header h)
  then match number_lines (d_linecontent h) index f with
       | j :: _ => ∃ a, stepaindex (d_header h) = Some a ∧ n = j - a
       | [] => n = index + Z.of_nat (length f)
       end
  else match number_lines (d_linecontent h) index f with
       | i :: j :: _ => n = j - i
       | _ => n = index + Z.of_nat (length f)
       end.
Proof.
  revert index h. induction f as [|line f IH]; intros index h; cbn [enumerate_loop].
  { case_bool_decide; [done|]. intros [= _ <-]. cbn [number_lines length].
    destruct (iscompleted _); lia. }
  intros (r & Hr & Hloop)%bind_Ok. cbn [number_lines].
  assert (index + 1 + Z.of_nat (length f) = index + Z.of_nat (length (line :: f)))
    as Hlen by (rewrite length_cons; lia).
  destruct (startswith line "ITEM:") eqn:Hitem.
  - apply dump_readN_body_item in Hr as (h1 & -> & Hlc1 & Hh1); [|done].
    apply IH in Hloop. rewrite Hlc1, Hh1, Hlen in Hloop. done.
  - destruct (decide (d_linecontent h = Some NUMBER)) as [Hnum|Hnum].
    + apply dump_readN_body_number in Hr; [|done..].
      destruct (iscompleted (d_header h)).
      * destruct Hr as (a & Ha & ->). injection Hloop as _ <-. by exists a.
      * destruct Hr as (h1 & -> & Hlc1 & Hc1 & Ha1). apply IH in Hloop.
        rewrite Hc1, Hlc1, Ha1, Hlen in Hloop. rewrite Hnum.
        destruct (number_lines (Some NUMBER) (index + 1) f) as [|j ps]; [done|].
        destruct Hloop as (a & [= <-] & ->). done.
    + apply dump_readN_body_data in Hr as (h1 & -> & Hlc1 & Hc1 & Ha1); [|done..].
      apply IH in Hloop. rewrite Hlc1, Hc1, Ha1, Hlen in Hloop. done.
Qed.

(** X16.  When the header scan of a dump file returns, the block length it
    returns is the distance between the first two lines that it takes for
    atom counts (the lines under an [ITEM: NUMBER OF ATOMS] header), and it
    is the number of lines of the file when there are less than two such
    lines. *)
Theorem dump_readNfunc_steplinenum (self : Detect) (f : list string)
    (self' : Detect) (steplinenum : Z) :
  dump_readNfunc self f = Ok (self', steplinenum) →
  steplinenum = match number_lines None 0 f with
                | i :: j :: _ => j - i
                | _ => Z.of_nat (length f)
                end.
Proof.
  unfold dump_readNfunc. intros ([h n] & Hloop & Hstore)%bind_Ok.
  apply store_header_steplinenum in Hstore. cbn [snd] in Hstore. subst steplinenum.
  apply dump_loop_steplinenum in Hloop. cbn [dump_header_init d_header d_linecontent
    iscompleted] in Hloop.
  destruct (number_lines None 0 f) as [|i [|j ps]]; lia.
Qed.

Lemma dump_readNfunc_steplinenum_witness :
  11 = match number_lines None 0
               ((example_dump_pre ++ example_dump_body)
                ++ example_dump_pre ++ example_dump_body) with
       | i :: j :: _ => j - i
       | _ => Z.of_nat (length ((example_dump_pre ++ example_dump_body)
                                ++ example_dump_pre ++ example_dump_body))
       end.
Proof.
  apply (dump_readNfunc_steplinenum example_self
           ((example_dump_pre ++ example_dump_body)
            ++ example_dump_pre ++ example_dump_body)
           (mkDetect ["H"; "O"] 2 false (Some 2) (Some [0; 0])
              (Some 0) (Some 1) (Some 2) (Some 3) (Some 4)) 11).
  vm_compute. reflexivity.
Defined.
